(** * Creative automation pipeline: a shallow embedding and its properties

  The development follows the layout of the Python package: one module
  per source file ([models.py], [brief_parser.py], [asset_manager.py],
  [image_generator.py], [content_moderator.py], [localizer.py],
  [brand_compliance.py], [pipeline.py], [image_processor.py],
  [main.py]).  Python values are embedded as follows.

  - [str] is [string]; [Optional[str]] is [option string], with Python
    truthiness ([None] and the empty string are falsy) written out.
  - Exceptions are values of [exn]; code that may raise returns
    [exn + A].
  - The orchestrator threads its mutable attributes, the file system and
    the generation backend's call counter through a state-and-exception
    monad [M]: the state survives an exception, as files written before
    a crash stay on disk.
  - PIL images are an abstract type.  The image library, the file
    system, the generation service and the translation service are
    parameters: [Section] variables in the modules of the components,
    and the fields of the interface [World] for the orchestrator.
  - Strings are ASCII: [lower] and [int16] follow Python on that range.
  - Console output is not modelled, the line [main] echoes at its end
    apart. *)

From Stdlib Require Import List String Ascii ZArith Lia Bool Arith PeanoNat.
From Stdlib Require Import DecimalString Decimal.
Import ListNotations.

Local Open Scope string_scope.
Local Open Scope list_scope.

(** String concatenation, kept apart from list append. *)
Infix "+++" := String.append (right associativity, at level 60).

(** ** Python built-ins used by the sources *)

Module Py.

(** [str(n)] for a non-negative [int]. *)
Definition str_of_nat (n : nat) : string :=
  NilZero.string_of_uint (Nat.to_uint n).

(** [str(z)] for an [int]. *)
Definition str_of_Z (z : Z) : string :=
  NilZero.string_of_int (Z.to_int z).

(** [sep.join(l)]. *)
Definition join (sep : string) (l : list string) : string :=
  String.concat sep l.

(** Truthiness of an [Optional[str]]: [None] and [""] are falsy. *)
Definition truthy (o : option string) : bool :=
  match o with
  | None => false
  | Some s => negb (String.eqb s "")
  end.

(** Truthiness of a list: the empty list is falsy. *)
Definition nonempty {A} (l : list A) : bool :=
  match l with [] => false | _ :: _ => true end.

(** [c.lower()] on the ASCII range; the sources only lower-case English
    keywords and campaign text, and strings are modelled as ASCII. *)
Definition lower_ascii (c : ascii) : ascii :=
  let n := nat_of_ascii c in
  if (65 <=? n)%nat && (n <=? 90)%nat then ascii_of_nat (n + 32) else c.

Fixpoint lower (s : string) : string :=
  match s with
  | EmptyString => EmptyString
  | String c s' => String (lower_ascii c) (lower s')
  end.

(** [needle in hay] on strings: substring containment. *)
Fixpoint contains (needle hay : string) : bool :=
  String.prefix needle hay ||
  match hay with
  | EmptyString => false
  | String _ hay' => contains needle hay'
  end.

(** [s.lstrip(c)] for a single character [c]. *)
Fixpoint lstrip (c : ascii) (s : string) : string :=
  match s with
  | String d s' => if Ascii.eqb c d then lstrip c s' else s
  | EmptyString => EmptyString
  end.

(** The slice [s[i:i+n]]; like Python's it is shorter than [n] when the
    string ends early. *)
Fixpoint slice (i n : nat) (s : string) : string :=
  match i, s with
  | _, EmptyString => EmptyString
  | S i', String _ s' => slice i' n s'
  | O, String c s' =>
      match n with
      | O => EmptyString
      | S n' => String c (slice O n' s')
      end
  end.

(** [s.split(sep)] for a single-character separator. *)
Fixpoint split (sep : ascii) (s : string) : list string :=
  match s with
  | EmptyString => [EmptyString]
  | String c s' =>
      if Ascii.eqb c sep then EmptyString :: split sep s'
      else match split sep s' with
           | [] => [String c EmptyString]
           | w :: ws => String c w :: ws
           end
  end.

(** White space as [str.split()] sees it: tab to carriage return, the
    four separators 28 to 31, and the space. *)
Definition is_space (c : ascii) : bool :=
  let n := nat_of_ascii c in
  ((9 <=? n) && (n <=? 13))%nat || ((28 <=? n) && (n <=? 32))%nat.

(** *** [repr(s)]

    The text is put between single quotes, or between double quotes
    when it holds a single quote and no double quote.  The chosen
    quote and the backslash are escaped with a backslash; tab, line
    feed and carriage return are written [\t], [\n] and [\r]; the
    other characters that do not print (below 32, 127, 128 to 160 and
    173, characters being read as code points) are written [\xhh]
    with two lower-case digits. *)

Definition double_quote : ascii := ascii_of_nat 34.

Definition backslash : ascii := ascii_of_nat 92.

Definition hex_lower (d : nat) : ascii :=
  if (d <? 10)%nat then ascii_of_nat (48 + d) else ascii_of_nat (87 + d).

Definition printable (c : ascii) : bool :=
  let n := nat_of_ascii c in
  negb ((n <? 32)%nat || (n =? 127)%nat
        || ((128 <=? n) && (n <=? 160))%nat || (n =? 173)%nat).

Definition escape_char (quote c : ascii) : string :=
  let n := nat_of_ascii c in
  if Ascii.eqb c quote || Ascii.eqb c backslash
  then String backslash (String c EmptyString)
  else if (n =? 9)%nat then String backslash "t"
  else if (n =? 10)%nat then String backslash "n"
  else if (n =? 13)%nat then String backslash "r"
  else if printable c then String c EmptyString
  else String backslash
         (String "x" (String (hex_lower (n / 16))
                        (String (hex_lower (n mod 16)) EmptyString))).

Fixpoint escape (quote : ascii) (s : string) : string :=
  match s with
  | EmptyString => EmptyString
  | String c s' => escape_char quote c +++ escape quote s'
  end.

Fixpoint has_char (c : ascii) (s : string) : bool :=
  match s with
  | EmptyString => false
  | String d s' => Ascii.eqb d c || has_char c s'
  end.

Definition repr_str (s : string) : string :=
  let quote :=
    if has_char "'"%char s && negb (has_char double_quote s)
    then double_quote else "'"%char in
  String quote (escape quote s) +++ String quote EmptyString.

(** [str(l)] for a list of strings: the [repr] of each item. *)
Definition str_of_list (l : list string) : string :=
  "[" +++ join ", " (map repr_str l) +++ "]".

(** Exceptions, by class; [str(e)] is the message. *)
Inductive exn : Type :=
| ValueError (msg : string)
| FileNotFoundError (msg : string)
| Exception (msg : string).

Definition exn_str (e : exn) : string :=
  match e with
  | ValueError m | FileNotFoundError m | Exception m => m
  end.

End Py.

Import Py.

(** ** pathlib (POSIX flavour)

  A path is its anchor and its components.  The anchor is empty for a
  relative path, ["/"] for an absolute one, and ["//"] when the text
  begins with exactly two slashes, the special root of POSIX.
  [Path(s)] drops empty and ["."] components and keeps [".."], [p / s]
  restarts from [s] when [s] is absolute. *)

Module Pathlib.

Record Path : Type := mkPath { anchor : string; parts : list string }.

(** [p.is_absolute()] *)
Definition absolute (p : Path) : bool := negb (String.eqb (anchor p) "").

Definition anchor_of (s : string) : string :=
  if String.prefix "/" s then
    if String.prefix "//" s && negb (String.prefix "///" s) then "//" else "/"
  else "".

Definition keep_part (s : string) : bool :=
  negb (String.eqb s "") && negb (String.eqb s ".").

Definition of_string (s : string) : Path :=
  {| anchor := anchor_of s;
     parts := filter keep_part (split "/"%char s) |}.

(** [p / s] *)
Definition joinpath (p : Path) (s : string) : Path :=
  let q := of_string s in
  if absolute q then q
  else {| anchor := anchor p; parts := parts p ++ parts q |}.

(** [p.name] *)
Definition path_name (p : Path) : string := last (parts p) "".

(** [str(p)] *)
Definition to_string (p : Path) : string :=
  match parts p with
  | [] => if absolute p then anchor p else "."
  | ps => anchor p +++ join "/" ps
  end.

Definition eqb (p q : Path) : bool :=
  String.eqb (anchor p) (anchor q) &&
  (if list_eq_dec string_dec (parts p) (parts q) then true else false).

(** [p.parent]: the path without its last component; the root and the
    empty path are their own parents. *)
Definition parent (p : Path) : Path :=
  {| anchor := anchor p; parts := removelast (parts p) |}.

(** What is left of [l] after the prefix [base], if [base] is one. *)
Fixpoint strip_prefix (base l : list string) : option (list string) :=
  match base, l with
  | [], _ => Some l
  | b :: base', x :: l' =>
      if String.eqb b x then strip_prefix base' l' else None
  | _ :: _, [] => None
  end.

(** [p.relative_to(other)]: [p] seen from [other], when [other] is [p]
    or one of its parents; the comparison is one of anchors and
    components, [".."] is not resolved.  [None] stands for the
    [ValueError] pathlib raises otherwise. *)
Definition relative_to (p other : Path) : option Path :=
  if String.eqb (anchor p) (anchor other) then
    match strip_prefix (parts other) (parts p) with
    | Some rest => Some {| anchor := ""; parts := rest |}
    | None => None
    end
  else None.

End Pathlib.

Import Pathlib.

Notation "p // s" := (joinpath p s) (at level 40, left associativity).

(** ** models.py *)

Module Models.

Record Product : Type := mkProduct {
  id : string;
  name : string;
  description : string;
  hero_image : option string
}.

Record TargetMarket : Type := mkTargetMarket {
  region : string;
  language : string
}.

Record BrandElements : Type := mkBrandElements {
  logo : option string;
  primary_color : string;
  font : string
}.

Record CampaignBrief : Type := mkCampaignBrief {
  campaign_id : string;
  products : list Product;
  target_market : TargetMarket;
  target_audience : string;
  campaign_message : string;
  brand_elements : option BrandElements
}.

Record AspectRatio : Type := mkAspectRatio {
  ar_name : string;
  ratio : list Z;
  width : Z;
  height : Z
}.

Record GeneratedAsset : Type := mkGeneratedAsset {
  product_id : string;
  product_name : string;
  aspect_ratio : string;
  file_path : string;
  source : string;
  prompt_used : option string
}.

End Models.

Import Models.

(** ** brief_parser.py *)

Module BriefParser.

Definition validate_brief (brief : CampaignBrief) : bool * list string :=
  let warnings := [] in
  let warnings :=
    if (List.length (products brief) <? 2)%nat
    then warnings ++
         ["Brief requires at least 2 products, found "
            +++ str_of_nat (List.length (products brief))]
    else warnings in
  let missing_images :=
    map name (filter (fun p => negb (truthy (hero_image p))) (products brief)) in
  let warnings :=
    if nonempty missing_images
    then warnings ++
         ["Products without hero images (will generate): "
            +++ join ", " missing_images]
    else warnings in
  let warnings :=
    match brand_elements brief with
    | None => warnings ++ ["No brand elements specified"]
    | Some _ => warnings
    end in
  let is_valid := (2 <=? List.length (products brief))%nat in
  (is_valid, warnings).

(** The three warnings by content, to state what the result holds. *)
Definition missing_hero (brief : CampaignBrief) : list string :=
  map name (filter (fun p => negb (truthy (hero_image p))) (products brief)).

Definition count_warning (brief : CampaignBrief) : string :=
  "Brief requires at least 2 products, found "
    +++ str_of_nat (List.length (products brief)).

Definition hero_warning (brief : CampaignBrief) : string :=
  "Products without hero images (will generate): "
    +++ join ", " (missing_hero brief).

End BriefParser.

(** ** asset_manager.py

  The file system is a parameter: [path_exists] is [Path.exists],
  [image_open] is [Image.open] followed by the RGB conversion (it yields
  the error text when PIL refuses the file), [mkdir] is
  [mkdir(parents=True, exist_ok=True)] and [image_save] is
  [image.save(path, format='PNG')]. *)

Module AssetManager.
Section WithFileSystem.

Variables Image FS : Type.
Variable path_exists : FS -> Path -> bool.
Variable image_open : FS -> Path -> string + Image.
Variable mkdir : FS -> Path -> FS.
Variable image_save : FS -> Path -> Image -> FS.

Record t : Type := mkAssetManager {
  campaign_root : Path;
  assets_dir : Path;
  output_dir : Path
}.

(** [__init__]: the attributes, and the file system after the output
    directory has been created. *)
Definition init (root : Path) (fs : FS) : t * FS :=
  let self := {| campaign_root := root;
                 assets_dir := root // "assets";
                 output_dir := root // "output" |} in
  (self, mkdir fs (output_dir self)).

Definition find_asset (self : t) (fs : FS) (asset_path : option string)
  : option Path :=
  match asset_path with
  | None => None
  | Some ref =>
      if String.eqb ref "" then None
      else
        let full_path := campaign_root self // ref in
        if path_exists fs full_path then Some full_path
        else
          let asset_name := path_name (of_string ref) in
          let assets_path := assets_dir self // asset_name in
          if path_exists fs assets_path then Some assets_path
          else None
  end.

Definition load_image (fs : FS) (image_path : Path) : exn + Image :=
  if negb (path_exists fs image_path)
  then inl (FileNotFoundError ("Image not found: " +++ to_string image_path))
  else match image_open fs image_path with
       | inr img => inr img
       | inl e =>
           inl (ValueError ("Failed to load image "
                              +++ to_string image_path +++ ": " +++ e))
       end.

Definition default_filename : string := "campaign_post.png".

(** Returns the path written and the file system after the write. *)
Definition save_output (self : t) (fs : FS) (image : Image)
    (product_id aspect_ratio_name filename : string) : Path * FS :=
  let output_path := output_dir self // product_id // aspect_ratio_name in
  let fs := mkdir fs output_path in
  let file_path := output_path // filename in
  (file_path, image_save fs file_path image).

End WithFileSystem.

Arguments init {FS} mkdir root fs.
Arguments find_asset {FS} path_exists self fs asset_path.
Arguments load_image {Image FS} path_exists image_open fs image_path.
Arguments save_output {Image FS} mkdir image_save self fs image
  product_id aspect_ratio_name filename.

(** The two places [find_asset] looks at for a reference. *)
Definition root_candidate (self : t) (ref : string) : Path :=
  campaign_root self // ref.

Definition assets_candidate (self : t) (ref : string) : Path :=
  assets_dir self // path_name (of_string ref).

End AssetManager.

(** ** image_generator.py

  The generation service (the DALL-E request, the download and the
  decoding of the image, all inside one [try]) is the parameter
  [backend]: the [n]-th request with a given prompt yields an image or
  the text of the error it raised.  The number of requests made so far
  is the only state. *)

Module ImageGenerator.

(** The list [prompt_parts] as [build_prompt] has it before the join. *)
Definition prompt_parts (product_name product_description target_audience : string)
    (brand_color : option string) : list string :=
  let prompt_parts :=
    [ "Professional product photography of " +++ product_name +++ ".";
      "Product details: " +++ product_description +++ ".";
      "Style: Clean, modern, appealing to " +++ target_audience +++ ".";
      "High quality, well-lit, studio setting." ] in
  let prompt_parts :=
    match brand_color with
    | Some c =>
        if truthy brand_color
        then prompt_parts ++ ["Incorporate " +++ c +++ " color accent."]
        else prompt_parts
    | None => prompt_parts
    end in
  prompt_parts ++ ["Commercial photography, 4K quality."].

Definition build_prompt (product_name product_description target_audience : string)
    (brand_color : option string) : string :=
  join " " (prompt_parts product_name product_description target_audience
              brand_color).

(** The order as the specification words it, for comparison: framing,
    description, style line, all the fixed boilerplate, and the colour
    accent last when a colour is given. *)
Definition prompt_parts_accent_last
    (product_name product_description target_audience : string)
    (brand_color : option string) : list string :=
  [ "Professional product photography of " +++ product_name +++ ".";
    "Product details: " +++ product_description +++ ".";
    "Style: Clean, modern, appealing to " +++ target_audience +++ ".";
    "High quality, well-lit, studio setting.";
    "Commercial photography, 4K quality." ]
  ++ match brand_color with
     | Some c => ["Incorporate " +++ c +++ " color accent."]
     | None => []
     end.

(** [__init__]: the API key read from the environment must be set. *)
Definition init (api_key : option string) : exn + unit :=
  if truthy api_key then inr tt
  else inl (ValueError "OpenAI API key required. Set OPENAI_API_KEY in .env file.").

Section WithBackend.

Variable Image : Type.
Variable backend : nat -> string -> string + Image.

(** A computation over the request counter. *)
Definition Gen (A : Type) : Type := nat -> (exn + A) * nat.

Definition generate (product_name product_description target_audience : string)
    (brand_color : option string) : Gen (Image * string) :=
  fun calls =>
    let prompt :=
      build_prompt product_name product_description target_audience brand_color in
    match backend calls prompt with
    | inr image => (inr (image, prompt), S calls)
    | inl e =>
        (inl (Exception ("Failed to generate image for "
                           +++ product_name +++ ": " +++ e)),
         S calls)
    end.

(** [str(last_error)]: ["None"] before the first failure. *)
Definition str_last_error (last_error : option exn) : string :=
  match last_error with
  | None => "None"
  | Some e => exn_str e
  end.

(** The [for attempt in range(max_retries)] loop, [remaining]
    iterations from the end. *)
Fixpoint retry_loop (product_name product_description target_audience : string)
    (brand_color : option string) (remaining : nat) (last_error : option exn)
  : nat -> (option exn + (Image * string)) * nat :=
  fun calls =>
    match remaining with
    | O => (inl last_error, calls)
    | S remaining' =>
        match generate product_name product_description target_audience
                brand_color calls with
        | (inr r, calls') => (inr r, calls')
        | (inl e, calls') =>
            retry_loop product_name product_description target_audience
              brand_color remaining' (Some e) calls'
        end
    end.

Definition default_max_retries : Z := 3.

Definition generate_with_retry
    (product_name product_description target_audience : string)
    (brand_color : option string) (max_retries : Z) : Gen (Image * string) :=
  fun calls =>
    match retry_loop product_name product_description target_audience
            brand_color (Z.to_nat max_retries) None calls with
    | (inr r, calls') => (inr r, calls')
    | (inl last_error, calls') =>
        (inl (Exception ("Failed after " +++ str_of_Z max_retries
                           +++ " attempts: " +++ str_last_error last_error)),
         calls')
    end.

End WithBackend.

Arguments generate {Image} backend _ _ _ _ _.
Arguments retry_loop {Image} backend _ _ _ _ _ _ _.
Arguments generate_with_retry {Image} backend _ _ _ _ _ _.

End ImageGenerator.

(** ** content_moderator.py *)

Module ContentModerator.

Record ModerationResult : Type := mkModerationResult {
  flagged : bool;
  categories : list (string * bool);
  prohibited_terms : list string
}.

Definition is_safe (r : ModerationResult) : bool :=
  negb (flagged r) && (List.length (prohibited_terms r) =? 0)%nat.

Definition _load_default_terms : list string :=
  ["guaranteed"; "miracle"; "cure"].

(** The moderator object: its term list. *)
Record t : Type := mkContentModerator { terms : list string }.

(** [__init__]: [prohibited_terms or self._load_default_terms()], so
    both [None] and the empty list select the defaults. *)
Definition init (prohibited_terms : option (list string)) : t :=
  match prohibited_terms with
  | Some (x :: l) => {| terms := x :: l |}
  | Some [] | None => {| terms := _load_default_terms |}
  end.

Definition _ai_moderation_check (text : string) : bool := false.

Definition check_prohibited_terms (self : t) (text : string) : list string :=
  let text_lower := lower text in
  filter (fun term => contains (lower term) text_lower) (terms self).

Definition moderate_text (self : t) (text : string) : ModerationResult :=
  let found_terms := check_prohibited_terms self text in
  let flagged := _ai_moderation_check text in
  {| flagged := flagged; categories := []; prohibited_terms := found_terms |}.

Definition newline : string := String (ascii_of_nat 10) EmptyString.

Definition moderate_campaign_message (self : t) (message : string)
    (strict : bool) : exn + bool :=
  let result := moderate_text self message in
  if negb (is_safe result) then
    let error_msg := "Campaign message failed moderation:" +++ newline in
    let error_msg :=
      error_msg +++ "  - Prohibited terms found: "
                +++ join ", " (prohibited_terms result) +++ newline in
    if strict then inl (ValueError error_msg)
    else inr false
  else inr true.

End ContentModerator.

(** ** localizer.py

  The translation service (the construction of the translator and the
  [translate] call, both inside one [try]) is the parameter
  [translator]: source, target and text give the translation or the
  text of the error raised. *)

Module Localizer.

Definition _get_font_map : list (string * string) :=
  [("en", "Arial"); ("es", "Arial"); ("ja", "Noto Sans JP")].

(** [d.get(k, default)] *)
Fixpoint dict_get (d : list (string * string)) (k default : string) : string :=
  match d with
  | [] => default
  | (k', v) :: d' => if String.eqb k k' then v else dict_get d' k default
  end.

Definition get_font_for_language (language : string) : string :=
  dict_get _get_font_map (lower language) "Arial".

Section WithTranslator.

Variable translator : string -> string -> string -> string + string.

Definition default_source_language : string := "en".

Definition translate_text (text target_language source_language : string)
  : string :=
  if String.eqb target_language source_language then text
  else match translator source_language target_language text with
       | inr result => result
       | inl _ => text
       end.

Definition localize_message (message target_language : string) : string :=
  if String.eqb target_language "en" then message
  else translate_text message target_language default_source_language.

End WithTranslator.
End Localizer.

(** ** brand_compliance.py

  The image is seen through [sample_grid]: [image.resize((100, 100))]
  followed by [list(getdata())], or the text of the error PIL raised.
  A pixel is a bare number (single-band modes) or a tuple of bands.
  The scores are the float constants 100.0, 50.0 and 0.0 of the source,
  written as integers. *)

Module BrandCompliance.

Record ComplianceResult : Type := mkComplianceResult {
  check_name : string;
  passed : bool;
  score : Z;
  message : string;
  details : list (string * string)
}.

(** *** [int(s, 16)]

    On an ASCII string [int] skips the white space of C around the
    number: tab to carriage return, and the space. *)

Definition is_int_space (c : ascii) : bool :=
  let n := nat_of_ascii c in
  ((9 <=? n) && (n <=? 13))%nat || (n =? 32)%nat.

Definition hex_digit (c : ascii) : option Z :=
  let n := nat_of_ascii c in
  if ((48 <=? n) && (n <=? 57))%nat then Some (Z.of_nat n - 48)%Z
  else if ((97 <=? n) && (n <=? 102))%nat then Some (Z.of_nat n - 87)%Z
  else if ((65 <=? n) && (n <=? 70))%nat then Some (Z.of_nat n - 55)%Z
  else None.

Fixpoint skip_spaces (s : string) : string :=
  match s with
  | String c s' => if is_int_space c then skip_spaces s' else s
  | EmptyString => EmptyString
  end.

(** The digits, single underscores allowed between two of them; [prev]
    is [None] before the first character, [Some true] after a digit and
    [Some false] after an underscore.  Returns the value and the rest. *)
Fixpoint scan_digits (acc : Z) (prev : option bool) (s : string)
  : option (Z * string) :=
  match s with
  | EmptyString =>
      match prev with Some true => Some (acc, EmptyString) | _ => None end
  | String c s' =>
      match hex_digit c with
      | Some d => scan_digits (16 * acc + d)%Z (Some true) s'
      | None =>
          if Ascii.eqb c "_"%char then
            match prev with
            | Some true => scan_digits acc (Some false) s'
            | _ => None
            end
          else
            match prev with Some true => Some (acc, s) | _ => None end
      end
  end.

Definition skip_prefix (s : string) : string :=
  match s with
  | String "0"%char (String x s') =>
      if Ascii.eqb x "x"%char || Ascii.eqb x "X"%char then
        match s' with
        | String "_"%char s'' => s''
        | _ => s'
        end
      else s
  | _ => s
  end.

Definition int16 (s : string) : option Z :=
  let s1 := skip_spaces s in
  let '(sign, s2) :=
    match s1 with
    | String "+"%char r => (1%Z, r)
    | String "-"%char r => ((-1)%Z, r)
    | _ => (1%Z, s1)
    end in
  match scan_digits 0%Z None (skip_prefix s2) with
  | Some (v, rest) =>
      match skip_spaces rest with
      | EmptyString => Some (sign * v)%Z
      | _ => None
      end
  | None => None
  end.

(** The message of the [ValueError] of [int]; the literal is shown as
    [repr] shows it. *)
Definition int16_error (s : string) : string :=
  "invalid literal for int() with base 16: " +++ repr_str s.

Definition _hex_to_rgb (hex_color : string) : string + (Z * Z * Z) :=
  let hex_color := lstrip "#"%char hex_color in
  let chan (i : nat) : string + Z :=
    let s := slice i 2 hex_color in
    match int16 s with Some v => inr v | None => inl (int16_error s) end in
  match chan 0%nat with
  | inl e => inl e
  | inr r =>
      match chan 2%nat with
      | inl e => inl e
      | inr g =>
          match chan 4%nat with
          | inl e => inl e
          | inr b => inr (r, g, b)
          end
      end
  end.

Inductive pixel : Type :=
| Band (v : Z)
| Bands (vs : list Z).

Definition tolerance : Z := 30.

(** The loop over the pixels: [inr true] when it breaks on a match,
    [inr false] when it runs out, [inl] the text of the [TypeError] of
    [len] on a bare number. *)
Fixpoint scan_pixels (brand_rgb : Z * Z * Z) (pixels : list pixel)
  : string + bool :=
  match pixels with
  | [] => inr false
  | Band _ :: _ => inl "object of type 'int' has no len()"
  | Bands (r :: g :: b :: _) :: rest =>
      let '(br, bg, bb) := brand_rgb in
      if ((Z.abs (r - br) <? tolerance) &&
          (Z.abs (g - bg) <? tolerance) &&
          (Z.abs (b - bb) <? tolerance))%Z
      then inr true
      else scan_pixels brand_rgb rest
  | Bands _ :: rest => scan_pixels brand_rgb rest
  end.

(** A grid whose pixels all carry the colour [(r, g, b)] in their first
    three bands. *)
Definition filled_with (c : Z * Z * Z) (pixels : list pixel) : Prop :=
  let '(r, g, b) := c in
  Forall (fun p => exists rest, p = Bands (r :: g :: b :: rest)) pixels.

(** The complementary colour: each channel negated. *)
Definition complement (c : Z * Z * Z) : Z * Z * Z :=
  let '(r, g, b) := c in (255 - r, 255 - g, 255 - b)%Z.

(** A channel whose negation lies at least [tolerance] away from it. *)
Definition far_from_negation (v : Z) : bool :=
  (tolerance <=? Z.abs (255 - v - v))%Z.

Section WithImages.

Variable Image : Type.
Variable sample_grid : Image -> string + list pixel.

(** The checker object. *)
Record t : Type := mkChecker {
  brand_color : option string;
  logo_path : option Path
}.

Definition check_failed (e : string) : ComplianceResult :=
  mkComplianceResult "color_presence" false 0 ("Color check failed: " +++ e) [].

Definition check_color_presence (self : t) (image : Image) : ComplianceResult :=
  match brand_color self with
  | None =>
      mkComplianceResult "color_presence" true 100
        "No brand color specified - skipped" []
  | Some color =>
      if negb (truthy (brand_color self)) then
        mkComplianceResult "color_presence" true 100
          "No brand color specified - skipped" []
      else
        match _hex_to_rgb color with
        | inl e => check_failed e
        | inr brand_rgb =>
            match sample_grid image with
            | inl e => check_failed e
            | inr pixels =>
                match scan_pixels brand_rgb pixels with
                | inl e => check_failed e
                | inr true =>
                    mkComplianceResult "color_presence" true 100
                      ("Brand color " +++ color +++ " detected") []
                | inr false =>
                    mkComplianceResult "color_presence" false 50
                      ("Brand color " +++ color +++ " not prominently featured")
                      [("brand_color", color)]
                end
            end
        end
  end.

Record CheckEntry : Type := mkCheckEntry {
  ce_passed : bool;
  ce_score : Z;
  ce_message : string;
  ce_details : list (string * string)
}.

(** The dictionary returned by [run_brand_checks]. *)
Record BrandChecks : Type := mkBrandChecks {
  overall_passed : bool;
  overall_score : Z;
  checks_color_presence : CheckEntry
}.

Definition run_brand_checks (self : t) (image : Image) : BrandChecks :=
  let color_check := check_color_presence self image in
  {| overall_passed := passed color_check;
     overall_score := score color_check;
     checks_color_presence :=
       {| ce_passed := passed color_check;
          ce_score := score color_check;
          ce_message := message color_check;
          ce_details := details color_check |} |}.

End WithImages.

Arguments check_color_presence {Image} sample_grid self image.
Arguments run_brand_checks {Image} sample_grid self image.

End BrandCompliance.

(** ** pipeline.py *)

Module Pipeline.

Import BrandCompliance.

(** *** Configuration *)

Record TextOverlay : Type := mkTextOverlay {
  font_size_base : Z;
  padding : Z;
  text_color : string;
  stroke_color : string;
  stroke_width : Z;
  position : string
}.

Record Config : Type := mkConfig {
  aspect_ratios : list AspectRatio;
  text_overlay : TextOverlay
}.

Definition square : AspectRatio := mkAspectRatio "square" [1; 1]%Z 1080 1080.
Definition story : AspectRatio := mkAspectRatio "story" [9; 16]%Z 1080 1920.
Definition landscape : AspectRatio :=
  mkAspectRatio "landscape" [16; 9]%Z 1920 1080.

Definition _load_config : Config :=
  {| aspect_ratios := [square; story; landscape];
     text_overlay :=
       {| font_size_base := 72;
          padding := 60;
          text_color := "#FFFFFF";
          stroke_color := "#000000";
          stroke_width := 3;
          position := "bottom" |} |}.

(** *** The report *)

Record ComplianceEntry : Type := mkComplianceEntry {
  ce_product_id : string;
  ce_product_name : string;
  ce_compliance : BrandChecks
}.

Record LocalizationBlock : Type := mkLocalizationBlock {
  loc_enabled : bool;
  loc_target_language : string;
  loc_original_message : string;
  loc_localized_message : option string
}.

Record Variant : Type := mkVariant {
  var_aspect_ratio : string;
  var_file_path : string
}.

Record ProductReport : Type := mkProductReport {
  pr_product_id : string;
  pr_product_name : string;
  pr_source : string;
  pr_prompt_used : option string;
  pr_compliance : option BrandChecks;
  pr_variants : list Variant
}.

Record Statistics : Type := mkStatistics {
  total_products : nat;
  total_assets : nat;
  assets_generated : nat;
  assets_reused : nat;
  compliance_passed : nat;
  compliance_total : nat
}.

Record Report : Type := mkReport {
  rep_campaign_id : string;
  rep_timestamp : string;
  rep_content_moderation : string;
  rep_localization : LocalizationBlock;
  rep_brand_compliance : string;
  rep_products : list ProductReport;
  rep_statistics : Statistics
}.

(** [language not in ['en', 'en-US']] *)
Definition not_english (language : string) : bool :=
  negb (String.eqb language "en" || String.eqb language "en-US").

(** [next((... for r in results if r['product_id'] == id), None)] *)
Definition first_compliance (results : list ComplianceEntry) (pid : string)
  : option BrandChecks :=
  match filter (fun r => String.eqb (ce_product_id r) pid) results with
  | r :: _ => Some (ce_compliance r)
  | [] => None
  end.

Definition product_report (generated_assets : list GeneratedAsset)
    (compliance_results : list ComplianceEntry) (product : Product)
  : ProductReport :=
  let product_assets :=
    filter (fun a => String.eqb (product_id a) (id product)) generated_assets in
  let compliance_data := first_compliance compliance_results (id product) in
  {| pr_product_id := id product;
     pr_product_name := name product;
     pr_source :=
       match product_assets with a :: _ => source a | [] => "unknown" end;
     pr_prompt_used :=
       match product_assets with a :: _ => prompt_used a | [] => None end;
     pr_compliance := compliance_data;
     pr_variants :=
       map (fun asset => {| var_aspect_ratio := aspect_ratio asset;
                            var_file_path := file_path asset |})
           product_assets |}.

(** [_generate_report]; [cwd] is [str(Path.cwd())], the placeholder the
    source stores as the timestamp. *)
Definition _generate_report (cwd : string)
    (generated_assets : list GeneratedAsset)
    (compliance_results : list ComplianceEntry)
    (brief : CampaignBrief) (original_message : string) : Report :=
  let lang := language (target_market brief) in
  {| rep_campaign_id := campaign_id brief;
     rep_timestamp := cwd;
     rep_content_moderation := "enabled";
     rep_localization :=
       {| loc_enabled := not_english lang;
          loc_target_language := lang;
          loc_original_message := original_message;
          loc_localized_message :=
            if not_english lang then Some (campaign_message brief) else None |};
     rep_brand_compliance := "enabled";
     rep_products :=
       map (product_report generated_assets compliance_results) (products brief);
     rep_statistics :=
       {| total_products := List.length (products brief);
          total_assets := List.length generated_assets;
          assets_generated :=
            List.length
              (filter (fun a => String.eqb (source a) "generated") generated_assets);
          assets_reused :=
            List.length
              (filter (fun a => String.eqb (source a) "existing") generated_assets);
          compliance_passed :=
            List.length
              (filter (fun r => overall_passed (ce_compliance r)) compliance_results);
          compliance_total := List.length compliance_results |} |}.

(** The collaborators of the orchestrator, as one interface.  Resizing,
    text overlay and saving are functions of their arguments: failures
    of the operating system, and of PIL on an image it has opened, are
    outside the model.  [paste_logo]
    is the part of [add_logo] after its existence test: it opens the
    logo file and pastes it, or raises what PIL raises when the file
    cannot be read as an image.  [subpath_error] is the text of the
    [ValueError] of [relative_to], given [str] of the two paths; it is
    not the same in all versions of Python. *)
Class World : Type := {
  Image : Type;
  FS : Type;
  path_exists : FS -> Path -> bool;
  image_open : FS -> Path -> string + Image;
  mkdir : FS -> Path -> FS;
  image_save : FS -> Path -> Image -> FS;
  parse : FS -> Path -> exn + CampaignBrief;
  yaml_dump : FS -> Path -> Report -> FS;
  cwd : string;
  backend : nat -> string -> string + Image;
  translator : string -> string -> string -> string + string;
  resize_for_aspect_ratio : Image -> Z -> Z -> Image;
  add_text_overlay :
    Image -> string -> string -> Z -> string -> string -> Z -> Z -> Image;
  paste_logo : FS -> Image -> Path -> string -> exn + Image;
  subpath_error : string -> string -> string;
  sample_grid : Image -> string + list pixel
}.

Section WithWorld.

Context {W : World}.

(** [ImageProcessor.add_logo]: a missing logo file leaves the image
    unchanged; a logo file that cannot be opened raises. *)
Definition add_logo (fs : FS) (image : Image) (logo_path : Path)
    (position : string) : exn + Image :=
  if negb (path_exists fs logo_path) then inr image
  else paste_logo fs image logo_path position.

(** The pipeline object: the attributes set once by [__init__]. *)
Record t : Type := mkPipeline {
  campaign_path : Path;
  config : Config;
  asset_manager : AssetManager.t;
  content_moderator : ContentModerator.t
}.

(** What a run changes: the two result lists of the object, the file
    system, and the number of requests sent to the generation service.
    [saved] records the calls of [save_output], oldest first. *)
Record State : Type := mkState {
  generated_assets : list GeneratedAsset;
  compliance_results : list ComplianceEntry;
  fs : FS;
  requests : nat;
  saved : list (Path * Image)
}.

(** [__init__]; the missing API key is the only failure. *)
Definition init (campaign_path : Path) (api_key : option string) (fs0 : FS)
  : exn + (t * State) :=
  let config := _load_config in
  let '(am, fs1) := AssetManager.init mkdir campaign_path fs0 in
  match ImageGenerator.init api_key with
  | inl e => inl e
  | inr _ =>
      inr ({| campaign_path := campaign_path;
              config := config;
              asset_manager := am;
              content_moderator := ContentModerator.init None |},
           {| generated_assets := [];
              compliance_results := [];
              fs := fs1;
              requests := 0;
              saved := [] |})
  end.

(** *** State and exceptions *)

Definition M (A : Type) : Type := State -> (exn + A) * State.

Definition ret {A} (a : A) : M A := fun s => (inr a, s).

Definition raise {A} (e : exn) : M A := fun s => (inl e, s).

Definition bind {A B} (c : M A) (k : A -> M B) : M B :=
  fun s =>
    match c s with
    | (inr a, s') => k a s'
    | (inl e, s') => (inl e, s')
    end.

Definition get : M State := fun s => (inr s, s).

Definition modify (f : State -> State) : M unit := fun s => (inr tt, f s).

Definition lift {A} (r : exn + A) : M A :=
  match r with inr a => ret a | inl e => raise e end.

Notation "x <- c ;; k" := (bind c (fun x => k))
  (at level 61, c at next level, right associativity).
Notation "c ;;; k" := (bind c (fun _ => k))
  (at level 61, right associativity).

(** [for x in l: body(x)] *)
Fixpoint for_each {A} (l : list A) (body : A -> M unit) : M unit :=
  match l with
  | [] => ret tt
  | x :: l' => body x ;;; for_each l' body
  end.

(** Calls into the collaborators that touch the state. *)
Definition generate_with_retry (product_name product_description
    target_audience : string) (brand_color : option string)
  : M (Image * string) :=
  fun s =>
    let '(r, n) :=
      ImageGenerator.generate_with_retry backend product_name
        product_description target_audience brand_color
        ImageGenerator.default_max_retries (requests s) in
    (r, {| generated_assets := generated_assets s;
           compliance_results := compliance_results s;
           fs := fs s;
           requests := n;
           saved := saved s |}).

Definition save_output (self : t) (image : Image)
    (product_id aspect_ratio_name : string) : M Path :=
  fun s =>
    let '(file_path, fs') :=
      AssetManager.save_output mkdir image_save (asset_manager self) (fs s)
        image product_id aspect_ratio_name AssetManager.default_filename in
    (inr file_path,
     {| generated_assets := generated_assets s;
        compliance_results := compliance_results s;
        fs := fs';
        requests := requests s;
        saved := saved s ++ [(file_path, image)] |}).

Definition append_asset (a : GeneratedAsset) : M unit :=
  modify (fun s =>
    {| generated_assets := generated_assets s ++ [a];
       compliance_results := compliance_results s;
       fs := fs s;
       requests := requests s;
       saved := saved s |}).

Definition append_compliance (r : ComplianceEntry) : M unit :=
  modify (fun s =>
    {| generated_assets := generated_assets s;
       compliance_results := compliance_results s ++ [r];
       fs := fs s;
       requests := requests s;
       saved := saved s |}).

Definition write_report (path : Path) (report : Report) : M unit :=
  modify (fun s =>
    {| generated_assets := generated_assets s;
       compliance_results := compliance_results s;
       fs := yaml_dump (fs s) path report;
       requests := requests s;
       saved := saved s |}).

Definition find_asset (self : t) (asset_path : option string)
  : M (option Path) :=
  s <- get ;;
  ret (AssetManager.find_asset path_exists (asset_manager self) (fs s) asset_path).

Definition load_image (image_path : Path) : M Image :=
  s <- get ;;
  lift (AssetManager.load_image path_exists image_open (fs s) image_path).

Notation "' pat <- c ;; k" :=
  (bind c (fun x => match x with pat => k end))
  (at level 61, pat pattern, c at next level, right associativity).

(** *** The run *)

Definition brand_color_of (brief : CampaignBrief) : option string :=
  match brand_elements brief with
  | Some be => Some (primary_color be)
  | None => None
  end.

(** [brief.brand_elements and brief.brand_elements.logo], as a truth
    value. *)
Definition has_logo (brief : CampaignBrief) : bool :=
  match brand_elements brief with
  | Some be => truthy (logo be)
  | None => false
  end.

Definition logo_of (brief : CampaignBrief) : option string :=
  match brand_elements brief with
  | Some be => logo be
  | None => None
  end.

(** [output_path.relative_to(self.campaign_path)], evaluated for the
    line printed after a save. *)
Definition shown_path (self : t) (output_path : Path) : M Path :=
  match relative_to output_path (campaign_path self) with
  | Some p => ret p
  | None =>
      raise (ValueError (subpath_error (to_string output_path)
                           (to_string (campaign_path self))))
  end.

(** The body of the loop over the aspect ratios (steps 3 and 4, the
    save and the line printed after it). *)
Definition process_ratio (self : t) (brief : CampaignBrief)
    (product : Product) (hero_image : Image) (source : string)
    (prompt_used : option string) (ratio : AspectRatio) : M unit :=
  let resized :=
    resize_for_aspect_ratio hero_image (width ratio) (height ratio) in
  let text_config := text_overlay (config self) in
  let with_text :=
    add_text_overlay resized (campaign_message brief)
      (position text_config) (font_size_base text_config)
      (text_color text_config) (stroke_color text_config)
      (stroke_width text_config) (padding text_config) in
  ' (with_text, logo_path) <-
    (if has_logo brief then
       logo_path <- find_asset self (logo_of brief) ;;
       match logo_path with
       | Some lp =>
           s <- get ;;
           with_logo <- lift (add_logo (fs s) with_text lp "top-right") ;;
           ret (with_logo, logo_path)
       | None => ret (with_text, logo_path)
       end
     else ret (with_text, None)) ;;
  (if String.eqb (ar_name ratio) "square" then
     let compliance_checker :=
       {| brand_color := brand_color_of brief;
          logo_path := if has_logo brief then logo_path else None |} in
     let compliance_result :=
       run_brand_checks sample_grid compliance_checker with_text in
     append_compliance
       {| ce_product_id := id product;
          ce_product_name := name product;
          ce_compliance := compliance_result |}
   else ret tt) ;;;
  output_path <- save_output self with_text (id product) (ar_name ratio) ;;
  append_asset
    {| product_id := id product;
       product_name := name product;
       aspect_ratio := ar_name ratio;
       file_path := to_string output_path;
       source := source;
       prompt_used := prompt_used |} ;;;
  _shown <- shown_path self output_path ;;
  ret tt.

(** The body of the loop over the products (step 2). *)
Definition process_product (self : t) (brief : CampaignBrief)
    (product : Product) : M unit :=
  hero_image_path <- find_asset self (hero_image product) ;;
  ' (hero_image, source, prompt_used) <-
    match hero_image_path with
    | Some p =>
        hero_image <- load_image p ;;
        ret (hero_image, "existing", None)
    | None =>
        let brand_color := brand_color_of brief in
        ' (hero_image, prompt_used) <-
          generate_with_retry (name product) (description product)
            (target_audience brief) brand_color ;;
        ret (hero_image, "generated", Some prompt_used)
    end ;;
  for_each (aspect_ratios (config self))
    (process_ratio self brief product hero_image source prompt_used).

(** Step 1.6: the brief after the in-place localization. *)
Definition localize (brief : CampaignBrief) : CampaignBrief :=
  let lang := language (target_market brief) in
  if negb (String.eqb lang "en-US") && negb (String.eqb lang "en") then
    let target_lang := hd "" (split "-"%char lang) in
    let message :=
      Localizer.translate_text translator (campaign_message brief)
        target_lang Localizer.default_source_language in
    {| campaign_id := campaign_id brief;
       products := products brief;
       target_market := target_market brief;
       target_audience := target_audience brief;
       campaign_message := message;
       brand_elements :=
         match brand_elements brief with
         | Some be =>
             Some {| logo := logo be;
                     primary_color := primary_color be;
                     font := Localizer.get_font_for_language target_lang |}
         | None => None
         end |}
  else brief.

Definition run (self : t) (brief_filename : string) : M Report :=
  let brief_path := campaign_path self // brief_filename in
  s <- get ;;
  brief <- lift (parse (fs s) brief_path) ;;
  let '(is_valid, warnings) := BriefParser.validate_brief brief in
  if negb is_valid
  then raise (ValueError ("Invalid brief: " +++ str_of_list warnings))
  else
    _safe <- lift (ContentModerator.moderate_campaign_message
                     (content_moderator self) (campaign_message brief) false) ;;
    let original_message := campaign_message brief in
    let brief := localize brief in
    for_each (products brief) (process_product self brief) ;;;
    s <- get ;;
    let report :=
      _generate_report cwd (generated_assets s) (compliance_results s)
        brief original_message in
    let report_path :=
      campaign_path self // "output" // "generation_report.yaml" in
    write_report report_path report ;;;
    _shown <- shown_path self report_path ;;
    ret report.

End WithWorld.

(** *** What a run is expected to leave behind *)

(** The file [save_output] writes for a product and a ratio. *)
Definition output_file (self : t) (product_id ratio_name : string) : Path :=
  AssetManager.output_dir (asset_manager self)
    // product_id // ratio_name // AssetManager.default_filename.

(** The record appended for a product and a ratio, given the source and
    the prompt fixed for the product. *)
Definition asset_record (self : t) (product : Product) (source : string)
    (prompt_used : option string) (ratio : AspectRatio) : GeneratedAsset :=
  {| product_id := id product;
     product_name := name product;
     aspect_ratio := ar_name ratio;
     file_path := to_string (output_file self (id product) (ar_name ratio));
     source := source;
     prompt_used := prompt_used |}.

Definition is_square (ratio : AspectRatio) : bool :=
  String.eqb (ar_name ratio) "square".

(** The records of one product: one per configured ratio, in order. *)
Definition product_block (self : t) (product : Product)
    (outcome : string * option string) : list GeneratedAsset :=
  map (asset_record self product (fst outcome) (snd outcome))
      (aspect_ratios (config self)).

(** The two ways a hero image is obtained. *)
Definition reused : string * option string := ("existing", None).

Definition generated_for (brief : CampaignBrief) (product : Product)
  : string * option string :=
  ("generated",
   Some (ImageGenerator.build_prompt (name product) (description product)
           (target_audience brief) (brand_color_of brief))).

(** The state of an object on which [run] has not been called. *)
Definition fresh {W : World} (s : State) : Prop :=
  generated_assets s = [] /\ compliance_results s = [] /\ saved s = [].

(** The file system after an image has been saved as [save_output]
    saves it: the directory of the file is made, then the file is
    written. *)
Definition write_file {W : World} (fs : FS) (file : Path * Image) : FS :=
  image_save (mkdir fs (parent (fst file))) (fst file) (snd file).

(** The file system after the files of a list have been saved, oldest
    first. *)
Definition write_all {W : World} (fs : FS) (files : list (Path * Image)) : FS :=
  fold_left write_file files fs.

(** What one iteration of the ratio loop adds to the state. *)
Definition ratio_step {W : World} (self : t) (product : Product)
    (source : string) (prompt_used : option string) (ratio : AspectRatio)
    (s s' : State) : Prop :=
  generated_assets s' =
    generated_assets s ++ [asset_record self product source prompt_used ratio] /\
  (if is_square ratio
   then exists checks,
       compliance_results s' =
         compliance_results s
           ++ [mkComplianceEntry (id product) (name product) checks]
   else compliance_results s' = compliance_results s) /\
  (exists image,
      saved s' =
        saved s ++ [(output_file self (id product) (ar_name ratio), image)] /\
      fs s' =
        write_file (fs s) (output_file self (id product) (ar_name ratio), image)) /\
  requests s' = requests s.

(** From [s] to [s'] the file system changed by the saving of the
    files that [save_output] logged, and by nothing else. *)
Definition files_written {W : World} (s s' : State) : Prop :=
  exists files,
    saved s' = saved s ++ files /\
    fs s' = write_all (fs s) files.

(** Who a compliance entry is about. *)
Definition entry_key (r : ComplianceEntry) : string * string :=
  (ce_product_id r, ce_product_name r).

Definition product_key (p : Product) : string * string := (id p, name p).

(** From [s] to [s'] the asset list grew by [assets], the compliance
    list by entries about [keys], and [save_output] wrote [paths], all
    in this order. *)
Definition grows {W : World} (assets : list GeneratedAsset)
    (keys : list (string * string)) (paths : list Path) (s s' : State) : Prop :=
  generated_assets s' = generated_assets s ++ assets /\
  (exists entries,
      compliance_results s' = compliance_results s ++ entries /\
      map entry_key entries = keys) /\
  (exists files,
      saved s' = saved s ++ files /\ map fst files = paths).

(** The three lists the processing of one product adds, by ratio. *)
Definition block_assets (self : t) (ratios : list AspectRatio)
    (po : Product * (string * option string)) : list GeneratedAsset :=
  map (asset_record self (fst po) (fst (snd po)) (snd (snd po))) ratios.

Definition block_keys (ratios : list AspectRatio)
    (po : Product * (string * option string)) : list (string * string) :=
  map (fun _ => product_key (fst po)) (filter is_square ratios).

Definition block_paths (self : t) (ratios : list AspectRatio)
    (po : Product * (string * option string)) : list Path :=
  map (fun r => output_file self (id (fst po)) (ar_name r)) ratios.

(** A product paired with how its hero image was obtained. *)
Definition outcome_ok (brief : CampaignBrief)
    (po : Product * (string * option string)) : Prop :=
  snd po = reused \/ snd po = generated_for brief (fst po).

(** The state after the report file has been written. *)
Definition report_written {W : World} (self : t) (report : Report)
    (s : State) : State :=
  {| generated_assets := generated_assets s;
     compliance_results := compliance_results s;
     fs := yaml_dump (fs s)
             (campaign_path self // "output" // "generation_report.yaml") report;
     requests := requests s;
     saved := saved s |}.

(** The same pipeline object with another moderator. *)
Definition with_moderator (self : t) (cm : ContentModerator.t) : t :=
  {| campaign_path := campaign_path self;
     config := config self;
     asset_manager := asset_manager self;
     content_moderator := cm |}.

(** The state with another request count. *)
Definition set_requests {W : World} (s : State) (n : nat) : State :=
  {| generated_assets := generated_assets s;
     compliance_results := compliance_results s;
     fs := fs s;
     requests := n;
     saved := saved s |}.

End Pipeline.

(** ** A small concrete world

  Used to run the definitions on examples: images are a single colour,
  the file system is the list of the paths that exist, the generation
  service fails twice and then answers, and the translation service
  tags the text with the target language. *)

Module Demo.

Import Pipeline.

Definition colour : Type := (Z * Z * Z)%type.

Definition grid_of (c : colour) : list BrandCompliance.pixel :=
  let '(r, g, b) := c in repeat (BrandCompliance.Bands [r; g; b]) (100 * 100).

Definition red : colour := (255, 0, 0)%Z.
Definition grey : colour := (127, 127, 127)%Z.

Definition root : Path := of_string "/campaigns/acme".

Definition soap : Product :=
  mkProduct "soap" "Acme Soap" "Gentle bar soap" (Some "hero_soap.png").

Definition shampoo : Product :=
  mkProduct "shampoo" "Acme Shampoo" "Daily shampoo" None.

Definition brief_en : CampaignBrief :=
  {| campaign_id := "summer";
     products := [soap; shampoo];
     target_market := mkTargetMarket "US" "en-US";
     target_audience := "young adults";
     campaign_message := "Feel fresh every day";
     brand_elements := Some (mkBrandElements None "#FF0000" "Arial") |}.

(** Neither product has a hero image: both must be generated. *)
Definition brief_generated : CampaignBrief :=
  {| campaign_id := "winter";
     products := [shampoo; mkProduct "gel" "Acme Gel" "Shower gel" None];
     target_market := mkTargetMarket "US" "en";
     target_audience := "young adults";
     campaign_message := "Feel fresh every day";
     brand_elements := None |}.

Definition exists_in (fs : list Path) (p : Path) : bool :=
  existsb (Pathlib.eqb p) fs.

Definition disk : list Path :=
  [root; root // "brief.yaml"; root // "assets";
   root // "assets" // "hero_soap.png"].

Definition world_with (brief : CampaignBrief)
    (backend : nat -> string -> string + colour) : World :=
  {| Image := colour;
     FS := list Path;
     path_exists := exists_in;
     image_open := fun _ _ => inr grey;
     mkdir := fun fs p => p :: fs;
     image_save := fun fs p _ => p :: fs;
     parse := fun fs p =>
       if exists_in fs p then inr brief
       else inl (FileNotFoundError ("Brief file not found: " +++ to_string p));
     yaml_dump := fun fs p _ => p :: fs;
     cwd := "/work";
     backend := backend;
     translator := fun _ target text => inr ("[" +++ target +++ "] " +++ text);
     resize_for_aspect_ratio := fun img _ _ => img;
     add_text_overlay := fun img _ _ _ _ _ _ _ => img;
     paste_logo := fun _ img _ _ => inr img;
     subpath_error := fun p other =>
       repr_str p +++ " is not in the subpath of " +++ repr_str other;
     sample_grid := fun img => inr (grid_of img) |}.

Definition flaky_backend (n : nat) (prompt : string) : string + colour :=
  if (n <? 2)%nat then inl "rate limit exceeded" else inr red.

Definition dead_backend (n : nat) (prompt : string) : string + colour :=
  inl "service unavailable".

Definition world : World := world_with brief_en flaky_backend.

Definition dead_world : World := world_with brief_generated dead_backend.

(** The pipeline object and the initial state built by [__init__]. *)
Definition pipeline_of (W : World) (fs0 : @FS W) : @t * @State W :=
  match @init W root (Some "sk-test") fs0 with
  | inr r => r
  | inl _ =>
      (mkPipeline root _load_config
         (AssetManager.mkAssetManager root root root) (ContentModerator.init None),
       mkState [] [] fs0 0 [])
  end.

Definition self : t := fst (pipeline_of world disk).
Definition state0 : @State world := snd (pipeline_of world disk).
Definition dead_state0 : @State dead_world := snd (pipeline_of dead_world disk).

(** The same object configured without the square ratio. *)
Definition self_no_square : t :=
  {| campaign_path := campaign_path self;
     config :=
       {| aspect_ratios := [story; landscape];
          text_overlay := text_overlay (config self) |};
     asset_manager := asset_manager self;
     content_moderator := content_moderator self |}.

(** A report with nothing in it, to name the result of a run that
    raised. *)
Definition no_report : Report :=
  {| rep_campaign_id := "";
     rep_timestamp := "";
     rep_content_moderation := "";
     rep_localization := mkLocalizationBlock false "" "" None;
     rep_brand_compliance := "";
     rep_products := [];
     rep_statistics := mkStatistics 0 0 0 0 0 0 |}.

Definition report_of {W : World} (r : (exn + Report) * State) : Report :=
  match fst r with
  | inr report => report
  | inl _ => no_report
  end.

(** The run of the demonstration campaign, and the same run without
    the square ratio. *)
Definition outcome : (exn + Report) * @State world :=
  @run world self "brief.yaml" state0.

Definition outcome_no_square : (exn + Report) * @State world :=
  @run world self_no_square "brief.yaml" state0.

End Demo.

(** ** image_processor.py

  The text measuring of PIL ([draw.textbbox((0, 0), line, font)], right
  edge minus left edge) is the parameter [textwidth]. *)

Module ImageProcessor.

(** [text.split()]: the maximal runs of characters that are not white
    space.  [current] is the run being read, if any. *)
Fixpoint words_from (current : option string) (s : string) : list string :=
  match s with
  | EmptyString =>
      match current with Some w => [w] | None => [] end
  | String c s' =>
      if is_space c then
        match current with
        | Some w => w :: words_from None s'
        | None => words_from None s'
        end
      else
        match current with
        | Some w => words_from (Some (w +++ String c EmptyString)) s'
        | None => words_from (Some (String c EmptyString)) s'
        end
  end.

Definition split_whitespace (s : string) : list string := words_from None s.

Definition newline : string := String (ascii_of_nat 10) EmptyString.

Section WithFont.

Variable textwidth : string -> Z.

(** The loop of [_wrap_text] over the words, from the lines finished so
    far and the words of the line being filled. *)
Fixpoint wrap_loop (max_width : Z) (words : list string)
    (lines : list string) (current_line : list string)
  : list string * list string :=
  match words with
  | [] => (lines, current_line)
  | word :: words' =>
      let test_line := join " " (current_line ++ [word]) in
      let width := textwidth test_line in
      if (width <=? max_width)%Z then
        wrap_loop max_width words' lines (current_line ++ [word])
      else
        let lines :=
          if nonempty current_line
          then lines ++ [join " " current_line]
          else lines in
        wrap_loop max_width words' lines [word]
  end.

Definition wrapped_lines (text : string) (max_width : Z) : list string :=
  let '(lines, current_line) :=
    wrap_loop max_width (split_whitespace text) [] [] in
  if nonempty current_line
  then lines ++ [join " " current_line]
  else lines.

Definition _wrap_text (text : string) (max_width : Z) : string :=
  join newline (wrapped_lines text max_width).

(** The same loop keeping the words of each line apart, to state what
    the lines are made of. *)
Fixpoint group_loop (max_width : Z) (words : list string)
    (groups : list (list string)) (current_line : list string)
  : list (list string) * list string :=
  match words with
  | [] => (groups, current_line)
  | word :: words' =>
      if (textwidth (join " " (current_line ++ [word])) <=? max_width)%Z then
        group_loop max_width words' groups (current_line ++ [word])
      else
        group_loop max_width words'
          (if nonempty current_line then groups ++ [current_line] else groups)
          [word]
  end.

Definition word_groups (text : string) (max_width : Z) : list (list string) :=
  let '(groups, current_line) :=
    group_loop max_width (split_whitespace text) [] [] in
  if nonempty current_line then groups ++ [current_line] else groups.

End WithFont.

(** The top-left corner at which [add_text_overlay] draws the wrapped
    block; [//] is the floor division of Python. *)
Definition text_origin (img_width img_height text_width text_height
    padding : Z) (position : string) : Z * Z :=
  let x := ((img_width - text_width) / 2)%Z in
  let y :=
    if String.eqb position "top" then padding
    else if String.eqb position "center"
         then ((img_height - text_height) / 2)%Z
         else (img_height - text_height - padding)%Z in
  (x, y).

End ImageProcessor.

(** ** main.py

  [main] after the parsing of the command line: the pipeline is built
  and run, and an exception is turned into a printed line and the exit
  code 1.  The result is the exit code, what [click.echo] printed, and
  the state the run left. *)

Module Main.

Import Pipeline.

Inductive echoed : Type :=
| Completed
| ErrorLine (text : string).

Definition handle (e : exn) : Z * echoed :=
  match e with
  | FileNotFoundError m => (1%Z, ErrorLine ("Error: " +++ m))
  | ValueError m => (1%Z, ErrorLine ("Validation Error: " +++ m))
  | Exception m => (1%Z, ErrorLine ("Pipeline Error: " +++ m))
  end.

Definition main {W : World} (campaign_path : Path) (brief : string)
    (api_key : option string) (fs0 : FS) : Z * echoed :=
  match init campaign_path api_key fs0 with
  | inl e => handle e
  | inr (pipeline, s0) =>
      match run pipeline brief s0 with
      | (inr report, _) => (0%Z, Completed)
      | (inl e, _) => handle e
      end
  end.

End Main.

(** ** Notions used to state properties *)

Module Notions.

Import BrandCompliance Pipeline.

(** A hexadecimal digit, in upper or lower case. *)
Definition hex_char (upper : bool) (d : Z) : ascii :=
  if (d <? 10)%Z then ascii_of_nat (Z.to_nat (48 + d))
  else if upper then ascii_of_nat (Z.to_nat (55 + d))
  else ascii_of_nat (Z.to_nat (87 + d)).

(** A channel as two hexadecimal digits. *)
Definition hex2 (upper : bool) (v : Z) : string :=
  String (hex_char upper (v / 16)) (String (hex_char upper (v mod 16)) EmptyString).

(** The colour [#RRGGBB]. *)
Definition hex_colour (upper : bool) (rgb : Z * Z * Z) : string :=
  let '(r, g, b) := rgb in
  "#" +++ hex2 upper r +++ hex2 upper g +++ hex2 upper b.

Definition channel (v : Z) : Prop := (0 <= v < 256)%Z.

(** A pixel the colour test accepts: at least three bands, the first
    three within the tolerance of the brand colour. *)
Definition close_to (brand_rgb : Z * Z * Z) (p : pixel) : bool :=
  match p with
  | Bands (r :: g :: b :: _) =>
      let '(br, bg, bb) := brand_rgb in
      ((Z.abs (r - br) <? tolerance) &&
       (Z.abs (g - bg) <? tolerance) &&
       (Z.abs (b - bb) <? tolerance))%Z
  | _ => false
  end.

Definition is_tuple (p : pixel) : bool :=
  match p with Bands _ => true | Band _ => false end.

(** The characters of a string. *)
Fixpoint mentions (c : ascii) (s : string) : bool :=
  match s with
  | EmptyString => false
  | String d s' => Ascii.eqb d c || mentions c s'
  end.

(** A plain file or directory name: not empty, not ["."], no slash. *)
Definition plain (s : string) : bool :=
  negb (String.eqb s "") && negb (String.eqb s ".")
  && negb (mentions "/"%char s).



(** A word as [split] yields them: not empty, no white space. *)
Fixpoint spaceless (s : string) : bool :=
  match s with
  | EmptyString => true
  | String c s' => negb (is_space c) && spaceless s'
  end.

Definition is_word (s : string) : bool :=
  negb (String.eqb s "") && spaceless s.

(** Lines in which each next line starts with a word that did not fit
    at the end of the line before it. *)
Fixpoint greedy (textwidth : string -> Z) (max_width : Z)
    (groups : list (list string)) : Prop :=
  match groups with
  | g :: rest =>
      match rest with
      | (w :: _) :: _ => (max_width < textwidth (join " " (g ++ [w])))%Z
      | _ => True
      end /\ greedy textwidth max_width rest
  | [] => True
  end.

(** How many products of a run were generated rather than reused. *)
Definition generated_count (pos : list (Product * (string * option string)))
  : nat :=
  List.length (filter (fun po => String.eqb (fst (snd po)) "generated") pos).

End Notions.

(** ** The demonstration campaign in Spanish

  The same campaign addressed to Spain, with a brand font of its own;
  the translation service of the demonstration marks a text with the
  target language. *)

Module DemoEs.

Import Pipeline Demo.

Definition brief_es : CampaignBrief :=
  {| campaign_id := "verano";
     products := [soap; shampoo];
     target_market := mkTargetMarket "ES" "es-ES";
     target_audience := "young adults";
     campaign_message := "Feel fresh every day";
     brand_elements := Some (mkBrandElements None "#FF0000" "Helvetica") |}.

Definition world_es : World := world_with brief_es flaky_backend.

Definition state_es : @State world_es := snd (pipeline_of world_es disk).

Definition outcome_es : (exn + Report) * @State world_es :=
  @run world_es self "brief.yaml" state_es.

(** One product only: the brief is not valid. *)
Definition brief_single : CampaignBrief :=
  {| campaign_id := "solo";
     products := [soap];
     target_market := mkTargetMarket "US" "en-US";
     target_audience := "young adults";
     campaign_message := "Feel fresh every day";
     brand_elements := None |}.

Definition world_single : World := world_with brief_single flaky_backend.

(** One product whose name holds an apostrophe. *)
Definition brief_apostrophe : CampaignBrief :=
  {| campaign_id := "solo";
     products := [mkProduct "cream" "Kiehl's" "Face cream" None];
     target_market := mkTargetMarket "US" "en-US";
     target_audience := "young adults";
     campaign_message := "Feel fresh every day";
     brand_elements := None |}.

Definition world_apostrophe : World := world_with brief_apostrophe flaky_backend.

(** A second product whose id is an absolute path outside the
    campaign. *)
Definition brief_outside : CampaignBrief :=
  {| campaign_id := "summer";
     products := [soap; mkProduct "/tmp/x" "Acme Crate" "Gift crate" None];
     target_market := mkTargetMarket "US" "en-US";
     target_audience := "young adults";
     campaign_message := "Feel fresh every day";
     brand_elements := None |}.

Definition world_outside : World := world_with brief_outside flaky_backend.

Definition outcome_outside : (exn + Report) * @State world_outside :=
  @run world_outside self "brief.yaml" (snd (pipeline_of world_outside disk)).

(** A text measure for the examples: ten pixels a character. *)
Definition ten_per_char (s : string) : Z := (10 * Z.of_nat (String.length s))%Z.

End DemoEs.

(** ** A file system with contents

  Directories are a list of paths; files are a list of entries, newest
  first, each a path with the image it holds, or nothing for a file
  that is not an image.  Reading a path gives the image of its newest
  entry. *)

Module DemoDisk.

Import Pipeline Demo.










End DemoDisk.

(** ** Tactics *)

(** Membership in a list of at most one element. *)
Ltac in_one H :=
match type of H with
| In _ (if ?c then _ else _) => destruct c; in_one H
| In _ (match ?c with Some _ => _ | None => _ end) => destruct c; in_one H
| In _ [] => destruct H
| In _ [_] => destruct H as [H | []]
end.

(** An equation and its negation among the hypotheses. *)
Ltac clash :=
match goal with
| H : ?a = ?b, N : ?a <> ?b |- _ => destruct (N H)
| H : ?a = ?b, N : ?b <> ?a |- _ => destruct (N (eq_sym H))
end.

(** * Properties *)

(** ** Brief validation *)

Section BriefValidation.

Import BriefParser.

Lemma validate_brief_warnings (brief : CampaignBrief) :
  snd (validate_brief brief) =
    (if (List.length (products brief) <? 2)%nat then [count_warning brief] else [])
    ++ (if nonempty (missing_hero brief) then [hero_warning brief] else [])
    ++ (match brand_elements brief with
        | None => ["No brand elements specified"]
        | Some _ => []
        end).
Proof.
  unfold validate_brief, count_warning, hero_warning, missing_hero; simpl.
  destruct (List.length (products brief) <? 2)%nat;
    destruct (nonempty _); destruct (brand_elements brief); reflexivity.
Qed.

Lemma validate_brief_is_valid (brief : CampaignBrief) :
  fst (validate_brief brief) = (2 <=? List.length (products brief))%nat.
Proof. reflexivity. Qed.

(** The three warnings differ by their first letter. *)
Lemma warnings_distinct (brief : CampaignBrief) :
  hero_warning brief <> count_warning brief /\
  hero_warning brief <> "No brand elements specified" /\
  count_warning brief <> "No brand elements specified".
Proof. repeat split; discriminate. Qed.

(** C6.  [validate_brief] answers [is_valid = true] exactly when the
    brief has at least two products.  With fewer it answers [false] and
    its first warning names the number of products found.  The products
    without a hero image give one warning that lists all their names,
    a missing [brand_elements] gives one warning, and neither changes
    [is_valid], which depends on the number of products alone. *)
Theorem validate_brief_valid_iff_two_products (brief : CampaignBrief) :
  let n := List.length (products brief) in
  let is_valid := fst (validate_brief brief) in
  let warnings := snd (validate_brief brief) in
  (is_valid = true <-> 2 <= n) /\
  (n < 2 -> is_valid = false /\ hd_error warnings = Some (count_warning brief)) /\
  (2 <= n -> ~ In (count_warning brief) warnings) /\
  (count_occ string_dec warnings (hero_warning brief)
     = if nonempty (missing_hero brief) then 1 else 0) /\
  (In "No brand elements specified" warnings <-> brand_elements brief = None) /\
  (forall brief' : CampaignBrief,
      List.length (products brief') = n ->
      fst (validate_brief brief') = is_valid).
Proof.
  cbv zeta. rewrite validate_brief_warnings, validate_brief_is_valid.
  destruct (warnings_distinct brief) as (Hne1 & Hne2 & Hne3).
  split; [| split; [| split; [| split; [| split]]]].
  - split; intros H; apply Nat.leb_le; exact H.
  - intros H. split; [apply Nat.leb_gt; lia |].
    destruct (Nat.ltb_spec (List.length (products brief)) 2); [reflexivity | lia].
  - intros H Hin.
    destruct (Nat.ltb_spec (List.length (products brief)) 2); [lia |].
    apply in_app_or in Hin. destruct Hin as [[] | Hin].
    apply in_app_or in Hin. destruct Hin as [Hin | Hin]; in_one Hin; clash.
  - rewrite !count_occ_app.
    assert (Hself : count_occ string_dec [hero_warning brief] (hero_warning brief) = 1).
    { cbn [count_occ]. destruct (string_dec _ _); [reflexivity | congruence]. }
    assert (Hc : count_occ string_dec [count_warning brief] (hero_warning brief) = 0).
    { cbn [count_occ]. destruct (string_dec _ _); [clash | reflexivity]. }
    assert (Hb : count_occ string_dec ["No brand elements specified"] (hero_warning brief) = 0).
    { cbn [count_occ]. destruct (string_dec _ _); [clash | reflexivity]. }
    destruct (List.length (products brief) <? 2)%nat;
      destruct (nonempty (missing_hero brief));
      destruct (brand_elements brief);
      rewrite ?Hself, ?Hc, ?Hb; reflexivity.
  - split.
    + intros Hin. apply in_app_or in Hin. destruct Hin as [Hin | Hin].
      * in_one Hin; clash.
      * apply in_app_or in Hin. destruct Hin as [Hin | Hin].
        -- in_one Hin; clash.
        -- destruct (brand_elements brief); [destruct Hin | reflexivity].
    + intros H. rewrite H. apply in_or_app. right. apply in_or_app. right.
      left. reflexivity.
  - intros brief' H. rewrite validate_brief_is_valid, H. reflexivity.
Qed.

End BriefValidation.

(** ** Asset resolution *)

Section AssetResolution.

Import AssetManager.

Variable FS : Type.
Variable path_exists : FS -> Path -> bool.
Variable self : AssetManager.t.

Lemma find_asset_candidates (fs : FS) (ref : string) :
  ref <> "" ->
  find_asset path_exists self fs (Some ref) =
    if path_exists fs (root_candidate self ref) then Some (root_candidate self ref)
    else if path_exists fs (assets_candidate self ref) then Some (assets_candidate self ref)
    else None.
Proof.
  intros Href. unfold find_asset.
  destruct (String.eqb_spec ref ""); [contradiction | reflexivity].
Qed.

(** C7.  [find_asset] answers [None] for an absent and for an empty
    reference.  For any other reference the answer depends only on the
    reference and on which of the two candidate paths exist, so two
    directory states that agree on them give the same answer; and when
    the path relative to the campaign root exists it is the answer,
    whether or not the file of that name under [assets/] exists too. *)
Theorem find_asset_root_relative_first :
  (forall fs, find_asset path_exists self fs None = None) /\
  (forall fs, find_asset path_exists self fs (Some "") = None) /\
  (forall fs fs' ref,
      path_exists fs (root_candidate self ref) = path_exists fs' (root_candidate self ref) ->
      path_exists fs (assets_candidate self ref) = path_exists fs' (assets_candidate self ref) ->
      find_asset path_exists self fs (Some ref)
        = find_asset path_exists self fs' (Some ref)) /\
  (forall fs ref,
      ref <> "" ->
      path_exists fs (root_candidate self ref) = true ->
      find_asset path_exists self fs (Some ref) = Some (root_candidate self ref)) /\
  (forall fs ref,
      ref <> "" ->
      path_exists fs (root_candidate self ref) = false ->
      find_asset path_exists self fs (Some ref)
        = if path_exists fs (assets_candidate self ref)
          then Some (assets_candidate self ref) else None).
Proof.
  split; [reflexivity | split; [reflexivity | split; [| split]]].
  - intros fs fs' ref Hr Ha.
    destruct (String.eqb_spec ref "") as [-> | Hne]; [reflexivity |].
    rewrite !find_asset_candidates by assumption. rewrite Hr, Ha. reflexivity.
  - intros fs ref Hne Hr. rewrite find_asset_candidates by assumption.
    rewrite Hr. reflexivity.
  - intros fs ref Hne Hr. rewrite find_asset_candidates by assumption.
    rewrite Hr. reflexivity.
Qed.

End AssetResolution.

(** ** Localization *)

Section Localization.

Import Localizer.

Variable translator : string -> string -> string -> string + string.

(** C9.  Translating into the source language returns the text
    unchanged, whatever the language; and when the translation service
    fails, for any pair of languages, the text itself is returned:
    [translate_text] always returns a string and never raises. *)
Theorem translate_text_noop_and_fallback :
  (forall text lang, translate_text translator text lang lang = text) /\
  (forall text target source e,
      translator source target text = inl e ->
      translate_text translator text target source = text).
Proof.
  split.
  - intros text lang. unfold translate_text.
    rewrite String.eqb_refl. reflexivity.
  - intros text target source e He. unfold translate_text.
    rewrite He. destruct (String.eqb target source); reflexivity.
Qed.

End Localization.

(** ** Prompt construction *)

Section PromptConstruction.

Import ImageGenerator.

Lemma string_neq_of_eqb (a b : string) : String.eqb a b = false -> a <> b.
Proof. intros H. apply String.eqb_neq. exact H. Qed.

(** C4, counterexample.  With a brand colour the accent sentence is not
    the end of the prompt: the closing boilerplate sentence follows it,
    so the prompt differs from the one with the accent last. *)
Lemma build_prompt_accent_is_not_last :
  build_prompt "Acme Soap" "Gentle bar soap" "young adults" (Some "#FF0000")
    = "Professional product photography of Acme Soap. Product details: Gentle bar soap. Style: Clean, modern, appealing to young adults. High quality, well-lit, studio setting. Incorporate #FF0000 color accent. Commercial photography, 4K quality."
  /\ build_prompt "Acme Soap" "Gentle bar soap" "young adults" (Some "#FF0000")
    <> join " " (prompt_parts_accent_last "Acme Soap" "Gentle bar soap"
                   "young adults" (Some "#FF0000")).
Proof.
  split; [vm_compute; reflexivity |].
  apply string_neq_of_eqb. vm_compute. reflexivity.
Qed.

(** C4, amended.  [build_prompt] joins with single spaces, in this
    order: the product framing, the description, the audience style
    line, the sentence "High quality, well-lit, studio setting.", then
    the colour accent sentence exactly when a non-empty brand colour is
    given, and last the sentence "Commercial photography, 4K quality.". *)
Theorem build_prompt_fixed_order
    (product_name product_description target_audience : string)
    (brand_color : option string) :
  let framing := "Professional product photography of " +++ product_name +++ "." in
  let details := "Product details: " +++ product_description +++ "." in
  let style := "Style: Clean, modern, appealing to " +++ target_audience +++ "." in
  let parts :=
    prompt_parts product_name product_description target_audience brand_color in
  build_prompt product_name product_description target_audience brand_color
    = join " " parts /\
  (truthy brand_color = false ->
     parts = [framing; details; style;
              "High quality, well-lit, studio setting.";
              "Commercial photography, 4K quality."]) /\
  (forall c, brand_color = Some c -> c <> "" ->
     parts = [framing; details; style;
              "High quality, well-lit, studio setting.";
              "Incorporate " +++ c +++ " color accent.";
              "Commercial photography, 4K quality."]) /\
  (List.length parts = 6 <-> truthy brand_color = true).
Proof.
  cbv zeta. unfold build_prompt, prompt_parts.
  split; [reflexivity | split; [| split]].
  - intros H. destruct brand_color as [c |]; [| reflexivity].
    rewrite H. reflexivity.
  - intros c -> Hc. unfold truthy.
    destruct (String.eqb_spec c ""); [contradiction | reflexivity].
  - destruct brand_color as [c |]; [| split; discriminate].
    destruct (truthy (Some c)); split; intros H;
      try reflexivity; discriminate H.
Qed.

End PromptConstruction.

(** ** Brand compliance *)

Section ColorPresence.

Import BrandCompliance.

Variable Image : Type.
Variable sample_grid : Image -> string + list pixel.

Lemma hex_to_rgb_empty : forall rgb, _hex_to_rgb "" <> inr rgb.
Proof. intros rgb H. vm_compute in H. discriminate H. Qed.

(** Once the colour is parsed and the grid sampled, the verdict is that
    of the loop over the pixels. *)
Lemma check_color_presence_scan (lp : option Path) (color : string)
    (rgb : Z * Z * Z) (image : Image) (pixels : list pixel) :
  _hex_to_rgb color = inr rgb ->
  sample_grid image = inr pixels ->
  check_color_presence sample_grid (mkChecker (Some color) lp) image =
    match scan_pixels rgb pixels with
    | inl e => check_failed e
    | inr true =>
        mkComplianceResult "color_presence" true 100
          ("Brand color " +++ color +++ " detected") []
    | inr false =>
        mkComplianceResult "color_presence" false 50
          ("Brand color " +++ color +++ " not prominently featured")
          [("brand_color", color)]
    end.
Proof.
  intros Hrgb Hgrid. unfold check_color_presence. cbn [brand_color truthy].
  destruct (String.eqb_spec color "") as [-> | Hne].
  - destruct (hex_to_rgb_empty _ Hrgb).
  - cbn [negb]. rewrite Hrgb, Hgrid. reflexivity.
Qed.

Lemma scan_pixels_match (rgb : Z * Z * Z) (pixels : list pixel) :
  pixels <> [] -> filled_with rgb pixels -> scan_pixels rgb pixels = inr true.
Proof.
  destruct rgb as [[r g] b]. intros Hne Hall.
  destruct pixels as [| p rest]; [contradiction |].
  apply Forall_inv in Hall. destruct Hall as [more ->].
  cbn [scan_pixels]. unfold tolerance.
  replace (Z.abs (r - r) <? 30)%Z with true by (symmetry; apply Z.ltb_lt; lia).
  replace (Z.abs (g - g) <? 30)%Z with true by (symmetry; apply Z.ltb_lt; lia).
  replace (Z.abs (b - b) <? 30)%Z with true by (symmetry; apply Z.ltb_lt; lia).
  reflexivity.
Qed.

Lemma scan_pixels_complement (rgb : Z * Z * Z) (pixels : list pixel) :
  filled_with (complement rgb) pixels ->
  scan_pixels rgb pixels =
    inr (nonempty pixels &&
         negb (let '(r, g, b) := rgb in
               far_from_negation r || far_from_negation g || far_from_negation b)).
Proof.
  destruct rgb as [[r g] b]. unfold complement, filled_with, far_from_negation,
    tolerance.
  intros Hall. induction Hall as [| p rest [more ->] Hrest IH]; [reflexivity |].
  cbn [scan_pixels nonempty andb]. rewrite IH. unfold tolerance.
  destruct (Z.leb_spec 30 (Z.abs (255 - r - r)));
    destruct (Z.leb_spec 30 (Z.abs (255 - g - g)));
    destruct (Z.leb_spec 30 (Z.abs (255 - b - b)));
    destruct (Z.ltb_spec (Z.abs (255 - r - r)) 30); try lia;
    destruct (Z.ltb_spec (Z.abs (255 - g - g)) 30); try lia;
    destruct (Z.ltb_spec (Z.abs (255 - b - b)) 30); try lia;
    cbn [andb orb negb]; try reflexivity;
    destruct (nonempty rest); reflexivity.
Qed.

(** C5, counterexample.  For the brand colour #808080 the complement is
    (127, 127, 127), one unit away on every channel: an image filled
    with it passes with score 100 instead of failing with 50. *)
Lemma complement_of_mid_grey_passes :
  _hex_to_rgb "#808080" = inr (128, 128, 128)%Z /\
  complement (128, 128, 128)%Z = Demo.grey /\
  filled_with Demo.grey (Demo.grid_of Demo.grey) /\
  let result :=
    check_color_presence (fun c => inr (Demo.grid_of c))
      (mkChecker (Some "#808080") None) Demo.grey in
  passed result = true /\ score result = 100%Z.
Proof.
  split; [vm_compute; reflexivity |].
  split; [reflexivity |].
  split.
  - unfold Demo.grid_of, Demo.grey, filled_with. apply Forall_forall.
    intros p Hp. apply repeat_spec in Hp. exists []. exact Hp.
  - vm_compute. split; reflexivity.
Qed.

(** C5, amended.  Without a brand colour ([None] or the empty string)
    the check passes with score 100.  With a brand colour that parses
    to [rgb]: a sampled grid filled with [rgb] passes with score 100; a
    grid filled with the complement of [rgb], under the tolerance of
    30, fails with score 50 provided some channel [c] of the brand
    colour has [|255 - 2c| >= 30], and passes with score 100 when no
    channel has.  An error inside the check (the colour does not parse,
    the sampling fails, or a pixel is a bare number) gives a failed
    result with score 0 whose message carries the error. *)
Theorem check_color_presence_verdicts (lp : option Path) (image : Image) :
  tolerance = 30%Z /\
  (forall color, color = None \/ color = Some "" ->
     let result := check_color_presence sample_grid (mkChecker color lp) image in
     passed result = true /\ score result = 100%Z) /\
  (forall color rgb pixels,
     _hex_to_rgb color = inr rgb ->
     sample_grid image = inr pixels ->
     let result :=
       check_color_presence sample_grid (mkChecker (Some color) lp) image in
     (pixels <> [] -> filled_with rgb pixels ->
        passed result = true /\ score result = 100%Z) /\
     (filled_with (complement rgb) pixels ->
        let '(r, g, b) := rgb in
        (far_from_negation r || far_from_negation g || far_from_negation b = true ->
           passed result = false /\ score result = 50%Z) /\
        (far_from_negation r || far_from_negation g || far_from_negation b = false ->
           pixels <> [] ->
           passed result = true /\ score result = 100%Z))) /\
  (forall color e,
     color <> "" ->
     (_hex_to_rgb color = inl e
      \/ (exists rgb, _hex_to_rgb color = inr rgb /\ sample_grid image = inl e)
      \/ (exists rgb pixels, _hex_to_rgb color = inr rgb
                             /\ sample_grid image = inr pixels
                             /\ scan_pixels rgb pixels = inl e)) ->
     check_color_presence sample_grid (mkChecker (Some color) lp) image
       = mkComplianceResult "color_presence" false 0
           ("Color check failed: " +++ e) []).
Proof.
  split; [reflexivity |].
  split; [| split].
  - intros color [-> | ->]; split; reflexivity.
  - intros color rgb pixels Hrgb Hgrid. cbv zeta.
    rewrite (check_color_presence_scan lp color rgb image pixels Hrgb Hgrid).
    split.
    + intros Hne Hfill. rewrite (scan_pixels_match rgb pixels Hne Hfill).
      split; reflexivity.
    + intros Hfill. rewrite (scan_pixels_complement rgb pixels Hfill).
      destruct rgb as [[r g] b]. split.
      * intros Hfar. rewrite Hfar. rewrite Bool.andb_false_r.
        split; reflexivity.
      * intros Hnear Hne. rewrite Hnear.
        destruct pixels; [contradiction |]. split; reflexivity.
  - intros color e Hne H. unfold check_color_presence.
    cbn [brand_color truthy].
    destruct (String.eqb_spec color ""); [contradiction |]. cbn [negb].
    destruct H as [H | [(rgb & H1 & H2) | (rgb & pixels & H1 & H2 & H3)]].
    + rewrite H. reflexivity.
    + rewrite H1, H2. reflexivity.
    + rewrite H1, H2, H3. reflexivity.
Qed.

End ColorPresence.

(** ** Generation with retries *)

Section Retry.

Import ImageGenerator.

Variable Image : Type.
Variable backend : nat -> string -> string + Image.
Variables product_name product_description target_audience : string.
Variable brand_color : option string.

Local Abbreviation prompt :=
  (build_prompt product_name product_description target_audience brand_color).
Local Abbreviation attempt :=
  (generate backend product_name product_description target_audience brand_color).
Local Abbreviation loop :=
  (retry_loop backend product_name product_description target_audience
     brand_color).

(** The exception [generate] raises for a backend error. *)
Local Abbreviation wrapped e :=
  (Exception ("Failed to generate image for " +++ product_name +++ ": " +++ e)).

Lemma generate_ok (calls : nat) (image : Image) :
  backend calls prompt = inr image ->
  attempt calls = (inr (image, prompt), S calls).
Proof. intros H. unfold generate. rewrite H. reflexivity. Qed.

Lemma generate_raises (calls : nat) (e : string) :
  backend calls prompt = inl e ->
  attempt calls = (inl (wrapped e), S calls).
Proof. intros H. unfold generate. rewrite H. reflexivity. Qed.

(** Each iteration sends one request: the loop never sends more than
    its number of iterations. *)
Lemma retry_loop_requests (k : nat) :
  forall last calls,
    calls <= snd (loop k last calls) <= calls + k.
Proof.
  induction k as [| k IH]; intros last calls; cbn [retry_loop].
  - cbn [snd]. lia.
  - destruct (backend calls prompt) as [e | image] eqn:E.
    + rewrite (generate_raises _ _ E).
      specialize (IH (Some (wrapped e)) (S calls)). lia.
    + rewrite (generate_ok _ _ E). cbn [snd]. lia.
Qed.

(** When every request fails the loop runs to its end and keeps the
    last error. *)
Lemma retry_loop_all_fail (k : nat) :
  forall last calls,
    (forall i, i < k -> exists e, backend (calls + i) prompt = inl e) ->
    exists last',
      loop k last calls = (inl last', calls + k) /\
      (k = 0 -> last' = last) /\
      (forall e, 0 < k -> backend (calls + k - 1) prompt = inl e ->
                 last' = Some (wrapped e)).
Proof.
  induction k as [| k IH]; intros last calls Hfail; cbn [retry_loop].
  - exists last. rewrite Nat.add_0_r.
    split; [reflexivity | split; [reflexivity | intros e H; lia]].
  - destruct (Hfail 0 ltac:(lia)) as (e0 & He0).
    rewrite Nat.add_0_r in He0. rewrite (generate_raises _ _ He0).
    destruct (IH (Some (wrapped e0)) (S calls)) as (last' & Hrun & Hzero & Hlast).
    { intros i Hi. destruct (Hfail (S i) ltac:(lia)) as (e & He).
      exists e. rewrite <- He. f_equal. lia. }
    exists last'. split; [rewrite Hrun; f_equal; lia |].
    split; [discriminate |].
    intros e _ He. destruct k as [| k'].
    + rewrite (Hzero eq_refl).
      replace (calls + 1 - 1) with calls in He by lia.
      rewrite He0 in He. inversion He. reflexivity.
    + apply Hlast; [lia |]. rewrite <- He. f_equal. lia.
Qed.

(** The loop stops at the first request that succeeds, whatever the
    errors before it were. *)
Lemma retry_loop_first_success (k : nat) :
  forall last calls j image,
    j < k ->
    (forall i, i < j -> exists e, backend (calls + i) prompt = inl e) ->
    backend (calls + j) prompt = inr image ->
    loop k last calls = (inr (image, prompt), calls + j + 1).
Proof.
  induction k as [| k IH]; intros last calls j image Hj Hfail Hok; [lia |].
  cbn [retry_loop]. destruct j as [| j].
  - rewrite Nat.add_0_r in Hok. rewrite (generate_ok _ _ Hok).
    f_equal. lia.
  - destruct (Hfail 0 ltac:(lia)) as (e0 & He0).
    rewrite Nat.add_0_r in He0. rewrite (generate_raises _ _ He0).
    rewrite (IH (Some (wrapped e0)) (S calls) j image); [f_equal; lia | lia | |].
    + intros i Hi. destruct (Hfail (S i) ltac:(lia)) as (e & He).
      exists e. rewrite <- He. f_equal. lia.
    + rewrite <- Hok. f_equal. lia.
Qed.

(** A successful loop returns the prompt [build_prompt] built. *)
Lemma retry_loop_prompt (k : nat) :
  forall last calls image p n,
    loop k last calls = (inr (image, p), n) -> p = prompt.
Proof.
  induction k as [| k IH]; intros last calls image p n H; cbn [retry_loop] in H.
  - discriminate H.
  - destruct (backend calls prompt) as [e | img] eqn:E.
    + rewrite (generate_raises _ _ E) in H. exact (IH _ _ _ _ _ H).
    + rewrite (generate_ok _ _ E) in H. inversion H. reflexivity.
Qed.

Lemma generate_with_retry_prompt (max_retries : Z) (calls n : nat)
    (image : Image) (p : string) :
  generate_with_retry backend product_name product_description
    target_audience brand_color max_retries calls = (inr (image, p), n) ->
  p = prompt.
Proof.
  unfold generate_with_retry. intros H.
  destruct (loop (Z.to_nat max_retries) None calls) as [[last | [img q]] m] eqn:E.
  - discriminate H.
  - inversion H; subst. exact (retry_loop_prompt _ _ _ _ _ _ E).
Qed.

End Retry.

(** ** The orchestrator *)

Section Orchestrator.

Import Pipeline.

Context {W : World}.

Local Notation "x <- c ;; k" := (bind c (fun x => k))
  (at level 61, c at next level, right associativity).

(** *** The loop combinator *)

Lemma for_each_nil {A} (body : A -> M unit) (s : State) :
  for_each [] body s = (inr tt, s).
Proof. reflexivity. Qed.

Lemma for_each_cons_ok {A} (body : A -> M unit) (x : A) (l : list A)
    (s s1 : State) :
  body x s = (inr tt, s1) ->
  for_each (x :: l) body s = for_each l body s1.
Proof. intros H. cbn [for_each]. unfold bind. rewrite H. reflexivity. Qed.

Lemma for_each_cons_raise {A} (body : A -> M unit) (x : A) (l : list A)
    (s s1 : State) (e : exn) :
  body x s = (inl e, s1) ->
  for_each (x :: l) body s = (inl e, s1).
Proof. intros H. cbn [for_each]. unfold bind. rewrite H. reflexivity. Qed.

Lemma for_each_app_ok {A} (body : A -> M unit) (l1 l2 : list A)
    (s s1 : State) :
  for_each l1 body s = (inr tt, s1) ->
  for_each (l1 ++ l2) body s = for_each l2 body s1.
Proof.
  revert s. induction l1 as [| x l1 IH]; intros s H.
  - cbn in H. inversion H. reflexivity.
  - rewrite <- app_comm_cons.
    destruct (body x s) as [[e | []] s2] eqn:E.
    + rewrite (for_each_cons_raise _ _ _ _ _ _ E) in H. discriminate H.
    + rewrite (for_each_cons_ok _ _ _ _ _ E) in H.
      rewrite (for_each_cons_ok _ _ _ _ _ E). apply IH. exact H.
Qed.

(** *** One aspect ratio *)

Lemma parent_of_output_file (self : t) (pid r : string) :
  parent (output_file self pid r)
  = AssetManager.output_dir (asset_manager self) // pid // r.
Proof.
  unfold output_file.
  destruct (AssetManager.output_dir (asset_manager self) // pid // r) as [a ps].
  unfold parent, joinpath.
  change (of_string AssetManager.default_filename)
    with {| anchor := ""; parts := [AssetManager.default_filename] |}.
  change (absolute {| anchor := ""; parts := [AssetManager.default_filename] |})
    with false.
  cbv iota. cbn [anchor parts].
  rewrite removelast_last. reflexivity.
Qed.

(** An iteration either raises while the logo is pasted, before
    anything is recorded, or records the asset and saves the file; the
    line printed last may still raise, after both. *)
Lemma process_ratio_effect (self : t) (brief : CampaignBrief)
    (product : Product) (hero_image : Image) (source : string)
    (prompt_used : option string) (ratio : AspectRatio) (s s' : State)
    (r : exn + unit) :
  process_ratio self brief product hero_image source prompt_used ratio s
    = (r, s') ->
  (exists e lp image,
      r = inl e /\ s' = s /\ has_logo brief = true /\
      AssetManager.find_asset path_exists (asset_manager self) (fs s)
        (logo_of brief) = Some lp /\
      path_exists (fs s) lp = true /\
      paste_logo (fs s) image lp "top-right" = inl e) \/
  (ratio_step self product source prompt_used ratio s s' /\
   r = match relative_to (output_file self (id product) (ar_name ratio))
               (campaign_path self) with
       | Some _ => inr tt
       | None =>
           inl (ValueError
                  (subpath_error
                     (to_string (output_file self (id product) (ar_name ratio)))
                     (to_string (campaign_path self))))
       end).
Proof.
  intros H.
  assert (Htail : forall image,
             (if String.eqb (ar_name ratio) "square"
              then exists checks,
                     compliance_results s' =
                       compliance_results s
                         ++ [mkComplianceEntry (id product) (name product) checks]
              else compliance_results s' = compliance_results s) ->
             generated_assets s' =
               generated_assets s
                 ++ [asset_record self product source prompt_used ratio] ->
             saved s' =
               saved s ++ [(output_file self (id product) (ar_name ratio), image)] ->
             fs s' =
               image_save
                 (mkdir (fs s)
                    (AssetManager.output_dir (asset_manager self)
                       // id product // ar_name ratio))
                 (output_file self (id product) (ar_name ratio)) image ->
             requests s' = requests s ->
             ratio_step self product source prompt_used ratio s s').
  { intros image Hc Ha Hs Hf Hr. unfold ratio_step, is_square.
    split; [exact Ha | split; [exact Hc | split; [| exact Hr]]].
    exists image. split; [exact Hs |].
    unfold write_file. cbn [fst snd]. rewrite parent_of_output_file. exact Hf. }
  unfold process_ratio, shown_path, find_asset, save_output, append_asset,
    append_compliance, modify, AssetManager.save_output, add_logo, lift,
    get, ret, raise, bind in H.
  cbv beta iota zeta in H.
  fold (output_file self (id product) (ar_name ratio)) in H.
  destruct (has_logo brief) eqn:Hlogo; cbv beta iota zeta in H.
  - destruct (AssetManager.find_asset path_exists (asset_manager self) (fs s)
                (logo_of brief)) as [lp |] eqn:Hfind; cbv beta iota zeta in H.
    + destruct (path_exists (fs s) lp) eqn:Hex; cbn [negb] in H;
        cbv beta iota zeta in H.
      * destruct (paste_logo (fs s) _ lp "top-right") as [e | image] eqn:Hpaste;
          cbv beta iota zeta in H.
        -- left. inversion H; subst. exists e, lp. eexists.
           repeat split;
             first [reflexivity | exact Hfind | exact Hex | exact Hpaste].
        -- right.
           destruct (String.eqb (ar_name ratio) "square") eqn:Hsq;
             cbv beta iota zeta in H;
             cbn [generated_assets compliance_results saved requests fs] in H;
             destruct (relative_to (output_file self (id product) (ar_name ratio))
                         (campaign_path self));
             inversion H; subst;
             (split; [| reflexivity]);
             apply (Htail image); rewrite ?Hsq;
             cbn [generated_assets compliance_results saved requests fs];
             try reflexivity; eexists; reflexivity.
      * right.
        destruct (String.eqb (ar_name ratio) "square") eqn:Hsq;
          cbv beta iota zeta in H;
          cbn [generated_assets compliance_results saved requests fs] in H;
          destruct (relative_to (output_file self (id product) (ar_name ratio))
                      (campaign_path self));
          inversion H; subst;
          (split; [| reflexivity]);
          eapply Htail; rewrite ?Hsq;
          cbn [generated_assets compliance_results saved requests fs];
          try reflexivity; eexists; reflexivity.
    + right.
      destruct (String.eqb (ar_name ratio) "square") eqn:Hsq;
        cbv beta iota zeta in H;
        cbn [generated_assets compliance_results saved requests fs] in H;
        destruct (relative_to (output_file self (id product) (ar_name ratio))
                    (campaign_path self));
        inversion H; subst;
        (split; [| reflexivity]);
        eapply Htail; rewrite ?Hsq;
        cbn [generated_assets compliance_results saved requests fs];
        try reflexivity; eexists; reflexivity.
  - right.
    destruct (String.eqb (ar_name ratio) "square") eqn:Hsq;
      cbv beta iota zeta in H;
      cbn [generated_assets compliance_results saved requests fs] in H;
      destruct (relative_to (output_file self (id product) (ar_name ratio))
                  (campaign_path self));
      inversion H; subst;
      (split; [| reflexivity]);
      eapply Htail; rewrite ?Hsq;
      cbn [generated_assets compliance_results saved requests fs];
      try reflexivity; eexists; reflexivity.
Qed.

(** *** Growth of the result lists *)

Lemma grows_refl (s : State) : grows [] [] [] s s.
Proof.
  unfold grows. rewrite app_nil_r. split; [reflexivity |].
  split; exists []; rewrite app_nil_r; split; reflexivity.
Qed.

Lemma grows_trans a1 k1 p1 a2 k2 p2 (s s1 s2 : State) :
  grows a1 k1 p1 s s1 -> grows a2 k2 p2 s1 s2 ->
  grows (a1 ++ a2) (k1 ++ k2) (p1 ++ p2) s s2.
Proof.
  intros (Ha1 & (e1 & He1 & Hk1) & (f1 & Hf1 & Hp1))
         (Ha2 & (e2 & He2 & Hk2) & (f2 & Hf2 & Hp2)).
  unfold grows. split; [| split].
  - rewrite Ha2, Ha1, app_assoc. reflexivity.
  - exists (e1 ++ e2). rewrite He2, He1, app_assoc, map_app, Hk1, Hk2.
    split; reflexivity.
  - exists (f1 ++ f2). rewrite Hf2, Hf1, app_assoc, map_app, Hp1, Hp2.
    split; reflexivity.
Qed.

Lemma grows_set_requests a k p (s s' : State) (n : nat) :
  grows a k p (set_requests s n) s' -> grows a k p s s'.
Proof. intros H. exact H. Qed.

Lemma ratio_step_grows (self : t) (product : Product) (source : string)
    (prompt_used : option string) (ratio : AspectRatio) (s s' : State) :
  ratio_step self product source prompt_used ratio s s' ->
  grows (block_assets self [ratio] (product, (source, prompt_used)))
        (block_keys [ratio] (product, (source, prompt_used)))
        (block_paths self [ratio] (product, (source, prompt_used))) s s'
  /\ requests s' = requests s.
Proof.
  intros (Ha & Hc & (img & Hs & _) & Hr). split; [| exact Hr].
  unfold grows, block_assets, block_keys, block_paths.
  cbn [map filter fst snd]. split; [exact Ha | split].
  - destruct (is_square ratio).
    + destruct Hc as (checks & Hc). eexists. split; [exact Hc | reflexivity].
    + exists []. rewrite app_nil_r. split; [exact Hc | reflexivity].
  - eexists. split; [exact Hs | reflexivity].
Qed.

Lemma block_assets_cons self r rs po :
  block_assets self (r :: rs) po = block_assets self [r] po ++ block_assets self rs po.
Proof. reflexivity. Qed.

Lemma block_paths_cons self r rs po :
  block_paths self (r :: rs) po = block_paths self [r] po ++ block_paths self rs po.
Proof. reflexivity. Qed.

Lemma block_keys_cons r rs po :
  block_keys (r :: rs) po = block_keys [r] po ++ block_keys rs po.
Proof.
  unfold block_keys. cbn [filter]. destruct (is_square r); reflexivity.
Qed.

(** *** The loop over the ratios: when it does not raise it has added
    one record and one file per ratio, and one compliance entry per
    square ratio. *)
Lemma ratio_loop_effect (self : t) (brief : CampaignBrief)
    (product : Product) (hero_image : Image) (source : string)
    (prompt_used : option string) (ratios : list AspectRatio) (s s' : State) :
  for_each ratios
    (process_ratio self brief product hero_image source prompt_used) s
    = (inr tt, s') ->
  grows (block_assets self ratios (product, (source, prompt_used)))
        (block_keys ratios (product, (source, prompt_used)))
        (block_paths self ratios (product, (source, prompt_used))) s s' /\
  requests s' = requests s.
Proof.
  revert s. induction ratios as [| r rs IH]; intros s Hloop.
  - cbn in Hloop. inversion Hloop; subst.
    split; [apply grows_refl | reflexivity].
  - destruct (process_ratio self brief product hero_image source prompt_used r s)
      as [[e | []] s1] eqn:Hrun.
    + rewrite (for_each_cons_raise _ _ _ _ _ _ Hrun) in Hloop. discriminate Hloop.
    + rewrite (for_each_cons_ok _ _ _ _ _ Hrun) in Hloop.
      destruct (process_ratio_effect _ _ _ _ _ _ _ _ _ _ Hrun)
        as [(e & _ & _ & He & _) | (Hstep & _)]; [discriminate He |].
      apply ratio_step_grows in Hstep. destruct Hstep as (Hg1 & Hr1).
      destruct (IH s1 Hloop) as (Hg2 & Hr2). split.
      * rewrite block_assets_cons, block_keys_cons, block_paths_cons.
        exact (grows_trans _ _ _ _ _ _ _ _ _ Hg1 Hg2).
      * rewrite Hr2. exact Hr1.
Qed.

(** *** The file system follows the log of the saves *)

Lemma files_written_refl (s : State) : files_written s s.
Proof. exists []. rewrite app_nil_r. split; reflexivity. Qed.

Lemma files_written_trans (s s1 s2 : State) :
  files_written s s1 -> files_written s1 s2 -> files_written s s2.
Proof.
  intros (f1 & Hs1 & Hf1) (f2 & Hs2 & Hf2). exists (f1 ++ f2).
  rewrite Hs2, Hs1, app_assoc. split; [reflexivity |].
  rewrite Hf2, Hf1. unfold write_all. rewrite fold_left_app. reflexivity.
Qed.

Lemma ratio_step_files (self : t) (product : Product) (source : string)
    (prompt_used : option string) (ratio : AspectRatio) (s s' : State) :
  ratio_step self product source prompt_used ratio s s' -> files_written s s'.
Proof.
  intros (_ & _ & (image & Hs & Hf) & _).
  exists [(output_file self (id product) (ar_name ratio), image)].
  split; [exact Hs | exact Hf].
Qed.

Lemma process_ratio_files (self : t) (brief : CampaignBrief)
    (product : Product) (hero_image : Image) (source : string)
    (prompt_used : option string) (ratio : AspectRatio) (s s' : State)
    (r : exn + unit) :
  process_ratio self brief product hero_image source prompt_used ratio s
    = (r, s') ->
  files_written s s'.
Proof.
  intros H.
  destruct (process_ratio_effect _ _ _ _ _ _ _ _ _ _ H)
    as [(e & lp & image & _ & -> & _) | (Hstep & _)].
  - apply files_written_refl.
  - exact (ratio_step_files _ _ _ _ _ _ _ Hstep).
Qed.

Lemma for_each_files {A} (body : A -> M unit) (l : list A) :
  (forall x s r s', body x s = (r, s') -> files_written s s') ->
  forall s r s', for_each l body s = (r, s') -> files_written s s'.
Proof.
  intros Hbody. induction l as [| x l IH]; intros s r s' H.
  - cbn in H. inversion H; subst. apply files_written_refl.
  - destruct (body x s) as [[e | []] s1] eqn:E.
    + rewrite (for_each_cons_raise _ _ _ _ _ _ E) in H. inversion H; subst.
      exact (Hbody _ _ _ _ E).
    + rewrite (for_each_cons_ok _ _ _ _ _ E) in H.
      exact (files_written_trans _ _ _ (Hbody _ _ _ _ E) (IH _ _ _ H)).
Qed.

(** *** One product *)

Local Abbreviation ratios_of self := (aspect_ratios (config self)).

Lemma grows_block (self : t) (product : Product)
    (outcome : string * option string) (s s' : State) :
  grows (block_assets self (ratios_of self) (product, outcome))
        (block_keys (ratios_of self) (product, outcome))
        (block_paths self (ratios_of self) (product, outcome)) s s' ->
  generated_assets s' = generated_assets s ++ product_block self product outcome.
Proof. intros (H & _). exact H. Qed.

(** A product whose hero image is found and loads goes on to the loop
    over the ratios with that image. *)
Lemma process_product_loads (self : t) (brief : CampaignBrief)
    (product : Product) (s : State) (p : Path) (image : Image) :
  AssetManager.find_asset path_exists (asset_manager self) (fs s)
    (hero_image product) = Some p ->
  AssetManager.load_image path_exists image_open (fs s) p = inr image ->
  process_product self brief product s
  = for_each (ratios_of self)
      (process_ratio self brief product image "existing" None) s.
Proof.
  intros Hfind Hload.
  unfold process_product, find_asset, load_image, lift, get, ret, bind.
  cbv beta iota zeta. rewrite Hfind. cbv beta iota zeta. rewrite Hload.
  reflexivity.
Qed.

(** When its ratios are all processed, nothing was asked from the
    generation service and every record is a reuse. *)
Lemma process_product_existing (self : t) (brief : CampaignBrief)
    (product : Product) (s s' : State) (p : Path) (image : Image) :
  AssetManager.find_asset path_exists (asset_manager self) (fs s)
    (hero_image product) = Some p ->
  AssetManager.load_image path_exists image_open (fs s) p = inr image ->
  process_product self brief product s = (inr tt, s') ->
  grows (block_assets self (ratios_of self) (product, reused))
        (block_keys (ratios_of self) (product, reused))
        (block_paths self (ratios_of self) (product, reused)) s s' /\
  requests s' = requests s.
Proof.
  intros Hfind Hload Hrun.
  rewrite (process_product_loads _ _ _ _ _ _ Hfind Hload) in Hrun.
  exact (ratio_loop_effect _ _ _ _ _ _ _ _ _ Hrun).
Qed.

(** A hero image that is found but does not load aborts the product
    with the state untouched. *)
Lemma process_product_unreadable (self : t) (brief : CampaignBrief)
    (product : Product) (s : State) (p : Path) (e : exn) :
  AssetManager.find_asset path_exists (asset_manager self) (fs s)
    (hero_image product) = Some p ->
  AssetManager.load_image path_exists image_open (fs s) p = inl e ->
  process_product self brief product s = (inl e, s).
Proof.
  intros Hfind Hload.
  unfold process_product, find_asset, load_image, lift, get, ret, raise, bind.
  cbv beta iota zeta. rewrite Hfind. cbv beta iota zeta. rewrite Hload.
  reflexivity.
Qed.

Local Abbreviation retried brief product s :=
  (ImageGenerator.generate_with_retry backend (name product)
     (description product) (target_audience brief) (brand_color_of brief)
     ImageGenerator.default_max_retries (requests s)).

(** A product without a usable hero image whose generation succeeds
    goes on to the loop over the ratios with the generated image. *)
Lemma process_product_generates (self : t) (brief : CampaignBrief)
    (product : Product) (s : State) (image : Image) (p : string) (n : nat) :
  AssetManager.find_asset path_exists (asset_manager self) (fs s)
    (hero_image product) = None ->
  retried brief product s = (inr (image, p), n) ->
  process_product self brief product s
  = for_each (ratios_of self)
      (process_ratio self brief product image "generated" (Some p))
      (set_requests s n).
Proof.
  intros Hfind Hgen.
  unfold process_product, find_asset, generate_with_retry, get, ret, bind.
  cbv beta iota zeta. rewrite Hfind. cbv beta iota zeta. rewrite Hgen.
  reflexivity.
Qed.

Lemma process_product_generated (self : t) (brief : CampaignBrief)
    (product : Product) (s s' : State) (image : Image) (p : string) (n : nat) :
  AssetManager.find_asset path_exists (asset_manager self) (fs s)
    (hero_image product) = None ->
  retried brief product s = (inr (image, p), n) ->
  process_product self brief product s = (inr tt, s') ->
  grows (block_assets self (ratios_of self) (product, generated_for brief product))
        (block_keys (ratios_of self) (product, generated_for brief product))
        (block_paths self (ratios_of self) (product, generated_for brief product))
        s s' /\
  requests s' = n.
Proof.
  intros Hfind Hgen Hrun.
  rewrite (process_product_generates _ _ _ _ _ _ _ Hfind Hgen) in Hrun.
  pose proof (generate_with_retry_prompt _ _ _ _ _ _ _ _ _ _ _ Hgen)
    as Hp. subst p.
  exact (ratio_loop_effect _ _ _ _ _ _ _ _ _ Hrun).
Qed.

(** A product whose generation fails: the exception leaves with nothing
    recorded and nothing written; only the request count moved. *)
Lemma process_product_generation_fails (self : t) (brief : CampaignBrief)
    (product : Product) (s : State) (e : exn) (n : nat) :
  AssetManager.find_asset path_exists (asset_manager self) (fs s)
    (hero_image product) = None ->
  retried brief product s = (inl e, n) ->
  process_product self brief product s = (inl e, set_requests s n).
Proof.
  intros Hfind Hgen.
  unfold process_product, find_asset, generate_with_retry, get, ret, bind.
  cbv beta iota zeta. rewrite Hfind. cbv beta iota zeta. rewrite Hgen.
  reflexivity.
Qed.

(** Whatever becomes of a product, the file system follows the log. *)
Lemma process_product_files (self : t) (brief : CampaignBrief)
    (product : Product) (s s' : State) (r : exn + unit) :
  process_product self brief product s = (r, s') -> files_written s s'.
Proof.
  intros Hrun.
  destruct (AssetManager.find_asset path_exists (asset_manager self) (fs s)
              (hero_image product)) as [path |] eqn:Hfind.
  - destruct (AssetManager.load_image path_exists image_open (fs s) path)
      as [e | image] eqn:Hload.
    + rewrite (process_product_unreadable _ _ _ _ _ _ Hfind Hload) in Hrun.
      inversion Hrun; subst. apply files_written_refl.
    + rewrite (process_product_loads _ _ _ _ _ _ Hfind Hload) in Hrun.
      exact (for_each_files _ _
               (fun x s r s' => process_ratio_files _ _ _ _ _ _ x s s' r)
               _ _ _ Hrun).
  - destruct (retried brief product s) as [[e | [image q]] n] eqn:Hgen.
    + rewrite (process_product_generation_fails _ _ _ _ _ _ Hfind Hgen) in Hrun.
      inversion Hrun; subst. exact (files_written_refl s).
    + rewrite (process_product_generates _ _ _ _ _ _ _ Hfind Hgen) in Hrun.
      exact (for_each_files _ _
               (fun x s r s' => process_ratio_files _ _ _ _ _ _ x s s' r)
               (set_requests s n) _ _ Hrun).
Qed.

(** *** The loop over the products *)

Lemma product_loop_effect (self : t) (brief : CampaignBrief)
    (products : list Product) :
  forall s s',
    for_each products (process_product self brief) s = (inr tt, s') ->
    exists pos,
      map fst pos = products /\
      Forall (outcome_ok brief) pos /\
      grows (flat_map (block_assets self (ratios_of self)) pos)
            (flat_map (block_keys (ratios_of self)) pos)
            (flat_map (block_paths self (ratios_of self)) pos) s s'.
Proof.
  induction products as [| p ps IH]; intros s s' Hrun.
  - cbn in Hrun. inversion Hrun; subst. exists [].
    split; [reflexivity | split; [constructor | apply grows_refl]].
  - assert (Hhead : exists o s1,
               process_product self brief p s = (inr tt, s1) /\
               outcome_ok brief (p, o) /\
               grows (block_assets self (ratios_of self) (p, o))
                     (block_keys (ratios_of self) (p, o))
                     (block_paths self (ratios_of self) (p, o)) s s1).
    { destruct (AssetManager.find_asset path_exists (asset_manager self) (fs s)
                  (hero_image p)) as [path |] eqn:Hfind.
      - destruct (AssetManager.load_image path_exists image_open (fs s) path)
          as [e | image] eqn:Hload.
        + rewrite (for_each_cons_raise _ _ _ _ _ _
                     (process_product_unreadable _ brief _ _ _ _ Hfind Hload))
            in Hrun. discriminate Hrun.
        + destruct (process_product self brief p s) as [[e | []] s1] eqn:H1.
          * rewrite (for_each_cons_raise _ _ _ _ _ _ H1) in Hrun.
            discriminate Hrun.
          * destruct (process_product_existing _ brief _ _ _ _ _ Hfind Hload H1)
              as (Hg & _).
            exists reused, s1.
            split; [reflexivity | split; [left; reflexivity | exact Hg]].
      - destruct (retried brief p s) as [[e | [image q]] n] eqn:Hgen.
        + rewrite (for_each_cons_raise _ _ _ _ _ _
                     (process_product_generation_fails _ _ _ _ _ _ Hfind Hgen))
            in Hrun. discriminate Hrun.
        + destruct (process_product self brief p s) as [[e | []] s1] eqn:H1.
          * rewrite (for_each_cons_raise _ _ _ _ _ _ H1) in Hrun.
            discriminate Hrun.
          * destruct (process_product_generated _ _ _ _ _ _ _ _ Hfind Hgen H1)
              as (Hg & _).
            exists (generated_for brief p), s1.
            split; [reflexivity | split; [right; reflexivity | exact Hg]]. }
    destruct Hhead as (o & s1 & H1 & Hok & Hg1).
    rewrite (for_each_cons_ok _ _ _ _ _ H1) in Hrun.
    destruct (IH s1 s' Hrun) as (pos & Hfst & Hall & Hg2).
    exists ((p, o) :: pos). split; [cbn [map fst]; rewrite Hfst; reflexivity |].
    split; [constructor; assumption |].
    cbn [flat_map]. exact (grows_trans _ _ _ _ _ _ _ _ _ Hg1 Hg2).
Qed.

(** *** The run *)

Lemma localize_products (brief : CampaignBrief) :
  products (localize brief) = products brief.
Proof.
  unfold localize.
  destruct (negb _ && negb _); reflexivity.
Qed.

Lemma localize_target_audience (brief : CampaignBrief) :
  target_audience (localize brief) = target_audience brief.
Proof. unfold localize. destruct (negb _ && negb _); reflexivity. Qed.

Lemma localize_brand_color (brief : CampaignBrief) :
  brand_color_of (localize brief) = brand_color_of brief.
Proof.
  unfold localize, brand_color_of.
  destruct (negb _ && negb _); [| reflexivity].
  cbn [brand_elements]. destruct (brand_elements brief); reflexivity.
Qed.

Lemma generated_for_localize (brief : CampaignBrief) (p : Product) :
  generated_for (localize brief) p = generated_for brief p.
Proof.
  unfold generated_for.
  rewrite localize_target_audience, localize_brand_color. reflexivity.
Qed.

(** The non-strict moderation call always returns. *)
Lemma moderation_returns (cm : ContentModerator.t) (message : string) :
  ContentModerator.moderate_campaign_message cm message false
    = inr (ContentModerator.is_safe (ContentModerator.moderate_text cm message)).
Proof.
  unfold ContentModerator.moderate_campaign_message.
  destruct (ContentModerator.is_safe _); reflexivity.
Qed.

(** The report is written below the campaign path, so the line printed
    after it never raises. *)
Lemma strip_prefix_app (base rest : list string) :
  strip_prefix base (base ++ rest) = Some rest.
Proof.
  induction base as [| b base IH]; [reflexivity |].
  rewrite <- app_comm_cons. cbn [strip_prefix].
  rewrite String.eqb_refl. exact IH.
Qed.

Lemma shown_report_path (self : t) (s : State) :
  shown_path self
    (campaign_path self // "output" // "generation_report.yaml") s
  = (inr {| anchor := "";
            parts := ["output"; "generation_report.yaml"] |}, s).
Proof.
  unfold shown_path, relative_to, joinpath.
  change (of_string "output")
    with {| anchor := ""; parts := ["output"] |}.
  change (of_string "generation_report.yaml")
    with {| anchor := ""; parts := ["generation_report.yaml"] |}.
  change (absolute {| anchor := ""; parts := ["output"] |}) with false.
  change (absolute {| anchor := ""; parts := ["generation_report.yaml"] |})
    with false.
  cbv iota. cbn [anchor parts].
  rewrite String.eqb_refl, <- app_assoc, strip_prefix_app.
  reflexivity.
Qed.

(** The run, step by step: the brief is parsed and validated, the
    moderation verdict is dropped, the products are processed, and the
    report is assembled from the two result lists and written. *)
Lemma run_steps (self : t) (brief_filename : string) (s : State) :
  run self brief_filename s =
    match parse (fs s) (campaign_path self // brief_filename) with
    | inl e => (inl e, s)
    | inr brief =>
        if negb (fst (BriefParser.validate_brief brief)) then
          (inl (ValueError ("Invalid brief: "
                              +++ str_of_list (snd (BriefParser.validate_brief brief)))),
           s)
        else
          match for_each (products brief)
                  (process_product self (localize brief)) s with
          | (inl e, s1) => (inl e, s1)
          | (inr _, s1) =>
              let report :=
                _generate_report cwd (generated_assets s1)
                  (compliance_results s1) (localize brief)
                  (campaign_message brief) in
              (inr report, report_written self report s1)
          end
    end.
Proof.
  unfold run, get, lift, bind. cbv beta iota zeta.
  destruct (parse (fs s) (campaign_path self // brief_filename)) as [e | brief];
    [reflexivity |].
  cbv beta iota zeta. unfold ret at 1. cbv beta iota zeta.
  destruct (BriefParser.validate_brief brief) as [v w]. cbn [fst snd].
  destruct v; cbn [negb]; [| reflexivity].
  rewrite moderation_returns. unfold ret at 1. cbv beta iota zeta.
  rewrite localize_products.
  destruct (for_each (products brief) (process_product self (localize brief)) s)
    as [[e | []] s1]; [reflexivity |].
  unfold get, write_report, modify. cbv beta iota zeta.
  rewrite shown_report_path. reflexivity.
Qed.

(** *** Reading the result lists of a completed run *)

Lemma grows_fresh a k p (s s' : State) :
  fresh s -> grows a k p s s' ->
  generated_assets s' = a /\
  map entry_key (compliance_results s') = k /\
  map fst (saved s') = p.
Proof.
  intros (Ha0 & Hc0 & Hs0) (Ha & (e & He & Hk) & (f & Hf & Hp)).
  rewrite Ha, Ha0, He, Hc0, Hf, Hs0. cbn [app].
  split; [reflexivity | split; assumption].
Qed.

Lemma run_completed (self : t) (brief_filename : string) (s s' : State)
    (report : Report) :
  run self brief_filename s = (inr report, s') ->
  exists brief s1,
    parse (fs s) (campaign_path self // brief_filename) = inr brief /\
    fst (BriefParser.validate_brief brief) = true /\
    for_each (products brief) (process_product self (localize brief)) s
      = (inr tt, s1) /\
    report = _generate_report cwd (generated_assets s1) (compliance_results s1)
               (localize brief) (campaign_message brief) /\
    s' = report_written self report s1.
Proof.
  rewrite run_steps. intros H.
  destruct (parse (fs s) (campaign_path self // brief_filename))
    as [e | brief] eqn:Hparse; [discriminate H |].
  destruct (fst (BriefParser.validate_brief brief)) eqn:Hv; [| discriminate H].
  cbn [negb] in H.
  destruct (for_each (products brief) (process_product self (localize brief)) s)
    as [[e | []] s1] eqn:Hloop; [discriminate H |].
  cbv zeta in H. inversion H; subst. exists brief, s1.
  split; [reflexivity | split; [exact Hv | split; [exact Hloop |]]].
  split; reflexivity.
Qed.

(** The file system a completed run leaves: the files logged by
    [save_output] written in their order, then the report. *)
Lemma run_files (self : t) (brief_filename : string) (s s' : State)
    (report : Report) :
  run self brief_filename s = (inr report, s') ->
  exists files,
    saved s' = saved s ++ files /\
    fs s' = yaml_dump (write_all (fs s) files)
              (campaign_path self // "output" // "generation_report.yaml") report.
Proof.
  intros Hrun.
  destruct (run_completed _ _ _ _ _ Hrun) as (brief & s1 & _ & _ & Hloop & _ & ->).
  destruct (for_each_files _ _
              (fun x s r s' => process_product_files self (localize brief) x s s' r)
              _ _ _ Hloop) as (files & Hs & Hf).
  exists files. cbn [report_written saved fs]. rewrite Hf.
  split; [exact Hs | reflexivity].
Qed.

Lemma flat_map_through {A B C} (h : A -> B) (f : A -> list C)
    (g : B -> list C) (l : list A) :
  (forall x, f x = g (h x)) -> flat_map f l = flat_map g (map h l).
Proof.
  intros H. induction l as [| x l IH]; [reflexivity |].
  cbn [flat_map map]. rewrite H, IH. reflexivity.
Qed.

Lemma block_assets_pairs (self : t) (ratios : list AspectRatio)
    (pos : list (Product * (string * option string))) :
  map (fun a => (product_id a, aspect_ratio a))
      (flat_map (block_assets self ratios) pos)
  = list_prod (map id (map fst pos)) (map ar_name ratios).
Proof.
  induction pos as [| po pos IH]; [reflexivity |].
  cbn [flat_map map list_prod]. rewrite map_app, IH. f_equal.
  unfold block_assets. rewrite !map_map. reflexivity.
Qed.

Lemma block_paths_pairs (self : t) (ratios : list AspectRatio)
    (pos : list (Product * (string * option string))) :
  flat_map (block_paths self ratios) pos
  = map (fun k => output_file self (fst k) (snd k))
        (list_prod (map id (map fst pos)) (map ar_name ratios)).
Proof.
  induction pos as [| po pos IH]; [reflexivity |].
  cbn [flat_map map list_prod]. rewrite map_app, IH. f_equal.
  unfold block_paths. rewrite !map_map. reflexivity.
Qed.

Lemma flat_map_nil {A B} (l : list A) :
  flat_map (fun _ : A => @nil B) l = [].
Proof. induction l; [reflexivity | assumption]. Qed.

Lemma flat_map_singleton {A B} (f : A -> B) (l : list A) :
  flat_map (fun x => [f x]) l = map f l.
Proof.
  induction l as [| x l IH]; [reflexivity |].
  cbn [flat_map map app]. rewrite IH. reflexivity.
Qed.

Lemma default_config_one_square :
  filter is_square (aspect_ratios _load_config) = [square].
Proof. reflexivity. Qed.

(** C2.  In a completed run of a fresh pipeline object the compliance
    list holds, in product order, one entry per product for each
    configured ratio named "square" and nothing else: exactly one per
    product when the configuration has one square ratio (as the default
    has), none at all when it has no square ratio.  Whatever the checks
    answer, the asset list holds exactly one record, and [save_output]
    saved exactly one file, for every pair of a product and a ratio, in
    product order and then ratio order; the file system the run leaves
    is the initial one after these files have been written, one after
    the other, followed by the report.  The check itself cannot stop an
    iteration of the ratio loop: an iteration raises either while the
    logo is pasted, before the check, with nothing recorded, or at the
    line printed after the save when the output path does not lie
    below the campaign path, and then the compliance entry, the record
    and the file are in place as they are when it returns. *)
Theorem compliance_once_per_product_on_square (self : t)
    (brief_filename : string) (s0 s' : State) (report : Report) :
  fresh s0 ->
  run self brief_filename s0 = (inr report, s') ->
  let ratios := aspect_ratios (config self) in
  exists brief,
    parse (fs s0) (campaign_path self // brief_filename) = inr brief /\
    map entry_key (compliance_results s')
      = flat_map (fun p => map (fun _ => product_key p) (filter is_square ratios))
          (products brief) /\
    (filter is_square ratios = [] -> compliance_results s' = []) /\
    (forall sq, filter is_square ratios = [sq] ->
       map entry_key (compliance_results s') = map product_key (products brief)) /\
    filter is_square (aspect_ratios _load_config) = [square] /\
    map (fun a => (product_id a, aspect_ratio a)) (generated_assets s')
      = list_prod (map id (products brief)) (map ar_name ratios) /\
    map fst (saved s')
      = map (fun k => output_file self (fst k) (snd k))
          (list_prod (map id (products brief)) (map ar_name ratios)) /\
    List.length (generated_assets s')
      = List.length (products brief) * List.length ratios /\
    List.length (saved s')
      = List.length (products brief) * List.length ratios /\
    fs s' = yaml_dump (write_all (fs s0) (saved s'))
              (campaign_path self // "output" // "generation_report.yaml")
              report /\
    (forall brief' product hero_image source prompt_used ratio s r s1,
       process_ratio self brief' product hero_image source prompt_used ratio s
         = (r, s1) ->
       (exists e lp image,
           r = inl e /\ s1 = s /\ has_logo brief' = true /\
           AssetManager.find_asset path_exists (asset_manager self) (fs s)
             (logo_of brief') = Some lp /\
           path_exists (fs s) lp = true /\
           paste_logo (fs s) image lp "top-right" = inl e) \/
       (ratio_step self product source prompt_used ratio s s1 /\
        r = match relative_to (output_file self (id product) (ar_name ratio))
                    (campaign_path self) with
            | Some _ => inr tt
            | None =>
                inl (ValueError
                       (subpath_error
                          (to_string (output_file self (id product) (ar_name ratio)))
                          (to_string (campaign_path self))))
            end)).
Proof.
  intros Hfresh Hrun ratios.
  destruct (run_files _ _ _ _ _ Hrun) as (files & Hfiles & Hfs).
  destruct (run_completed _ _ _ _ _ Hrun) as (brief & s1 & Hparse & _ & Hloop & _ & ->).
  destruct (product_loop_effect _ _ _ _ _ Hloop) as (pos & Hfst & _ & Hg).
  destruct (grows_fresh _ _ _ _ _ Hfresh Hg) as (Ha & Hk & Hp).
  cbn [report_written generated_assets compliance_results saved] in *.
  assert (Hkeys : map entry_key (compliance_results s1)
                  = flat_map (fun p => map (fun _ => product_key p)
                                         (filter is_square ratios))
                      (products brief)).
  { rewrite Hk, <- Hfst. apply flat_map_through. reflexivity. }
  assert (Hpairs : map (fun a => (product_id a, aspect_ratio a)) (generated_assets s1)
                   = list_prod (map id (products brief)) (map ar_name ratios)).
  { rewrite Ha, <- Hfst. apply block_assets_pairs. }
  assert (Hpaths : map fst (saved s1)
                   = map (fun k => output_file self (fst k) (snd k))
                       (list_prod (map id (products brief)) (map ar_name ratios))).
  { rewrite Hp, <- Hfst. apply block_paths_pairs. }
  exists brief. split; [exact Hparse |]. split; [exact Hkeys |].
  split; [| split; [| split; [reflexivity | split; [exact Hpairs |
          split; [exact Hpaths | split; [| split; [| split]]]]]]].
  - intros Hnone. rewrite Hnone in Hkeys. cbn [map] in Hkeys.
    rewrite flat_map_nil in Hkeys.
    destruct (compliance_results s1); [reflexivity | discriminate Hkeys].
  - intros sq Hone. rewrite Hkeys, Hone. cbn [map].
    apply flat_map_singleton.
  - rewrite <- (length_map (fun a => (product_id a, aspect_ratio a))), Hpairs.
    rewrite length_prod, !length_map. reflexivity.
  - rewrite <- (length_map fst), Hpaths.
    rewrite length_map, length_prod, !length_map. reflexivity.
  - destruct Hfresh as (_ & _ & Hs0). rewrite Hs0 in Hfiles. cbn [app] in Hfiles.
    rewrite Hfiles. exact Hfs.
  - intros brief' product hero_image source prompt_used ratio s r s2 Hstep.
    exact (process_ratio_effect _ _ _ _ _ _ _ _ _ _ Hstep).
Qed.

(** *** The scenario with one reused and one generated product *)

Lemma build_prompt_nonempty (n d a : string) (c : option string) :
  ImageGenerator.build_prompt n d a c <> "".
Proof.
  unfold ImageGenerator.build_prompt, ImageGenerator.prompt_parts, join.
  destruct c as [c |]; [destruct (truthy (Some c)) |];
    cbn [app String.concat String.append]; discriminate.
Qed.

Lemma find_asset_none (self : t) (s : State) :
  AssetManager.find_asset path_exists (asset_manager self) (fs s) None = None.
Proof. reflexivity. Qed.

(** The variant entry of the report for a product and a ratio. *)
Local Abbreviation variant self p r :=
  {| var_aspect_ratio := ar_name r;
     var_file_path := to_string (output_file self (id p) (ar_name r)) |}.

Lemma product_report_block (self : t) (p : Product) (src : string)
    (prompt : option string) (r : AspectRatio) (rs : list AspectRatio)
    (before after : list GeneratedAsset) (results : list ComplianceEntry) :
  (forall a, In a before -> product_id a <> id p) ->
  (forall a, In a after -> product_id a <> id p) ->
  let assets :=
    before ++ map (asset_record self p src prompt) (r :: rs) ++ after in
  let pr := product_report assets results p in
  pr_product_id pr = id p /\
  pr_product_name pr = name p /\
  pr_source pr = src /\
  pr_prompt_used pr = prompt /\
  pr_variants pr = map (fun r => variant self p r) (r :: rs).
Proof.
  intros Hbefore Hafter assets pr.
  assert (Hnone : forall l, (forall a, In a l -> product_id a <> id p) ->
                            filter (fun a => String.eqb (product_id a) (id p)) l = []).
  { induction l as [| a l IH]; intros Hl; [reflexivity |].
    cbn [filter]. destruct (String.eqb_spec (product_id a) (id p)) as [E | _].
    - destruct (Hl a (or_introl eq_refl) E).
    - apply IH. intros b Hb. apply Hl. right. exact Hb. }
  assert (Hall : forall l,
             filter (fun a => String.eqb (product_id a) (id p))
                    (map (asset_record self p src prompt) l)
             = map (asset_record self p src prompt) l).
  { induction l as [| x l IH]; [reflexivity |].
    cbn [map filter asset_record product_id]. rewrite String.eqb_refl.
    f_equal. exact IH. }
  assert (Hfilter : filter (fun a => String.eqb (product_id a) (id p)) assets
                    = map (asset_record self p src prompt) (r :: rs)).
  { unfold assets. rewrite !filter_app, (Hnone _ Hbefore), (Hnone _ Hafter), Hall.
    rewrite app_nil_r. reflexivity. }
  unfold pr, product_report. rewrite Hfilter.
  cbn [map pr_product_id pr_product_name pr_source pr_prompt_used pr_variants
       asset_record source prompt_used].
  repeat split; try reflexivity.
  f_equal. rewrite map_map. reflexivity.
Qed.

Lemma first_compliance_of_keys (results : list ComplianceEntry)
    (ps : list Product) (p : Product) :
  map entry_key results = map product_key ps ->
  In p ps ->
  first_compliance results (id p) <> None.
Proof.
  intros Hkeys Hin. unfold first_compliance.
  assert (Hex : exists r, In r results /\ ce_product_id r = id p).
  { assert (Hk : In (product_key p) (map entry_key results)).
    { rewrite Hkeys. apply in_map. exact Hin. }
    apply in_map_iff in Hk. destruct Hk as (r & Hr & Hinr).
    exists r. split; [exact Hinr |]. unfold entry_key, product_key in Hr.
    inversion Hr. reflexivity. }
  destruct Hex as (r & Hinr & Hid).
  assert (Hf : In r (filter (fun r => String.eqb (ce_product_id r) (id p)) results)).
  { apply filter_In. split; [exact Hinr |]. rewrite Hid. apply String.eqb_refl. }
  destruct (filter _ results); [destruct Hf | discriminate].
Qed.

(** C1.  A fresh pipeline object with the default three ratios runs on
    a brief (of any language, English included) with exactly two
    products, the first with a hero image that [find_asset] resolves,
    the second with none.  When the run completes it leaves exactly six
    records: three reused ones without prompt for the first product,
    then three generated ones carrying the non-empty prompt for the
    second; one compliance entry per product; the statistics 2
    products, 6 assets, 3 generated and 3 reused; and a report whose
    products follow the brief.  The report groups the records by
    product id, so with the two ids distinct (id is the key of a
    product) each product entry shows its own source and prompt and its
    variants in configuration order: square, story, landscape. *)
Theorem two_products_one_reused_one_generated (self : t)
    (brief_filename : string) (s0 s' : State) (report : Report)
    (brief : CampaignBrief) (pa pb : Product) (hero : Path) :
  fresh s0 ->
  config self = _load_config ->
  parse (fs s0) (campaign_path self // brief_filename) = inr brief ->
  products brief = [pa; pb] ->
  AssetManager.find_asset path_exists (asset_manager self) (fs s0)
    (hero_image pa) = Some hero ->
  hero_image pb = None ->
  run self brief_filename s0 = (inr report, s') ->
  let prompt :=
    ImageGenerator.build_prompt (name pb) (description pb)
      (target_audience brief) (brand_color_of brief) in
  generated_assets s' =
    [ asset_record self pa "existing" None square;
      asset_record self pa "existing" None story;
      asset_record self pa "existing" None landscape;
      asset_record self pb "generated" (Some prompt) square;
      asset_record self pb "generated" (Some prompt) story;
      asset_record self pb "generated" (Some prompt) landscape ] /\
  prompt <> "" /\
  map entry_key (compliance_results s') = [product_key pa; product_key pb] /\
  total_products (rep_statistics report) = 2 /\
  total_assets (rep_statistics report) = 6 /\
  assets_generated (rep_statistics report) = 3 /\
  assets_reused (rep_statistics report) = 3 /\
  compliance_total (rep_statistics report) = 2 /\
  map (fun pr => (pr_product_id pr, pr_product_name pr)) (rep_products report)
    = [ (id pa, name pa); (id pb, name pb) ] /\
  Forall (fun pr => pr_compliance pr <> None) (rep_products report) /\
  (id pa <> id pb ->
   map (fun pr => (pr_source pr, pr_prompt_used pr)) (rep_products report)
     = [ ("existing", None); ("generated", Some prompt) ] /\
   map pr_variants (rep_products report)
     = [ [variant self pa square; variant self pa story; variant self pa landscape];
         [variant self pb square; variant self pb story; variant self pb landscape] ]).
Proof.
  intros Hfresh Hconfig Hparse Hproducts Hfind Hnohero Hrun prompt.
  destruct (run_completed _ _ _ _ _ Hrun) as (brief' & s2 & Hparse' & _ & Hloop & -> & ->).
  rewrite Hparse in Hparse'. inversion Hparse'; subst brief'. clear Hparse'.
  rewrite Hproducts in Hloop.
  (* the first product is reused *)
  destruct (AssetManager.load_image path_exists image_open (fs s0) hero)
    as [e | image] eqn:Hload.
  { rewrite (for_each_cons_raise _ _ _ _ _ _
               (process_product_unreadable _ (localize brief) _ _ _ _ Hfind Hload))
      in Hloop. discriminate Hloop. }
  destruct (process_product self (localize brief) pa s0) as [[e | []] s1] eqn:H1.
  { rewrite (for_each_cons_raise _ _ _ _ _ _ H1) in Hloop. discriminate Hloop. }
  destruct (process_product_existing _ (localize brief) _ _ _ _ _ Hfind Hload H1)
    as (Hg1 & _).
  rewrite (for_each_cons_ok _ _ _ _ _ H1) in Hloop.
  (* the second is generated *)
  assert (Hfind2 : AssetManager.find_asset path_exists (asset_manager self) (fs s1)
                     (hero_image pb) = None).
  { rewrite Hnohero. reflexivity. }
  destruct (retried (localize brief) pb s1) as [[e | [image2 q]] n] eqn:Hgen.
  { rewrite (for_each_cons_raise _ _ _ _ _ _
               (process_product_generation_fails _ _ _ _ _ _ Hfind2 Hgen))
      in Hloop. discriminate Hloop. }
  destruct (process_product self (localize brief) pb s1) as [[e | []] s2'] eqn:H2.
  { rewrite (for_each_cons_raise _ _ _ _ _ _ H2) in Hloop. discriminate Hloop. }
  destruct (process_product_generated _ _ _ _ _ _ _ _ Hfind2 Hgen H2)
    as (Hg2 & _).
  rewrite (for_each_cons_ok _ _ _ _ _ H2) in Hloop.
  rewrite for_each_nil in Hloop. inversion Hloop; subst s2'. clear Hloop.
  (* the lists *)
  pose proof (grows_fresh _ _ _ _ _ Hfresh (grows_trans _ _ _ _ _ _ _ _ _ Hg1 Hg2))
    as (Ha & Hk & _).
  rewrite Hconfig, generated_for_localize in Ha, Hk.
  unfold block_assets, block_keys, generated_for, reused in Ha, Hk.
  cbn [aspect_ratios _load_config map fst snd app filter] in Ha, Hk.
  change (is_square square) with true in Hk.
  change (is_square story) with false in Hk.
  change (is_square landscape) with false in Hk.
  cbn [map app] in Hk. fold prompt in Ha.
  cbn [report_written generated_assets compliance_results saved].
  split; [exact Ha |]. split; [apply build_prompt_nonempty |].
  split; [exact Hk |].
  unfold _generate_report.
  cbn [rep_statistics rep_products total_products total_assets assets_generated
       assets_reused compliance_total].
  rewrite localize_products, Hproducts.
  rewrite <- (length_map entry_key), Hk, Ha.
  cbn [filter source asset_record List.length map].
  change (String.eqb "existing" "generated") with false.
  change (String.eqb "generated" "generated") with true.
  change (String.eqb "existing" "existing") with true.
  change (String.eqb "generated" "existing") with false.
  cbn [List.length].
  do 5 (split; [reflexivity |]).
  (* the report entries *)
  cbn [map product_report pr_product_id pr_product_name].
  split; [reflexivity |]. split.
  { assert (Hkeys : map entry_key (compliance_results s2) = map product_key [pa; pb])
      by exact Hk.
    constructor; [| constructor; [| constructor]];
      cbn [pr_compliance];
      apply (first_compliance_of_keys _ _ _ Hkeys); cbn [In]; auto. }
  intros Hids. rewrite <- Ha.
  assert (Hpa : forall src pr r a,
             In a (map (asset_record self pb src pr) r) -> product_id a <> id pa).
  { intros src pr r a Hin. apply in_map_iff in Hin. destruct Hin as (x & <- & _).
    cbn [asset_record product_id]. congruence. }
  assert (Hpb : forall src pr r a,
             In a (map (asset_record self pa src pr) r) -> product_id a <> id pb).
  { intros src pr r a Hin. apply in_map_iff in Hin. destruct Hin as (x & <- & _).
    cbn [asset_record product_id]. exact Hids. }
  pose proof (product_report_block self pa "existing" None square
                [story; landscape] []
                (map (asset_record self pb "generated" (Some prompt))
                     [square; story; landscape])
                (compliance_results s2)
                (fun a (H : In a []) => match H with end)
                (Hpa _ _ _)) as Hra.
  pose proof (product_report_block self pb "generated" (Some prompt) square
                [story; landscape]
                (map (asset_record self pa "existing" None)
                     [square; story; landscape])
                [] (compliance_results s2)
                (Hpb _ _ _)
                (fun a (H : In a []) => match H with end)) as Hrb.
  cbv zeta in Hra, Hrb. rewrite app_nil_r in Hrb. rewrite app_nil_l in Hra.
  cbn [map app] in Hra, Hrb. rewrite <- Ha in Hra, Hrb.
  destruct Hra as (_ & _ & Ha3 & Ha4 & Ha5).
  destruct Hrb as (_ & _ & Hb3 & Hb4 & Hb5).
  fold (product_report (generated_assets s2) (compliance_results s2) pa).
  fold (product_report (generated_assets s2) (compliance_results s2) pb).
  rewrite Ha3, Ha4, Ha5, Hb3, Hb4, Hb5.
  split; reflexivity.
Qed.

(** *** Sources and prompts, product by product *)

Local Abbreviation by_id pid := (fun a => String.eqb (product_id a) pid).

Lemma in_blocks (self : t) (ratios : list AspectRatio)
    (pos : list (Product * (string * option string))) (a : GeneratedAsset) :
  In a (flat_map (block_assets self ratios) pos) ->
  exists po r,
    In po pos /\ In r ratios /\
    a = asset_record self (fst po) (fst (snd po)) (snd (snd po)) r.
Proof.
  intros Hin. apply in_flat_map in Hin. destruct Hin as (po & Hpo & Ha).
  unfold block_assets in Ha. apply in_map_iff in Ha.
  destruct Ha as (r & <- & Hr). exists po, r. repeat split; assumption.
Qed.

Lemma outcome_sources (brief : CampaignBrief)
    (po : Product * (string * option string)) :
  outcome_ok brief po ->
  fst (snd po) = "generated" \/ fst (snd po) = "existing".
Proof. intros [-> | ->]; [right | left]; reflexivity. Qed.

Lemma count_by_source (l : list GeneratedAsset) :
  (forall a, In a l -> source a = "generated" \/ source a = "existing") ->
  List.length (filter (fun a => String.eqb (source a) "generated") l)
  + List.length (filter (fun a => String.eqb (source a) "existing") l)
  = List.length l.
Proof.
  induction l as [| a l IH]; intros H; [reflexivity |].
  cbn [filter]. specialize (IH (fun b Hb => H b (or_intror Hb))).
  destruct (H a (or_introl eq_refl)) as [-> | ->].
  - change (String.eqb "generated" "generated") with true.
    change (String.eqb "generated" "existing") with false.
    cbn [List.length]. lia.
  - change (String.eqb "existing" "generated") with false.
    change (String.eqb "existing" "existing") with true.
    cbn [List.length]. lia.
Qed.

Lemma filter_block_same (self : t) (ratios : list AspectRatio)
    (po : Product * (string * option string)) :
  filter (by_id (id (fst po))) (block_assets self ratios po)
  = block_assets self ratios po.
Proof.
  unfold block_assets. induction ratios as [| r rs IH]; [reflexivity |].
  cbn [map filter asset_record product_id]. rewrite String.eqb_refl.
  f_equal. exact IH.
Qed.

Lemma filter_block_other (self : t) (ratios : list AspectRatio)
    (po : Product * (string * option string)) (pid : string) :
  id (fst po) <> pid ->
  filter (by_id pid) (block_assets self ratios po) = [].
Proof.
  intros Hne. unfold block_assets. induction ratios as [| r rs IH]; [reflexivity |].
  cbn [map filter asset_record product_id].
  destruct (String.eqb_spec (id (fst po)) pid); [contradiction | exact IH].
Qed.

Lemma filter_blocks_absent (self : t) (ratios : list AspectRatio)
    (pos : list (Product * (string * option string))) (pid : string) :
  ~ In pid (map id (map fst pos)) ->
  filter (by_id pid) (flat_map (block_assets self ratios) pos) = [].
Proof.
  induction pos as [| po pos IH]; intros Hnot; [reflexivity |].
  cbn [flat_map]. rewrite filter_app.
  rewrite filter_block_other, IH; [reflexivity | |].
  - intros Hin. apply Hnot. right. exact Hin.
  - intros Heq. apply Hnot. left. exact Heq.
Qed.

(** With distinct ids the records carrying a product's id are exactly
    the block of that product. *)
Lemma filter_blocks_unique (self : t) (ratios : list AspectRatio)
    (pos : list (Product * (string * option string))) :
  NoDup (map id (map fst pos)) ->
  forall po, In po pos ->
    filter (by_id (id (fst po))) (flat_map (block_assets self ratios) pos)
    = block_assets self ratios po.
Proof.
  induction pos as [| po0 pos IH]; intros Hnd po Hin; [destruct Hin |].
  cbn [map] in Hnd. apply NoDup_cons_iff in Hnd. destruct Hnd as (Hnot & Hnd).
  cbn [flat_map]. rewrite filter_app. destruct Hin as [-> | Hin].
  - rewrite filter_block_same, (filter_blocks_absent _ _ _ _ Hnot).
    apply app_nil_r.
  - rewrite filter_block_other, (IH Hnd po Hin); [reflexivity |].
    intros Heq. apply Hnot. rewrite Heq.
    apply in_map. apply in_map. exact Hin.
Qed.

(** Whatever the ids, a product that was processed has a first record
    under its id when at least one ratio is configured. *)
Lemma filter_blocks_nonempty (self : t) (ratios : list AspectRatio)
    (pos : list (Product * (string * option string))) (p : Product) :
  ratios <> [] ->
  In p (map fst pos) ->
  exists a rest,
    filter (by_id (id p)) (flat_map (block_assets self ratios) pos) = a :: rest.
Proof.
  intros Hratios Hin. apply in_map_iff in Hin. destruct Hin as (po & <- & Hpo).
  destruct ratios as [| r rs]; [contradiction |].
  assert (Hmem : In (asset_record self (fst po) (fst (snd po)) (snd (snd po)) r)
                    (filter (by_id (id (fst po)))
                            (flat_map (block_assets self (r :: rs)) pos))).
  { apply filter_In. split.
    - apply in_flat_map. exists po. split; [exact Hpo | left; reflexivity].
    - cbn [asset_record product_id]. apply String.eqb_refl. }
  destruct (filter _ _) as [| a rest]; [destruct Hmem |].
  exists a, rest. reflexivity.
Qed.

Lemma outcome_ok_localize (brief : CampaignBrief)
    (pos : list (Product * (string * option string))) :
  Forall (outcome_ok (localize brief)) pos -> Forall (outcome_ok brief) pos.
Proof.
  intros H. eapply Forall_impl; [| exact H].
  intros po [Hr | Hg]; [left; exact Hr | right].
  rewrite Hg. apply generated_for_localize.
Qed.

(** C10.  In a completed run of a fresh pipeline object the asset list
    is, in product order, one block of records per product, and all the
    records of a block carry the one source and the one prompt fixed
    for that product: "existing" without prompt, or "generated" with
    the prompt built for it.  Every source is one of these two, so the
    statistics satisfy [assets_generated + assets_reused =
    total_assets].  Each product entry of the report takes its source
    and prompt from the first record under the product's id; with at
    least one configured ratio that record exists and the fallback
    "unknown" is not reached.  When the product ids are distinct, any
    two records with the same id agree on source and prompt, and the
    report gives each product the source and prompt of its own
    block. *)
Theorem product_records_share_source_and_prompt (self : t)
    (brief_filename : string) (s0 s' : State) (report : Report) :
  fresh s0 ->
  run self brief_filename s0 = (inr report, s') ->
  let ratios := aspect_ratios (config self) in
  let assets := generated_assets s' in
  exists brief pos,
    parse (fs s0) (campaign_path self // brief_filename) = inr brief /\
    map fst pos = products brief /\
    Forall (outcome_ok brief) pos /\
    assets = flat_map (block_assets self ratios) pos /\
    (forall a, In a assets -> source a = "generated" \/ source a = "existing") /\
    assets_generated (rep_statistics report) + assets_reused (rep_statistics report)
      = total_assets (rep_statistics report) /\
    rep_products report
      = map (product_report assets (compliance_results s')) (products brief) /\
    (ratios <> [] ->
     Forall (fun pr =>
               exists a rest,
                 filter (by_id (pr_product_id pr)) assets = a :: rest /\
                 pr_source pr = source a /\
                 pr_prompt_used pr = prompt_used a /\
                 pr_source pr <> "unknown")
            (rep_products report)) /\
    (NoDup (map id (products brief)) ->
     (forall a b, In a assets -> In b assets -> product_id a = product_id b ->
                  source a = source b /\ prompt_used a = prompt_used b) /\
     (ratios <> [] ->
      map (fun pr => (pr_source pr, pr_prompt_used pr)) (rep_products report)
        = map snd pos)).
Proof.
  intros Hfresh Hrun ratios assets.
  destruct (run_completed _ _ _ _ _ Hrun)
    as (brief & s1 & Hparse & _ & Hloop & -> & ->).
  destruct (product_loop_effect _ _ _ _ _ Hloop) as (pos & Hfst & Hok & Hg).
  apply outcome_ok_localize in Hok.
  destruct (grows_fresh _ _ _ _ _ Hfresh Hg) as (Ha & _ & _).
  unfold assets. cbn [report_written generated_assets compliance_results].
  fold ratios in Ha.
  assert (Hsrc : forall a, In a (generated_assets s1) ->
                           source a = "generated" \/ source a = "existing").
  { intros a Hin. rewrite Ha in Hin.
    destruct (in_blocks _ _ _ _ Hin) as (po & r & Hpo & _ & ->).
    cbn [asset_record source]. apply (outcome_sources brief).
    rewrite Forall_forall in Hok. apply Hok. exact Hpo. }
  exists brief, pos.
  split; [exact Hparse |]. split; [exact Hfst |]. split; [exact Hok |].
  split; [exact Ha |]. split; [exact Hsrc |].
  split; [apply (count_by_source _ Hsrc) |].
  unfold _generate_report. cbn [rep_products]. rewrite localize_products.
  split; [reflexivity |]. split.
  - (* the first record under each id *)
    intros Hratios. apply Forall_forall. intros pr Hpr.
    apply in_map_iff in Hpr. destruct Hpr as (p & <- & Hp).
    rewrite <- Hfst in Hp.
    destruct (filter_blocks_nonempty self ratios pos p Hratios Hp)
      as (a & rest & Hfilter).
    rewrite <- Ha in Hfilter.
    exists a, rest. unfold product_report.
    cbn [pr_product_id pr_source pr_prompt_used]. rewrite Hfilter.
    split; [reflexivity | split; [reflexivity | split; [reflexivity |]]].
    assert (Hina : In a (generated_assets s1)).
    { assert (H : In a (filter (by_id (id p)) (generated_assets s1)))
        by (rewrite Hfilter; left; reflexivity).
      apply filter_In in H. exact (proj1 H). }
    destruct (Hsrc a Hina) as [-> | ->]; discriminate.
  - (* distinct ids *)
    intros Hnd. rewrite <- Hfst in Hnd. split.
    + intros a b Hina Hinb Hid. rewrite Ha in Hina, Hinb.
      destruct (in_blocks _ _ _ _ Hina) as (pa & ra & Hpa & _ & ->).
      destruct (in_blocks _ _ _ _ Hinb) as (pb & rb & Hpb & _ & ->).
      cbn [asset_record product_id source prompt_used] in *.
      assert (Hsame : block_assets self [ra] pa = block_assets self [ra] pb).
      { rewrite <- (filter_blocks_unique self [ra] pos Hnd pa Hpa).
        rewrite <- (filter_blocks_unique self [ra] pos Hnd pb Hpb).
        rewrite Hid. reflexivity. }
      unfold block_assets in Hsame. cbn [map] in Hsame.
      inversion Hsame. split; reflexivity.
    + intros Hratios. rewrite <- Hfst, !map_map.
      apply map_ext_in. intros po Hpo. unfold product_report.
      cbn [pr_source pr_prompt_used].
      rewrite Ha, (filter_blocks_unique self ratios pos Hnd po Hpo).
      unfold block_assets. destruct ratios as [| r rs]; [contradiction |].
      cbn [map asset_record source prompt_used].
      destruct po as [p [src prompt]]. reflexivity.
Qed.

(** *** Moderation *)

Lemma is_safe_found (cm : ContentModerator.t) (message : string) :
  ContentModerator.is_safe (ContentModerator.moderate_text cm message)
  = negb (nonempty (ContentModerator.check_prohibited_terms cm message)).
Proof.
  unfold ContentModerator.is_safe, ContentModerator.moderate_text,
    ContentModerator._ai_moderation_check.
  cbn [ContentModerator.flagged ContentModerator.prohibited_terms negb andb].
  destruct (ContentModerator.check_prohibited_terms cm message); reflexivity.
Qed.

Lemma unsafe_iff_term_occurs (cm : ContentModerator.t) (message : string) :
  ContentModerator.is_safe (ContentModerator.moderate_text cm message) = false
  <-> exists term,
        In term (ContentModerator.terms cm) /\
        contains (lower term) (lower message) = true.
Proof.
  rewrite is_safe_found. unfold ContentModerator.check_prohibited_terms.
  split.
  - intros H.
    destruct (filter _ (ContentModerator.terms cm)) as [| term l] eqn:E;
      [discriminate H |].
    assert (Hin : In term (filter (fun term => contains (lower term) (lower message))
                                  (ContentModerator.terms cm)))
      by (rewrite E; left; reflexivity).
    apply filter_In in Hin. exists term. exact Hin.
  - intros (term & Hin & Hocc).
    assert (Hf : In term (filter (fun term => contains (lower term) (lower message))
                                 (ContentModerator.terms cm)))
      by (apply filter_In; split; assumption).
    destruct (filter _ (ContentModerator.terms cm)); [destruct Hf | reflexivity].
Qed.

(** C8.  [moderate_campaign_message] raises exactly when it is called
    in strict mode on an unsafe message, and the error then lists the
    offending terms; a message is unsafe exactly when one of the
    moderator's terms occurs in it as a substring, case ignored, the AI
    check being a stub that flags nothing.  In non-strict mode it
    returns the verdict, [false] for an unsafe message, without
    raising.  The orchestrator calls it in non-strict mode and drops
    the verdict: a run with any other moderator has the same result and
    the same final state, so a flagged message never halts a run. *)
Theorem moderation_raises_only_when_strict (cm : ContentModerator.t)
    (message : string) :
  let verdict := ContentModerator.is_safe (ContentModerator.moderate_text cm message) in
  let found := ContentModerator.check_prohibited_terms cm message in
  (forall strict,
      (exists e, ContentModerator.moderate_campaign_message cm message strict = inl e)
      <-> strict = true /\ verdict = false) /\
  (verdict = false
   <-> exists term,
         In term (ContentModerator.terms cm) /\
         contains (lower term) (lower message) = true) /\
  ContentModerator._ai_moderation_check message = false /\
  (verdict = false ->
   ContentModerator.moderate_campaign_message cm message true
   = inl (ValueError ("Campaign message failed moderation:"
                        +++ ContentModerator.newline
                        +++ "  - Prohibited terms found: "
                        +++ join ", " found +++ ContentModerator.newline))) /\
  ContentModerator.moderate_campaign_message cm message false = inr verdict /\
  (forall (self : t) (brief_filename : string) (s : State)
          (cm' : ContentModerator.t),
      run (with_moderator self cm') brief_filename s = run self brief_filename s).
Proof.
  cbv zeta. split; [| split; [| split; [| split; [| split]]]].
  - intros strict. unfold ContentModerator.moderate_campaign_message.
    destruct (ContentModerator.is_safe _); destruct strict; cbn [negb];
      split; try (intros (e & He); discriminate He);
      try (intros (H1 & H2); discriminate).
    + intros _. split; reflexivity.
    + intros _. eexists. reflexivity.
  - apply unsafe_iff_term_occurs.
  - reflexivity.
  - intros Hunsafe. unfold ContentModerator.moderate_campaign_message.
    rewrite Hunsafe. cbn [negb].
    unfold ContentModerator.moderate_text.
    cbn [ContentModerator.prohibited_terms].
    reflexivity.
  - apply moderation_returns.
  - intros self brief_filename s cm'. rewrite !run_steps.
    unfold with_moderator at 1. cbn [campaign_path].
    destruct (parse (fs s) (campaign_path self // brief_filename)) as [e | brief];
      [reflexivity |].
    destruct (negb (fst (BriefParser.validate_brief brief))); reflexivity.
Qed.

(** *** Exhausted retries *)

(** C3.  [generate_with_retry] sends at most [max_retries] requests
    (three by default).  It retries after any error, whatever its text,
    and stops at the first request that succeeds.  When every request
    fails it has sent exactly [max_retries] of them and raises an
    error that carries the product name and the last underlying error;
    no image is returned in its place.  In the orchestrator such a
    failure aborts the run with that error: the state it leaves is that
    reached after the products before it, with three more requests
    counted, so no record is appended, no file is saved and no report
    is written for the failing product or after it. *)
Theorem generate_with_retry_bounded (pname pdesc audience : string) (color : option string)
    (max_retries : Z) (calls : nat) :
  let prompt :=
    ImageGenerator.build_prompt pname pdesc
      audience color in
  let result :=
    ImageGenerator.generate_with_retry backend pname pdesc audience color
      max_retries calls in
  let attempts := Z.to_nat max_retries in
  ImageGenerator.default_max_retries = 3%Z /\
  calls <= snd result <= calls + attempts /\
  (forall j image,
      j < attempts ->
      (forall i, i < j -> exists e, backend (calls + i) prompt = inl e) ->
      backend (calls + j) prompt = inr image ->
      result = (inr (image, prompt), calls + j + 1)) /\
  (forall last,
      (0 < max_retries)%Z ->
      (forall i, i < attempts -> exists e, backend (calls + i) prompt = inl e) ->
      backend (calls + attempts - 1) prompt = inl last ->
      result =
        (inl (Exception ("Failed after " +++ str_of_Z max_retries
                           +++ " attempts: " +++ "Failed to generate image for "
                           +++ pname +++ ": " +++ last)),
         calls + attempts)) /\
  (forall (self : t) (brief_filename : string) (brief : CampaignBrief)
          (before rest : list Product) (product : Product) (s0 s : State)
          (last : string),
      parse (fs s0) (campaign_path self // brief_filename) = inr brief ->
      fst (BriefParser.validate_brief brief) = true ->
      products brief = before ++ product :: rest ->
      for_each before (process_product self (localize brief)) s0 = (inr tt, s) ->
      AssetManager.find_asset path_exists (asset_manager self) (fs s)
        (hero_image product) = None ->
      (forall i, i < 3 ->
         exists e,
           backend (requests s + i)
             (ImageGenerator.build_prompt (name product) (description product)
                (target_audience brief) (brand_color_of brief)) = inl e) ->
      backend (requests s + 2)
        (ImageGenerator.build_prompt (name product) (description product)
           (target_audience brief) (brand_color_of brief)) = inl last ->
      run self brief_filename s0 =
        (inl (Exception ("Failed after 3 attempts: Failed to generate image for "
                           +++ name product +++ ": " +++ last)),
         set_requests s (requests s + 3))).
Proof.
  cbv zeta.
  assert (Hexhaust : forall n d a c (m : Z) k last,
             (0 < m)%Z ->
             (forall i, i < Z.to_nat m ->
                exists e, backend (k + i) (ImageGenerator.build_prompt n d a c) = inl e) ->
             backend (k + Z.to_nat m - 1) (ImageGenerator.build_prompt n d a c) = inl last ->
             ImageGenerator.generate_with_retry backend n d a c m k =
               (inl (Exception ("Failed after " +++ str_of_Z m
                                  +++ " attempts: " +++ "Failed to generate image for "
                                  +++ n +++ ": " +++ last)),
                k + Z.to_nat m)).
  { intros n d a c m k last Hpos Hfail Hlast.
    unfold ImageGenerator.generate_with_retry.
    destruct (retry_loop_all_fail _ backend n d a c (Z.to_nat m) None k Hfail)
      as (last' & Hrun & _ & Hlast').
    rewrite Hrun. rewrite (Hlast' last ltac:(lia) Hlast). reflexivity. }
  split; [reflexivity |]. split; [| split; [| split]].
  - unfold ImageGenerator.generate_with_retry.
    pose proof (retry_loop_requests _ backend pname pdesc audience color
                  (Z.to_nat max_retries) None calls) as Hb.
    destruct (ImageGenerator.retry_loop _ _ _ _ _ _ _ _) as [[last | r] n];
      exact Hb.
  - intros j image Hj Hfail Hok. unfold ImageGenerator.generate_with_retry.
    rewrite (retry_loop_first_success _ backend _ _ _ _ _ None calls j image
               Hj Hfail Hok).
    reflexivity.
  - intros last Hpos Hfail Hlast. apply Hexhaust; assumption.
  - intros self brief_filename brief before rest product s0 s last
      Hparse Hvalid Hproducts Hbefore Hfind Hfail Hlast.
    assert (Hgen : ImageGenerator.generate_with_retry backend (name product)
                     (description product) (target_audience (localize brief))
                     (brand_color_of (localize brief))
                     ImageGenerator.default_max_retries (requests s)
                   = (inl (Exception
                             ("Failed after 3 attempts: Failed to generate image for "
                                +++ name product +++ ": " +++ last)),
                      requests s + 3)).
    { rewrite localize_target_audience, localize_brand_color.
      apply (Hexhaust _ _ _ _ 3%Z (requests s) last); [lia | exact Hfail |].
      replace (requests s + Z.to_nat 3 - 1) with (requests s + 2)
        by (change (Z.to_nat 3) with 3; lia).
      exact Hlast. }
    rewrite run_steps, Hparse, Hvalid. cbn [negb].
    rewrite Hproducts, (for_each_app_ok _ _ _ _ _ Hbefore).
    rewrite (for_each_cons_raise _ _ _ _ _ _
               (process_product_generation_fails self (localize brief) product s
                  _ _ Hfind Hgen)).
    reflexivity.
Qed.

End Orchestrator.

(** ** The demonstration campaign *)

Section Demonstration.

Import Pipeline Demo.

Lemma demo_state_fresh : @fresh world state0.
Proof. repeat split; reflexivity. Qed.

Lemma demo_run :
  @run world self "brief.yaml" state0
  = (inr (@report_of world outcome), snd outcome).
Proof. vm_compute. reflexivity. Qed.

Lemma demo_run_no_square :
  @run world self_no_square "brief.yaml" state0
  = (inr (@report_of world outcome_no_square), snd outcome_no_square).
Proof. vm_compute. reflexivity. Qed.

(** The scenario of C1 on the demonstration campaign: the soap has a
    hero image under [assets/], the shampoo has none and is generated
    at the third request. *)
Lemma two_products_witness :
  id soap <> id shampoo /\
  List.length (generated_assets (snd outcome)) = 6 /\
  map source (generated_assets (snd outcome))
    = ["existing"; "existing"; "existing"; "generated"; "generated"; "generated"] /\
  total_products (rep_statistics (@report_of world outcome)) = 2 /\
  total_assets (rep_statistics (@report_of world outcome)) = 6 /\
  assets_generated (rep_statistics (@report_of world outcome)) = 3 /\
  assets_reused (rep_statistics (@report_of world outcome)) = 3 /\
  map pr_source (rep_products (@report_of world outcome))
    = ["existing"; "generated"].
Proof.
  assert (Hids : id soap <> id shampoo) by (apply string_neq_of_eqb; reflexivity).
  assert (Hconfig : config self = _load_config) by reflexivity.
  assert (Hparse : @parse world (fs state0) (campaign_path self // "brief.yaml")
                   = inr brief_en) by (vm_compute; reflexivity).
  assert (Hfind : AssetManager.find_asset (@path_exists world) (asset_manager self)
                    (fs state0) (hero_image soap)
                  = Some (root // "assets" // "hero_soap.png"))
    by (vm_compute; reflexivity).
  destruct (@two_products_one_reused_one_generated world self "brief.yaml"
              state0 (snd outcome) (@report_of world outcome) brief_en soap
              shampoo (root // "assets" // "hero_soap.png")
              demo_state_fresh Hconfig Hparse eq_refl Hfind eq_refl demo_run)
    as (Ha & _ & _ & Hp & Ht & Hg & Hr & _ & _ & _ & Hreport).
  destruct (Hreport Hids) as (Hsources & _).
  split; [exact Hids |].
  split; [rewrite Ha; reflexivity |].
  split; [rewrite Ha; reflexivity |].
  split; [exact Hp | split; [exact Ht | split; [exact Hg |]]].
  split; [exact Hr |].
  apply (f_equal (map fst)) in Hsources. rewrite map_map in Hsources.
  exact Hsources.
Defined.

(** C2 on the same campaign with the square ratio taken out of the
    configuration: the run completes, four files are saved and no
    compliance entry is recorded. *)
Lemma no_square_witness :
  compliance_results (snd outcome_no_square) = [] /\
  List.length (generated_assets (snd outcome_no_square)) = 4 /\
  List.length (saved (snd outcome_no_square)) = 4.
Proof.
  destruct (@compliance_once_per_product_on_square world self_no_square
              "brief.yaml" state0 (snd outcome_no_square)
              (@report_of world outcome_no_square) demo_state_fresh
              demo_run_no_square)
    as (brief & Hparse & _ & Hnone & _ & _ & _ & _ & Hla & Hls & _ & _).
  assert (Hbrief : brief = brief_en).
  { vm_compute in Hparse. inversion Hparse. reflexivity. }
  subst brief.
  split; [apply Hnone; reflexivity |].
  split; [exact Hla | exact Hls].
Defined.

(** C10 on the demonstration campaign. *)
Lemma shared_source_witness :
  assets_generated (rep_statistics (@report_of world outcome))
  + assets_reused (rep_statistics (@report_of world outcome))
  = total_assets (rep_statistics (@report_of world outcome)) /\
  map (fun pr => (pr_source pr, pr_prompt_used pr))
      (rep_products (@report_of world outcome))
  = [ reused; generated_for brief_en shampoo ].
Proof.
  destruct (@product_records_share_source_and_prompt world self "brief.yaml"
              state0 (snd outcome) (@report_of world outcome) demo_state_fresh
              demo_run)
    as (brief & pos & _ & _ & _ & _ & _ & Hsum & _).
  split; [exact Hsum |]. vm_compute. reflexivity.
Defined.

(** With a generation service that always fails the run stops at the
    first product after three requests, with nothing saved. *)
Example dead_backend_aborts_run :
  @run dead_world self "brief.yaml" dead_state0
  = (inl (Exception "Failed after 3 attempts: Failed to generate image for Acme Shampoo: service unavailable"),
     @set_requests dead_world dead_state0 3).
Proof. vm_compute. reflexivity. Qed.

(** The components on small inputs. *)

Example validate_demo_brief :
  BriefParser.validate_brief brief_en
  = (true, ["Products without hero images (will generate): Acme Shampoo"]).
Proof. vm_compute. reflexivity. Qed.

Example validate_single_product :
  BriefParser.validate_brief
    (mkCampaignBrief "solo" [soap] (mkTargetMarket "US" "en-US") "all" "Hi" None)
  = (false, ["Brief requires at least 2 products, found 1";
             "No brand elements specified"]).
Proof. vm_compute. reflexivity. Qed.

Example find_hero_in_assets :
  AssetManager.find_asset exists_in (asset_manager self) disk (Some "hero_soap.png")
  = Some (root // "assets" // "hero_soap.png").
Proof. vm_compute. reflexivity. Qed.

Example find_missing_asset :
  AssetManager.find_asset exists_in (asset_manager self) disk (Some "logo.png")
  = None.
Proof. vm_compute. reflexivity. Qed.

Example prompt_without_colour :
  ImageGenerator.build_prompt "Acme Gel" "Shower gel" "young adults" None
  = "Professional product photography of Acme Gel. Product details: Shower gel. Style: Clean, modern, appealing to young adults. High quality, well-lit, studio setting. Commercial photography, 4K quality.".
Proof. vm_compute. reflexivity. Qed.

Example flagged_message_strict :
  ContentModerator.moderate_campaign_message (ContentModerator.init None)
    "GUARANTEED miracle shine" true
  = inl (ValueError ("Campaign message failed moderation:"
                       +++ ContentModerator.newline
                       +++ "  - Prohibited terms found: guaranteed, miracle"
                       +++ ContentModerator.newline)).
Proof. vm_compute. reflexivity. Qed.

Example flagged_message_not_strict :
  ContentModerator.moderate_campaign_message (ContentModerator.init None)
    "GUARANTEED miracle shine" false
  = inr false.
Proof. vm_compute. reflexivity. Qed.

Example red_image_passes :
  BrandCompliance.passed
    (BrandCompliance.check_color_presence (fun c => inr (grid_of c))
       (BrandCompliance.mkChecker (Some "#FF0000") None) red) = true.
Proof. vm_compute. reflexivity. Qed.

Example cyan_image_fails_with_50 :
  BrandCompliance.score
    (BrandCompliance.check_color_presence (fun c => inr (grid_of c))
       (BrandCompliance.mkChecker (Some "#FF0000") None) (0, 255, 255)%Z) = 50%Z.
Proof. vm_compute. reflexivity. Qed.

Example bad_colour_scores_0 :
  BrandCompliance.check_color_presence (fun c => inr (grid_of c))
    (BrandCompliance.mkChecker (Some "red") None) red
  = BrandCompliance.mkComplianceResult "color_presence" false 0
      "Color check failed: invalid literal for int() with base 16: 're'" [].
Proof. vm_compute. reflexivity. Qed.

Example spanish_font_and_message :
  Localizer.get_font_for_language "JA" = "Noto Sans JP" /\
  Localizer.translate_text (@translator world) "Hello" "es" "en" = "[es] Hello".
Proof. split; vm_compute; reflexivity. Qed.

End Demonstration.

(** * Further properties of the components *)

(** ** Colours and the colour check *)

Section Colours.

Import BrandCompliance Notions.

Lemma int16_hex2_table (upper : bool) :
  forallb (fun n => match int16 (hex2 upper (Z.of_nat n)) with
                    | Some v => (v =? Z.of_nat n)%Z
                    | None => false
                    end) (seq 0 256) = true.
Proof. destruct upper; vm_compute; reflexivity. Qed.

Lemma int16_hex2 (upper : bool) (v : Z) :
  channel v -> int16 (hex2 upper v) = Some v.
Proof.
  intros Hv. unfold channel in Hv.
  pose proof (int16_hex2_table upper) as H. rewrite forallb_forall in H.
  specialize (H (Z.to_nat v)). rewrite Z2Nat.id in H by lia.
  assert (Hin : In (Z.to_nat v) (seq 0 256)) by (apply in_seq; lia).
  specialize (H Hin).
  destruct (int16 (hex2 upper v)) as [w |]; [| discriminate H].
  apply Z.eqb_eq in H. rewrite H. reflexivity.
Qed.

Lemma hex_char_not_hash_table (upper : bool) :
  forallb (fun n => negb (Ascii.eqb "#"%char (hex_char upper (Z.of_nat n))))
          (seq 0 16) = true.
Proof. destruct upper; vm_compute; reflexivity. Qed.

Lemma hex2_not_hash (upper : bool) (v : Z) (rest : string) :
  channel v -> lstrip "#"%char (hex2 upper v +++ rest) = hex2 upper v +++ rest.
Proof.
  intros Hv. unfold channel in Hv.
  pose proof (hex_char_not_hash_table upper) as H. rewrite forallb_forall in H.
  specialize (H (Z.to_nat (v / 16))). rewrite Z2Nat.id in H by (apply Z.div_pos; lia).
  assert (Hin : In (Z.to_nat (v / 16)) (seq 0 16)).
  { apply in_seq. assert (v / 16 < 16)%Z by (apply Z.div_lt_upper_bound; lia).
    assert (0 <= v / 16)%Z by (apply Z.div_pos; lia). lia. }
  specialize (H Hin). apply Bool.negb_true_iff in H.
  unfold hex2. cbn [String.append lstrip]. rewrite H. reflexivity.
Qed.

Lemma hex_to_rgb_digits (upper : bool) (r g b : Z) :
  channel r -> channel g -> channel b ->
  _hex_to_rgb (hex2 upper r +++ hex2 upper g +++ hex2 upper b) = inr (r, g, b).
Proof.
  intros Hr Hg Hb. unfold _hex_to_rgb.
  rewrite (hex2_not_hash upper r _ Hr).
  change (slice 0 2 (hex2 upper r +++ hex2 upper g +++ hex2 upper b))
    with (hex2 upper r).
  change (slice 2 2 (hex2 upper r +++ hex2 upper g +++ hex2 upper b))
    with (hex2 upper g).
  change (slice 4 2 (hex2 upper r +++ hex2 upper g +++ hex2 upper b))
    with (hex2 upper b).
  rewrite (int16_hex2 upper r Hr), (int16_hex2 upper g Hg), (int16_hex2 upper b Hb).
  reflexivity.
Qed.

(** X1.  A colour written [#RRGGBB], in upper or lower case, with or
    without the leading [#], is read back by [_hex_to_rgb] as its three
    channels. *)
Theorem hex_to_rgb_reads_hex_colour (upper : bool) (r g b : Z) :
  channel r -> channel g -> channel b ->
  _hex_to_rgb (hex_colour upper (r, g, b)) = inr (r, g, b) /\
  _hex_to_rgb (hex2 upper r +++ hex2 upper g +++ hex2 upper b) = inr (r, g, b).
Proof.
  intros Hr Hg Hb. split; [| apply hex_to_rgb_digits; assumption].
  rewrite <- (hex_to_rgb_digits upper r g b Hr Hg Hb).
  unfold hex_colour, _hex_to_rgb. cbn [String.append lstrip].
  change (Ascii.eqb "#" "#") with true. cbv iota. reflexivity.
Qed.

Lemma hex_to_rgb_witness :
  _hex_to_rgb "#1E90FF" = inr (30, 144, 255)%Z /\
  _hex_to_rgb "1e90ff" = inr (30, 144, 255)%Z.
Proof.
  assert (H30 : channel 30) by (unfold channel; lia).
  assert (H144 : channel 144) by (unfold channel; lia).
  assert (H255 : channel 255) by (unfold channel; lia).
  split.
  - exact (proj1 (hex_to_rgb_reads_hex_colour true 30 144 255 H30 H144 H255)).
  - exact (proj2 (hex_to_rgb_reads_hex_colour false 30 144 255 H30 H144 H255)).
Defined.

Variable Image : Type.
Variable sample_grid : Image -> string + list pixel.

Lemma slice_beyond (i n : nat) (s : string) :
  String.length s <= i -> slice i n s = "".
Proof.
  revert i. induction s as [| c s IH]; intros i Hlen.
  - destruct i; reflexivity.
  - destruct i as [| i]; [cbn [String.length] in Hlen; lia |].
    cbn [slice]. apply IH. cbn [String.length] in Hlen. lia.
Qed.

Lemma hex_to_rgb_short (color : string) :
  String.length (lstrip "#"%char color) <= 4 ->
  exists e, _hex_to_rgb color = inl e.
Proof.
  intros Hlen. unfold _hex_to_rgb.
  rewrite (slice_beyond 4 2 _ Hlen).
  change (int16 "") with (@None Z).
  destruct (int16 (slice 0 2 _)); [| eexists; reflexivity].
  destruct (int16 (slice 2 2 _)); eexists; reflexivity.
Qed.

(** X2.  A brand colour with fewer than five characters after its
    leading [#] signs (the shorthand [#F00], say) cannot be read: the
    colour check does not raise but reports a failure with score 0,
    whatever the image, and so does [run_brand_checks]. *)
Theorem short_colour_scores_zero (lp : option Path) (image : Image)
    (color : string) :
  color <> "" ->
  String.length (lstrip "#"%char color) <= 4 ->
  let result := check_color_presence sample_grid (mkChecker (Some color) lp) image in
  let checks := run_brand_checks sample_grid (mkChecker (Some color) lp) image in
  passed result = false /\ score result = 0%Z /\
  overall_passed checks = false /\ overall_score checks = 0%Z.
Proof.
  intros Hne Hlen. cbv zeta.
  destruct (hex_to_rgb_short color Hlen) as (e & He).
  assert (H : check_color_presence sample_grid (mkChecker (Some color) lp) image
              = check_failed e).
  { unfold check_color_presence. cbn [brand_color truthy].
    destruct (String.eqb_spec color ""); [contradiction |].
    cbn [negb]. rewrite He. reflexivity. }
  unfold run_brand_checks. cbn [overall_passed overall_score]. rewrite H.
  repeat split; reflexivity.
Qed.

Lemma scan_pixels_exists (rgb : Z * Z * Z) (pixels : list pixel) :
  forallb is_tuple pixels = true ->
  scan_pixels rgb pixels = inr (existsb (close_to rgb) pixels).
Proof.
  destruct rgb as [[br bg] bb].
  induction pixels as [| p rest IH]; intros Hall; [reflexivity |].
  cbn [forallb] in Hall. apply Bool.andb_true_iff in Hall.
  destruct Hall as (Hp & Hrest). specialize (IH Hrest).
  destruct p as [v | vs]; [discriminate Hp |].
  cbn [scan_pixels existsb close_to].
  destruct vs as [| r [| g [| b more]]]; cbn [orb]; try exact IH.
  destruct ((Z.abs (r - br) <? tolerance)%Z && (Z.abs (g - bg) <? tolerance)%Z
            && (Z.abs (b - bb) <? tolerance)%Z); [reflexivity | exact IH].
Qed.

(** X3.  With a brand colour that parses and a sampled grid of tuples,
    the colour check passes, with score 100, exactly when some pixel of
    the grid has its first three bands each strictly less than 30 away
    from the brand colour; otherwise it fails with score 50.  One such
    pixel anywhere is enough, bands after the third are not looked at,
    and tuples of fewer than three bands never match.  The bound is
    strict: a pixel 29 away on a channel matches, one 30 away does
    not. *)
Theorem colour_check_passes_iff_some_pixel_is_close (lp : option Path)
    (image : Image) (color : string) (rgb : Z * Z * Z) (pixels : list pixel) :
  _hex_to_rgb color = inr rgb ->
  sample_grid image = inr pixels ->
  forallb is_tuple pixels = true ->
  let result := check_color_presence sample_grid (mkChecker (Some color) lp) image in
  passed result = existsb (close_to rgb) pixels /\
  score result = (if existsb (close_to rgb) pixels then 100 else 50)%Z /\
  (forall r g b alpha d,
      rgb = (r, g, b) ->
      close_to rgb (Bands [(r + d)%Z; g; b]) = (Z.abs d <? 30)%Z /\
      close_to rgb (Bands [r; (g + d)%Z; b]) = (Z.abs d <? 30)%Z /\
      close_to rgb (Bands [r; g; (b + d)%Z]) = (Z.abs d <? 30)%Z /\
      close_to rgb (Bands [r; g; b; alpha]) = true /\
      close_to rgb (Bands [r; g]) = false).
Proof.
  intros Hrgb Hgrid Htuples. cbv zeta.
  rewrite (check_color_presence_scan _ sample_grid lp color rgb image pixels Hrgb Hgrid).
  rewrite (scan_pixels_exists rgb pixels Htuples).
  split; [destruct (existsb _ pixels); reflexivity |].
  split; [destruct (existsb _ pixels); reflexivity |].
  intros r g b alpha d ->. unfold close_to, tolerance.
  replace (r + d - r)%Z with d by lia.
  replace (g + d - g)%Z with d by lia.
  replace (b + d - b)%Z with d by lia.
  rewrite !Z.sub_diag. change (Z.abs 0 <? 30)%Z with true.
  cbn [andb]. rewrite !Bool.andb_true_r.
  repeat split; reflexivity.
Qed.

(** X4.  Whatever the checker and the image, the result of
    [run_brand_checks] is one of three: passed with score 100, failed
    with score 50, or failed with score 0; so it is passed exactly when
    the score is 100.  The overall verdict and score are those of the
    colour entry, and a failure with score 50 carries the brand colour
    in its details while the two other outcomes carry none. *)
Theorem brand_checks_verdict_and_score (self : BrandCompliance.t) (image : Image) :
  let checks := run_brand_checks sample_grid self image in
  ((overall_passed checks = true /\ overall_score checks = 100%Z) \/
   (overall_passed checks = false /\ overall_score checks = 50%Z) \/
   (overall_passed checks = false /\ overall_score checks = 0%Z)) /\
  (overall_passed checks = true <-> overall_score checks = 100%Z) /\
  ce_passed (checks_color_presence checks) = overall_passed checks /\
  ce_score (checks_color_presence checks) = overall_score checks /\
  (overall_score checks = 50%Z <->
   exists color, brand_color self = Some color /\
                 ce_details (checks_color_presence checks) = [("brand_color", color)]) /\
  (overall_score checks <> 50%Z -> ce_details (checks_color_presence checks) = []).
Proof.
  cbv zeta. unfold run_brand_checks.
  cbn [overall_passed overall_score checks_color_presence ce_passed ce_score ce_details].
  assert (H : let r := check_color_presence sample_grid self image in
              (passed r = true /\ score r = 100%Z /\ details r = []) \/
              (passed r = false /\ score r = 50%Z /\
               exists color, brand_color self = Some color /\
                             details r = [("brand_color", color)]) \/
              (passed r = false /\ score r = 0%Z /\ details r = [])).
  { cbv zeta. unfold check_color_presence, check_failed.
    destruct (brand_color self) as [color |]; [| left; repeat split; reflexivity].
    destruct (negb (truthy (Some color))); [left; repeat split; reflexivity |].
    destruct (_hex_to_rgb color) as [e | rgb]; [right; right; repeat split; reflexivity |].
    destruct (sample_grid image) as [e | pixels];
      [right; right; repeat split; reflexivity |].
    destruct (scan_pixels rgb pixels) as [e | []].
    - right; right; repeat split; reflexivity.
    - left; repeat split; reflexivity.
    - right; left. split; [reflexivity | split; [reflexivity |]].
      exists color. split; reflexivity. }
  cbv zeta in H.
  destruct H as [(Hp & Hs & Hd) | [(Hp & Hs & (color & Hc & Hd)) | (Hp & Hs & Hd)]];
    rewrite Hp, Hs, Hd.
  - split; [left; split; reflexivity |].
    split; [split; reflexivity |]. split; [reflexivity |]. split; [reflexivity |].
    split; [| reflexivity].
    split; [discriminate | intros (c & _ & H); discriminate H].
  - split; [right; left; split; reflexivity |].
    split; [split; discriminate |]. split; [reflexivity |]. split; [reflexivity |].
    split; [| intros H; destruct (H eq_refl)].
    split; [intros _; exists color; split; [exact Hc | reflexivity] | reflexivity].
  - split; [right; right; split; reflexivity |].
    split; [split; discriminate |]. split; [reflexivity |]. split; [reflexivity |].
    split; [| reflexivity].
    split; [discriminate | intros (c & _ & H); discriminate H].
Qed.

End Colours.

(** ** Moderation of text *)

Section Moderation.

Import ContentModerator.

Lemma lower_ascii_idempotent (c : ascii) :
  lower_ascii (lower_ascii c) = lower_ascii c.
Proof.
  destruct c as [b0 b1 b2 b3 b4 b5 b6 b7].
  destruct b0, b1, b2, b3, b4, b5, b6, b7; reflexivity.
Qed.

Lemma lower_idempotent (s : string) : lower (lower s) = lower s.
Proof.
  induction s as [| c s IH]; [reflexivity |].
  cbn [lower]. rewrite lower_ascii_idempotent, IH. reflexivity.
Qed.

Lemma lower_append (a b : string) : lower (a +++ b) = lower a +++ lower b.
Proof.
  induction a as [| c a IH]; [reflexivity |].
  cbn [lower String.append]. rewrite IH. reflexivity.
Qed.

Lemma prefix_empty (s : string) : String.prefix "" s = true.
Proof. destruct s; reflexivity. Qed.

Lemma prefix_refl (s : string) : String.prefix s s = true.
Proof.
  induction s as [| c s IH]; [reflexivity |].
  cbn [String.prefix]. destruct (ascii_dec c c); [exact IH | contradiction].
Qed.

Lemma prefix_append (n h post : string) :
  String.prefix n h = true -> String.prefix n (h +++ post) = true.
Proof.
  revert h. induction n as [| c n IH]; intros h H.
  - apply prefix_empty.
  - destruct h as [| d h]; [discriminate H |].
    cbn [String.prefix String.append] in *.
    destruct (ascii_dec c d); [apply IH; exact H | discriminate H].
Qed.

Lemma contains_cons (n : string) (c : ascii) (h : string) :
  contains n (String c h) = String.prefix n (String c h) || contains n h.
Proof. reflexivity. Qed.

Lemma contains_refl (s : string) : contains s s = true.
Proof.
  destruct s as [| c s]; [reflexivity |].
  rewrite contains_cons, prefix_refl. reflexivity.
Qed.

Lemma contains_append_right (n h post : string) :
  contains n h = true -> contains n (h +++ post) = true.
Proof.
  induction h as [| c h IH]; intros H.
  - cbn [contains] in H. rewrite Bool.orb_false_r in H.
    destruct n as [| d n]; [| discriminate H].
    destruct post; reflexivity.
  - rewrite contains_cons in H. cbn [String.append]. rewrite contains_cons.
    apply Bool.orb_true_iff in H. apply Bool.orb_true_iff.
    destruct H as [H | H].
    + left. exact (prefix_append n (String c h) post H).
    + right. exact (IH H).
Qed.

Lemma contains_append_left (n pre h : string) :
  contains n h = true -> contains n (pre +++ h) = true.
Proof.
  intros H. induction pre as [| c pre IH]; [exact H |].
  cbn [String.append]. rewrite contains_cons, IH. apply Bool.orb_true_r.
Qed.

(** X5.  Keyword filtering ignores letter case and context: a term
    found in a text is still found when the text is written in any
    other letter case and surrounded by any other text, so a message
    that fails moderation cannot be made to pass by adding to it. *)
Theorem found_terms_survive_recasing_and_context (self : ContentModerator.t)
    (text text' before after term : string) :
  In term (check_prohibited_terms self text) ->
  lower text' = lower text ->
  In term (check_prohibited_terms self (before +++ text' +++ after)) /\
  moderate_campaign_message self (before +++ text' +++ after) false = inr false.
Proof.
  intros Hin Hcase.
  assert (Hfound : In term (check_prohibited_terms self (before +++ text' +++ after))).
  { unfold check_prohibited_terms in *. apply filter_In in Hin.
    destruct Hin as (Hterm & Hocc). apply filter_In. split; [exact Hterm |].
    rewrite !lower_append, Hcase.
    apply contains_append_left, contains_append_right. exact Hocc. }
  split; [exact Hfound |].
  unfold moderate_campaign_message, is_safe, moderate_text, _ai_moderation_check.
  cbn [flagged prohibited_terms negb andb].
  destruct (check_prohibited_terms self (before +++ text' +++ after));
    [destruct Hfound | reflexivity].
Qed.

(** X6.  A moderator built by [__init__] always has terms: an empty
    list of terms selects the defaults as [None] does, so keyword
    filtering cannot be switched off.  Each of its terms, taken as a
    message in any letter case, is flagged: the non-strict call answers
    [False] and the strict call raises. *)
Theorem moderator_always_filters (prohibited : option (list string)) :
  terms (init prohibited) <> [] /\
  init (Some []) = init None /\
  (forall term message,
      In term (terms (init prohibited)) ->
      lower message = lower term ->
      moderate_campaign_message (init prohibited) message false = inr false /\
      exists e, moderate_campaign_message (init prohibited) message true = inl e).
Proof.
  split; [destruct prohibited as [[| x l] |]; discriminate |].
  split; [reflexivity |].
  intros term message Hin Hcase.
  assert (Hfound : In term (check_prohibited_terms (init prohibited) message)).
  { unfold check_prohibited_terms. apply filter_In. split; [exact Hin |].
    rewrite Hcase. apply contains_refl. }
  unfold moderate_campaign_message, is_safe, moderate_text, _ai_moderation_check.
  cbn [flagged prohibited_terms negb andb].
  destruct (check_prohibited_terms (init prohibited) message);
    [destruct Hfound |].
  cbn [List.length Nat.eqb negb]. split; [reflexivity | eexists; reflexivity].
Qed.

End Moderation.

(** ** Localization helpers *)

Section LocalizerFacts.

Import Localizer.

Variable translator : string -> string -> string -> string + string.

(** X7.  [localize_message] is [translate_text] from English: its early
    return for the target "en" changes nothing.  It therefore returns
    the message itself for the target "en" and whenever the translation
    service fails, and the answer of the service otherwise. *)
Theorem localize_message_is_translate_from_english
    (message target_language : string) :
  localize_message translator message target_language
    = translate_text translator message target_language "en" /\
  localize_message translator message "en" = message /\
  (forall e, translator "en" target_language message = inl e ->
             localize_message translator message target_language = message) /\
  (forall result,
      target_language <> "en" ->
      translator "en" target_language message = inr result ->
      localize_message translator message target_language = result).
Proof.
  unfold localize_message, translate_text, default_source_language.
  split; [destruct (String.eqb target_language "en"); reflexivity |].
  split; [reflexivity |]. split.
  - intros e He. rewrite He.
    destruct (String.eqb target_language "en"); reflexivity.
  - intros result Hne Hr. rewrite Hr.
    destruct (String.eqb_spec target_language "en"); [contradiction | reflexivity].
Qed.

(** [get_font_for_language] ignores letter case and knows two
    fonts only: "Noto Sans JP" for the code "ja", "Arial" for every
    other code, mapped or not; a regional code such as "ja-JP" is not
    "ja" and gets "Arial". *)
Lemma font_is_noto_only_for_ja (language : string) :
  get_font_for_language language
    = (if String.eqb (lower language) "ja" then "Noto Sans JP" else "Arial") /\
  get_font_for_language (lower language) = get_font_for_language language /\
  get_font_for_language "ja-JP" = "Arial".
Proof.
  unfold get_font_for_language. rewrite lower_idempotent.
  split; [| split; reflexivity].
  unfold _get_font_map. cbn [dict_get].
  destruct (String.eqb_spec (lower language) "en") as [-> | _]; [reflexivity |].
  destruct (String.eqb_spec (lower language) "es") as [-> | _]; [reflexivity |].
  reflexivity.
Qed.

End LocalizerFacts.

(** ** Paths and assets *)

Section PathFacts.

Import Notions.

Lemma split_no_separator (s : string) :
  mentions "/"%char s = false -> split "/"%char s = [s].
Proof.
  induction s as [| c s IH]; intros H; [reflexivity |].
  cbn [mentions] in H. apply Bool.orb_false_iff in H. destruct H as (Hc & Hs).
  cbn [split]. rewrite Hc, (IH Hs). reflexivity.
Qed.

Lemma split_at_separator (a rest : string) :
  mentions "/"%char a = false ->
  split "/"%char (a +++ String "/"%char rest) = a :: split "/"%char rest.
Proof.
  induction a as [| c a IH]; intros H.
  - cbn [String.append split]. change (Ascii.eqb "/" "/") with true. reflexivity.
  - cbn [mentions] in H. apply Bool.orb_false_iff in H. destruct H as (Hc & Ha).
    cbn [String.append split]. rewrite Hc, (IH Ha). reflexivity.
Qed.

Lemma plain_parts (s : string) :
  plain s = true ->
  mentions "/"%char s = false /\ keep_part s = true /\ String.prefix "/" s = false.
Proof.
  unfold plain, keep_part. intros H.
  apply Bool.andb_true_iff in H. destruct H as (H & Hslash).
  apply Bool.negb_true_iff in Hslash. split; [exact Hslash |]. split; [exact H |].
  destruct s as [| c s]; [reflexivity |].
  cbn [mentions] in Hslash. apply Bool.orb_false_iff in Hslash.
  destruct Hslash as (Hc & _). cbn [String.prefix].
  destruct (ascii_dec "/" c) as [<- | _]; [discriminate Hc | reflexivity].
Qed.

Lemma of_string_plain (s : string) :
  plain s = true -> of_string s = {| anchor := ""; parts := [s] |}.
Proof.
  intros H. destruct (plain_parts s H) as (Hslash & Hkeep & Hroot).
  unfold of_string, anchor_of. rewrite Hroot, (split_no_separator s Hslash).
  cbn [filter]. rewrite Hkeep. reflexivity.
Qed.

Lemma joinpath_plain (p : Path) (s : string) :
  plain s = true ->
  p // s = {| anchor := anchor p; parts := parts p ++ [s] |}.
Proof.
  intros H. unfold joinpath. rewrite (of_string_plain s H). reflexivity.
Qed.

Lemma joinpath_absolute (p : Path) (s : string) :
  String.prefix "/" s = true -> p // s = of_string s.
Proof.
  intros H. unfold joinpath.
  assert (Habs : absolute (of_string s) = true).
  { unfold absolute, of_string, anchor_of. cbn [anchor]. rewrite H.
    destruct (String.prefix "//" s && negb (String.prefix "///" s)); reflexivity. }
  rewrite Habs. reflexivity.
Qed.

Lemma join_snoc (sep : string) (ps : list string) (a : string) :
  ps <> [] -> join sep (ps ++ [a]) = join sep ps +++ sep +++ a.
Proof.
  assert (Hassoc : forall x y z : string, (x +++ y) +++ z = x +++ y +++ z).
  { induction x as [| c x IH]; intros y z; [reflexivity |].
    cbn [String.append]. rewrite IH. reflexivity. }
  unfold join. induction ps as [| p ps IH]; intros Hne; [contradiction |].
  destruct ps as [| q ps].
  - reflexivity.
  - change (String.concat sep ((p :: q :: ps) ++ [a]))
      with (p +++ sep +++ String.concat sep ((q :: ps) ++ [a])).
    rewrite IH by discriminate.
    change (String.concat sep (p :: q :: ps))
      with (p +++ sep +++ String.concat sep (q :: ps)).
    rewrite !Hassoc. reflexivity.
Qed.

Lemma to_string_snoc (p : Path) (a : string) :
  parts p <> [] ->
  to_string {| anchor := anchor p; parts := parts p ++ [a] |}
    = to_string p +++ "/" +++ a.
Proof.
  assert (Hassoc : forall x y z : string, (x +++ y) +++ z = x +++ y +++ z).
  { induction x as [| c x IH]; intros y z; [reflexivity |].
    cbn [String.append]. rewrite IH. reflexivity. }
  intros Hne. unfold to_string. cbn [anchor parts].
  destruct (parts p) as [| x ps] eqn:E; [contradiction |].
  pose proof (join_snoc "/" (x :: ps) a ltac:(discriminate)) as Hj.
  change ((x :: ps) ++ [a]) with (x :: ps ++ [a]) in *. cbv iota.
  rewrite Hj, Hassoc. reflexivity.
Qed.

End PathFacts.

Section AssetFacts.

Import AssetManager Notions.

Variables Image FS : Type.
Variable path_exists : FS -> Path -> bool.
Variable image_open : FS -> Path -> string + Image.
Variable mkdir : FS -> Path -> FS.
Variable image_save : FS -> Path -> Image -> FS.

(** X8.  [find_asset] answers [None] exactly when the reference is
    absent or empty or neither of its two candidate paths exists.  A
    path it returns is one of the two candidates and exists, so
    [load_image] on it never raises [FileNotFoundError]: it returns the
    image, or raises [ValueError] when the file cannot be opened as an
    image. *)
Theorem find_asset_returns_an_existing_candidate (self : AssetManager.t)
    (fs : FS) (reference : option string) :
  (find_asset path_exists self fs reference = None <->
   truthy reference = false \/
   exists ref, reference = Some ref /\
               path_exists fs (root_candidate self ref) = false /\
               path_exists fs (assets_candidate self ref) = false) /\
  (forall p,
      find_asset path_exists self fs reference = Some p ->
      path_exists fs p = true /\
      (exists ref, reference = Some ref /\ ref <> "" /\
                   (p = root_candidate self ref \/ p = assets_candidate self ref)) /\
      load_image path_exists image_open fs p
        = match image_open fs p with
          | inr image => inr image
          | inl e => inl (ValueError ("Failed to load image "
                                        +++ to_string p +++ ": " +++ e))
          end /\
      (forall m, load_image path_exists image_open fs p
                 <> inl (FileNotFoundError m))).
Proof.
  destruct reference as [ref |].
  2:{ split; [split; [intros _; left; reflexivity | reflexivity] |].
      intros p H. discriminate H. }
  destruct (String.eqb_spec ref "") as [-> | Hne].
  { split; [split; [intros _; left; reflexivity | reflexivity] |].
    intros p H. discriminate H. }
  rewrite (find_asset_candidates _ path_exists self fs ref Hne).
  assert (Htruthy : truthy (Some ref) = true).
  { unfold truthy. destruct (String.eqb_spec ref ""); [contradiction | reflexivity]. }
  split.
  - split.
    + intros H. right. exists ref. split; [reflexivity |].
      destruct (path_exists fs (root_candidate self ref)); [discriminate H |].
      destruct (path_exists fs (assets_candidate self ref)); [discriminate H |].
      split; reflexivity.
    + intros [H | (ref' & Href & Hr & Ha)].
      * rewrite Htruthy in H. discriminate H.
      * inversion Href; subst ref'. rewrite Hr, Ha. reflexivity.
  - intros p H.
    assert (Hp : path_exists fs p = true /\
                 (p = root_candidate self ref \/ p = assets_candidate self ref)).
    { destruct (path_exists fs (root_candidate self ref)) eqn:Er.
      - inversion H; subst p. split; [exact Er | left; reflexivity].
      - destruct (path_exists fs (assets_candidate self ref)) eqn:Ea;
          [| discriminate H].
        inversion H; subst p. split; [exact Ea | right; reflexivity]. }
    destruct Hp as (Hex & Hcand).
    split; [exact Hex |].
    split; [exists ref; split; [reflexivity | split; assumption] |].
    unfold load_image. rewrite Hex. cbn [negb].
    split; [destruct (image_open fs p); reflexivity |].
    intros m. destruct (image_open fs p); discriminate.
Qed.

Lemma output_file_plain (root : Path) (fs0 fs : FS) (image : Image)
    (pid r : string) :
  plain pid = true -> plain r = true ->
  fst (save_output mkdir image_save (fst (init mkdir root fs0)) fs image pid r
         default_filename)
  = {| anchor := anchor root;
       parts := parts root ++ ["output"; pid; r; "campaign_post.png"] |}.
Proof.
  intros Hpid Hr. unfold save_output, init, default_filename.
  cbn [fst output_dir].
  rewrite (joinpath_plain root "output" eq_refl).
  rewrite (joinpath_plain _ pid Hpid), (joinpath_plain _ r Hr).
  rewrite (joinpath_plain _ "campaign_post.png" eq_refl).
  cbn [anchor parts]. rewrite <- !app_assoc. reflexivity.
Qed.

(** X9.  For a product id and a ratio name that are plain names (not
    empty, not ".", without slash), [save_output] writes to the output
    directory of the campaign followed by the id, the ratio name and
    "campaign_post.png": as a string, [output/<id>/<ratio>/campaign_post.png]
    under the campaign root.  Two saves go to the same path only for
    the same id and the same ratio name. *)
Theorem save_output_follows_the_layout (root : Path) (fs0 fs : FS)
    (image : Image) (pid r : string) :
  plain pid = true -> plain r = true ->
  let self := fst (init mkdir root fs0) in
  let written := fst (save_output mkdir image_save self fs image pid r
                        default_filename) in
  written = {| anchor := anchor root;
               parts := parts root ++ ["output"; pid; r; "campaign_post.png"] |} /\
  to_string written
    = to_string (root // "output") +++ "/" +++ pid +++ "/" +++ r
        +++ "/campaign_post.png" /\
  path_name written = "campaign_post.png" /\
  (forall fs' image' pid' r',
      plain pid' = true -> plain r' = true ->
      fst (save_output mkdir image_save self fs' image' pid' r' default_filename)
        = written ->
      pid' = pid /\ r' = r).
Proof.
  intros Hpid Hr. cbv zeta.
  rewrite (output_file_plain root fs0 fs image pid r Hpid Hr).
  split; [reflexivity |]. split; [| split].
  - rewrite (joinpath_plain root "output" eq_refl).
    set (out := {| anchor := anchor root; parts := parts root ++ ["output"] |}).
    assert (Hout : parts out <> []) by (cbn [out parts]; destruct (parts root); discriminate).
    assert (Hassoc : forall x y z : string, (x +++ y) +++ z = x +++ y +++ z).
    { induction x as [| c x IH]; intros y z; [reflexivity |].
      cbn [String.append]. rewrite IH. reflexivity. }
    pose proof (to_string_snoc out pid Hout) as H1.
    set (p1 := {| anchor := anchor out; parts := parts out ++ [pid] |}) in *.
    assert (Hp1 : parts p1 <> []) by (cbn [p1 parts]; destruct (parts out); discriminate).
    pose proof (to_string_snoc p1 r Hp1) as H2.
    set (p2 := {| anchor := anchor p1; parts := parts p1 ++ [r] |}) in *.
    assert (Hp2 : parts p2 <> []) by (cbn [p2 parts]; destruct (parts p1); discriminate).
    pose proof (to_string_snoc p2 "campaign_post.png" Hp2) as H3.
    replace {| anchor := anchor root;
               parts := parts root ++ ["output"; pid; r; "campaign_post.png"] |}
      with {| anchor := anchor p2; parts := parts p2 ++ ["campaign_post.png"] |}.
    + rewrite H3, H2, H1, !Hassoc. reflexivity.
    + cbn [p2 p1 out anchor parts]. rewrite <- !app_assoc. reflexivity.
  - unfold path_name. cbn [parts].
    change ["output"; pid; r; "campaign_post.png"]
      with (["output"; pid; r] ++ ["campaign_post.png"]).
    rewrite app_assoc. apply last_last.
  - intros fs' image' pid' r' Hpid' Hr' Heq.
    rewrite (output_file_plain root fs0 fs' image' pid' r' Hpid' Hr') in Heq.
    inversion Heq as [Hparts]. apply app_inv_head in Hparts.
    inversion Hparts. split; reflexivity.
Qed.

(** X10.  A product id or an asset reference that begins with a slash
    is taken as an absolute path: [save_output] then writes under that
    path and [find_asset] first looks at that path, and the campaign
    root plays no part in either. *)
Theorem absolute_names_ignore_the_campaign_root (self : AssetManager.t)
    (fs : FS) (image : Image) (name r filename : string) :
  String.prefix "/" name = true ->
  fst (save_output mkdir image_save self fs image name r filename)
    = of_string name // r // filename /\
  root_candidate self name = of_string name /\
  (path_exists fs (of_string name) = true ->
   find_asset path_exists self fs (Some name) = Some (of_string name)).
Proof.
  intros Habs. unfold save_output, root_candidate. cbn [fst].
  rewrite !(joinpath_absolute _ name Habs).
  split; [reflexivity |]. split; [reflexivity |].
  intros Hex.
  assert (Hne : name <> "") by (intros ->; discriminate Habs).
  rewrite (find_asset_candidates _ path_exists self fs name Hne).
  unfold root_candidate. rewrite (joinpath_absolute _ name Habs), Hex.
  reflexivity.
Qed.

(** X11.  Saving and then resolving: on a file system where a file
    that was saved exists, after [save_output] for a plain product id
    and ratio name, [find_asset] of the reference
    [output/<id>/<ratio>/campaign_post.png] returns the very path
    [save_output] wrote. *)
Theorem saved_output_is_found_again (root : Path) (fs0 fs : FS)
    (image : Image) (pid r : string) :
  (forall fs p image, path_exists (image_save fs p image) p = true) ->
  plain pid = true -> plain r = true ->
  let self := fst (init mkdir root fs0) in
  let '(written, fs') :=
    save_output mkdir image_save self fs image pid r default_filename in
  find_asset path_exists self fs'
    (Some ("output/" +++ pid +++ "/" +++ r +++ "/campaign_post.png"))
  = Some written.
Proof.
  intros Hlaw Hpid Hr. cbv zeta.
  pose proof (output_file_plain root fs0 fs image pid r Hpid Hr) as Hw.
  destruct (save_output mkdir image_save (fst (init mkdir root fs0)) fs image
              pid r default_filename) as [written fs'] eqn:Hsave.
  cbn [fst] in Hw.
  assert (Hex : path_exists fs' written = true).
  { unfold save_output in Hsave. inversion Hsave. apply Hlaw. }
  set (ref := "output/" +++ pid +++ "/" +++ r +++ "/campaign_post.png").
  assert (Href : of_string ref
                 = {| anchor := "";
                      parts := ["output"; pid; r; "campaign_post.png"] |}).
  { destruct (plain_parts pid Hpid) as (Hs1 & Hk1 & _).
    destruct (plain_parts r Hr) as (Hs2 & Hk2 & _).
    unfold of_string. f_equal.
    change ref with ("output" +++ String "/"%char
                       (pid +++ String "/"%char
                          (r +++ String "/"%char "campaign_post.png"))).
    rewrite (split_at_separator "output" _ eq_refl).
    rewrite (split_at_separator pid _ Hs1), (split_at_separator r _ Hs2).
    rewrite (split_no_separator "campaign_post.png" eq_refl).
    cbn [filter]. rewrite Hk1, Hk2. reflexivity. }
  assert (Hne : ref <> "") by discriminate.
  rewrite (find_asset_candidates _ path_exists _ fs' ref Hne).
  assert (Hroot : root_candidate (fst (init mkdir root fs0)) ref = written).
  { unfold root_candidate, init, joinpath. cbn [fst campaign_root].
    rewrite Href, Hw. reflexivity. }
  rewrite Hroot, Hex. reflexivity.
Qed.

End AssetFacts.

(** ** Wrapping the campaign text *)

Section Wrapping.

Import ImageProcessor Notions.

Variable textwidth : string -> Z.
Variable max_width : Z.

Local Abbreviation line_of := (join " ").
Local Abbreviation fits g := (textwidth (line_of g) <= max_width)%Z.

Lemma wrap_loop_groups (words : list string) :
  forall groups current,
    wrap_loop textwidth max_width words (map line_of groups) current
    = (map line_of (fst (group_loop textwidth max_width words groups current)),
       snd (group_loop textwidth max_width words groups current)).
Proof.
  induction words as [| w ws IH]; intros groups current; [reflexivity |].
  cbn [wrap_loop group_loop].
  destruct (textwidth (line_of (current ++ [w])) <=? max_width)%Z.
  - apply IH.
  - destruct (nonempty current); [| apply IH].
    rewrite <- (IH (groups ++ [current])). rewrite map_app. reflexivity.
Qed.

Lemma wrapped_lines_groups (text : string) :
  wrapped_lines textwidth text max_width
  = map line_of (word_groups textwidth text max_width).
Proof.
  unfold wrapped_lines, word_groups.
  pose proof (wrap_loop_groups (split_whitespace text) [] []) as H.
  cbn [map] in H. rewrite H.
  destruct (group_loop textwidth max_width (split_whitespace text) [] [])
    as [groups current].
  cbn [fst snd]. destruct (nonempty current); [| reflexivity].
  rewrite map_app. reflexivity.
Qed.

Lemma group_loop_concat (words : list string) :
  forall groups current,
    List.concat (fst (group_loop textwidth max_width words groups current))
      ++ snd (group_loop textwidth max_width words groups current)
    = List.concat groups ++ current ++ words.
Proof.
  induction words as [| w ws IH]; intros groups current.
  - cbn [group_loop fst snd]. rewrite app_nil_r. reflexivity.
  - cbn [group_loop].
    destruct (textwidth (line_of (current ++ [w])) <=? max_width)%Z.
    + rewrite IH, <- !app_assoc. reflexivity.
    + rewrite IH. destruct current as [| c cs]; cbn [nonempty].
      * reflexivity.
      * rewrite concat_app. cbn [List.concat]. rewrite app_nil_r, <- !app_assoc.
        reflexivity.
Qed.

(** What the loop keeps true of the finished lines and of the line
    being filled. *)
Lemma group_loop_lines (words : list string) :
  forall groups current,
    Forall (fun g => g <> [] /\ (fits g \/ List.length g = 1)) groups ->
    (current = [] \/ fits current \/ List.length current = 1) ->
    Forall (fun g => g <> [] /\ (fits g \/ List.length g = 1))
           (fst (group_loop textwidth max_width words groups current)) /\
    (snd (group_loop textwidth max_width words groups current) = [] \/
     fits (snd (group_loop textwidth max_width words groups current)) \/
     List.length (snd (group_loop textwidth max_width words groups current)) = 1).
Proof.
  induction words as [| w ws IH]; intros groups current Hgroups Hcurrent.
  - split; assumption.
  - cbn [group_loop].
    destruct (Z.leb_spec (textwidth (line_of (current ++ [w]))) max_width) as [Hfit | _].
    + apply IH; [exact Hgroups | right; left; exact Hfit].
    + apply IH; [| right; right; reflexivity].
      destruct current as [| c cs]; cbn [nonempty]; [exact Hgroups |].
      apply Forall_app. split; [exact Hgroups |].
      constructor; [| constructor]. split; [discriminate |].
      destruct Hcurrent as [H | H]; [discriminate H | exact H].
Qed.

Lemma word_groups_concat (text : string) :
  List.concat (word_groups textwidth text max_width) = split_whitespace text.
Proof.
  unfold word_groups.
  pose proof (group_loop_concat (split_whitespace text) [] []) as H.
  destruct (group_loop textwidth max_width (split_whitespace text) [] [])
    as [groups current].
  cbn [fst snd List.concat app] in H. destruct current as [| c cs]; cbn [nonempty].
  - rewrite app_nil_r in H. exact H.
  - rewrite concat_app. cbn [List.concat]. rewrite app_nil_r. exact H.
Qed.

Lemma word_groups_lines (text : string) :
  Forall (fun g => g <> [] /\ (fits g \/ List.length g = 1))
         (word_groups textwidth text max_width).
Proof.
  unfold word_groups.
  pose proof (group_loop_lines (split_whitespace text) [] []
                (Forall_nil _) (or_introl eq_refl)) as (Hg & Hc).
  destruct (group_loop textwidth max_width (split_whitespace text) [] [])
    as [groups current].
  cbn [fst snd] in Hg, Hc. destruct current as [| c cs]; cbn [nonempty];
    [exact Hg |].
  apply Forall_app. split; [exact Hg |]. constructor; [| constructor].
  split; [discriminate |].
  destruct Hc as [H | H]; [discriminate H | exact H].
Qed.

(** X12.  [_wrap_text] only regroups the words of the text: its lines,
    joined by newlines, are the words of [text.split()] in their order,
    joined by single spaces within a line.  No line is empty, and every
    line either fits the width or is a single word that is too wide on
    its own; so when every word fits on its own every line fits.  A
    text without words gives the empty string. *)
Theorem wrap_text_regroups_the_words (text : string) :
  let groups := word_groups textwidth text max_width in
  _wrap_text textwidth text max_width = join newline (map line_of groups) /\
  List.concat groups = split_whitespace text /\
  Forall (fun g => g <> []) groups /\
  Forall (fun g => fits g \/ exists w, g = [w] /\ (max_width < textwidth w)%Z) groups /\
  ((forall w, In w (split_whitespace text) -> (textwidth w <= max_width)%Z) ->
   Forall (fun line => (textwidth line <= max_width)%Z)
          (wrapped_lines textwidth text max_width)) /\
  (split_whitespace text = [] -> _wrap_text textwidth text max_width = "").
Proof.
  cbv zeta.
  pose proof (word_groups_concat text) as Hconcat.
  pose proof (word_groups_lines text) as Hlines.
  assert (Hshape : Forall (fun g => fits g \/
                                    exists w, g = [w] /\ (max_width < textwidth w)%Z)
                          (word_groups textwidth text max_width)).
  { eapply Forall_impl; [| exact Hlines].
    intros g (_ & [Hfit | Hone]); [left; exact Hfit |].
    destruct g as [| w [| w' g]]; try discriminate Hone.
    destruct (Z.leb_spec (textwidth w) max_width) as [Hw | Hw].
    - left. exact Hw.
    - right. exists w. split; [reflexivity | exact Hw]. }
  split; [unfold _wrap_text; rewrite wrapped_lines_groups; reflexivity |].
  split; [exact Hconcat |].
  split; [eapply Forall_impl; [| exact Hlines]; intros g (H & _); exact H |].
  split; [exact Hshape |]. split.
  - intros Hwords. rewrite wrapped_lines_groups. apply Forall_map.
    apply Forall_forall. intros g Hg. rewrite Forall_forall in Hshape.
    destruct (Hshape g Hg) as [Hfit | (w & -> & Hwide)]; [exact Hfit |].
    assert (Hin : In w (split_whitespace text)).
    { rewrite <- Hconcat. apply in_concat. exists [w].
      split; [exact Hg | left; reflexivity]. }
    specialize (Hwords w Hin). lia.
  - intros Hnone. unfold _wrap_text. rewrite wrapped_lines_groups.
    rewrite Hnone in Hconcat.
    destruct (word_groups textwidth text max_width) as [| g gs]; [reflexivity |].
    apply Forall_inv in Hlines. destruct Hlines as (Hne & _).
    destruct g as [| w g]; [contradiction | discriminate Hconcat].
Qed.

(** *** Greedy filling *)

Local Abbreviation overflows g w :=
  (max_width < textwidth (line_of (g ++ [w])))%Z.

Lemma greedy_snoc (gs : list (list string)) (g : list string) (w : string)
    (t : list string) :
  greedy textwidth max_width (gs ++ [g]) ->
  overflows g w ->
  greedy textwidth max_width ((gs ++ [g]) ++ [w :: t]).
Proof.
  induction gs as [| a gs IH]; intros Hg Hover.
  - cbn [app greedy]. repeat split; exact Hover.
  - cbn [app greedy] in *. destruct Hg as (Hhead & Htail).
    split; [| apply IH; assumption].
    destruct gs as [| b gs]; cbn [app] in *; exact Hhead.
Qed.

Lemma greedy_replace_last (gs : list (list string)) (w : string)
    (t t' : list string) :
  greedy textwidth max_width (gs ++ [w :: t]) ->
  greedy textwidth max_width (gs ++ [w :: t']).
Proof.
  induction gs as [| a gs IH]; intros Hg.
  - cbn [app greedy]. split; exact I.
  - cbn [app greedy] in *. destruct Hg as (Hhead & Htail).
    split; [| apply IH; exact Htail].
    destruct gs as [| b gs]; cbn [app] in *; exact Hhead.
Qed.

Lemma group_loop_greedy (words : list string) :
  forall groups current,
    (current = [] -> groups = []) ->
    greedy textwidth max_width (groups ++ [current]) ->
    greedy textwidth max_width
      (fst (group_loop textwidth max_width words groups current)
         ++ [snd (group_loop textwidth max_width words groups current)]) /\
    (snd (group_loop textwidth max_width words groups current) = [] ->
     fst (group_loop textwidth max_width words groups current) = []).
Proof.
  induction words as [| w ws IH]; intros groups current Hempty Hg.
  - split; assumption.
  - cbn [group_loop].
    destruct (Z.leb_spec (textwidth (line_of (current ++ [w]))) max_width)
      as [_ | Hover].
    + apply IH.
      * intros H. destruct current; discriminate H.
      * destruct current as [| c cs].
        -- rewrite (Hempty eq_refl). cbn [app greedy]. split; exact I.
        -- cbn [app]. exact (greedy_replace_last groups c cs (cs ++ [w]) Hg).
    + apply IH; [discriminate |].
      destruct current as [| c cs]; cbn [nonempty].
      * rewrite (Hempty eq_refl). cbn [app greedy]. split; exact I.
      * exact (greedy_snoc groups (c :: cs) w [] Hg Hover).
Qed.

Lemma greedy_between (gs : list (list string)) :
  greedy textwidth max_width gs ->
  forall front g w t back,
    gs = front ++ g :: (w :: t) :: back -> overflows g w.
Proof.
  intros Hg front. revert gs Hg.
  induction front as [| a front IH]; intros gs Hg g w t back ->.
  - cbn [app greedy] in Hg. exact (proj1 Hg).
  - cbn [app greedy] in Hg. exact (IH _ (proj2 Hg) g w t back eq_refl).
Qed.

(** X13.  [_wrap_text] fills its lines greedily: wherever a line is
    followed by another, the first word of the following line did not
    fit at the end of the line before it. *)
Theorem wrap_text_breaks_only_on_overflow (text : string) :
  wrapped_lines textwidth text max_width
    = map line_of (word_groups textwidth text max_width) /\
  greedy textwidth max_width (word_groups textwidth text max_width) /\
  (forall front g w t back,
      word_groups textwidth text max_width = front ++ g :: (w :: t) :: back ->
      (max_width < textwidth (line_of (g ++ [w])))%Z).
Proof.
  assert (Hg : greedy textwidth max_width (word_groups textwidth text max_width)).
  { unfold word_groups.
    pose proof (group_loop_greedy (split_whitespace text) [] []
                  (fun _ => eq_refl) (conj I I)) as (Hgreedy & Hempty).
    destruct (group_loop textwidth max_width (split_whitespace text) [] [])
      as [groups current].
    cbn [fst snd] in Hgreedy, Hempty.
    destruct current as [| c cs]; cbn [nonempty]; [| exact Hgreedy].
    rewrite (Hempty eq_refl). exact I. }
  split; [apply wrapped_lines_groups |]. split; [exact Hg |].
  apply greedy_between. exact Hg.
Qed.

(** *** Splitting the wrapped text again *)

Lemma string_append_assoc (x y z : string) : (x +++ y) +++ z = x +++ y +++ z.
Proof.
  induction x as [| c x IH]; [reflexivity |].
  cbn [String.append]. rewrite IH. reflexivity.
Qed.

Lemma string_append_nil_r (x : string) : x +++ "" = x.
Proof.
  induction x as [| c x IH]; [reflexivity |].
  cbn [String.append]. rewrite IH. reflexivity.
Qed.

Lemma spaceless_snoc (w : string) (c : ascii) :
  spaceless w = true -> is_space c = false ->
  is_word (w +++ String c "") = true.
Proof.
  intros Hw Hc. unfold is_word.
  assert (Hs : spaceless (w +++ String c "") = true).
  { induction w as [| d w IH]; cbn [String.append spaceless] in *.
    - rewrite Hc. reflexivity.
    - apply Bool.andb_true_iff in Hw. destruct Hw as (Hd & Hw).
      rewrite Hd, (IH Hw). reflexivity. }
  rewrite Hs. destruct w; reflexivity.
Qed.

Lemma words_from_are_words (s : string) :
  forall current,
    match current with Some w => is_word w = true | None => True end ->
    Forall (fun w => is_word w = true) (words_from current s).
Proof.
  induction s as [| c s IH]; intros current Hcur.
  - destruct current; cbn [words_from]; [constructor; [exact Hcur |] |];
      constructor.
  - cbn [words_from]. destruct (is_space c) eqn:Hc.
    + destruct current; [constructor; [exact Hcur |] |]; apply IH; exact I.
    + destruct current as [w |]; apply IH.
      * unfold is_word in Hcur. apply Bool.andb_true_iff in Hcur.
        apply spaceless_snoc; [exact (proj2 Hcur) | exact Hc].
      * unfold is_word. cbn [spaceless String.eqb]. rewrite Hc. reflexivity.
Qed.

Lemma words_from_word (w : string) :
  spaceless w = true ->
  forall current rest,
    words_from (Some current) (w +++ rest)
    = words_from (Some (current +++ w)) rest.
Proof.
  induction w as [| c w IH]; intros Hw current rest.
  - rewrite string_append_nil_r. reflexivity.
  - cbn [spaceless] in Hw. apply Bool.andb_true_iff in Hw.
    destruct Hw as (Hc & Hw). apply Bool.negb_true_iff in Hc.
    cbn [String.append words_from]. rewrite Hc, (IH Hw).
    rewrite string_append_assoc. reflexivity.
Qed.

Lemma words_from_start (w rest : string) :
  is_word w = true ->
  words_from None (w +++ rest) = words_from (Some w) rest.
Proof.
  intros H. unfold is_word in H. apply Bool.andb_true_iff in H.
  destruct H as (Hne & Hw). destruct w as [| c w]; [discriminate Hne |].
  cbn [spaceless] in Hw. apply Bool.andb_true_iff in Hw.
  destruct Hw as (Hc & Hw). apply Bool.negb_true_iff in Hc.
  cbn [String.append words_from]. rewrite Hc.
  exact (words_from_word w Hw (String c "") rest).
Qed.

(** A line of words followed by more text splits into its words, the
    last of them still open. *)
Lemma words_from_line (g : list string) (w : string) :
  Forall (fun w => is_word w = true) (w :: g) ->
  forall tail,
    words_from None (line_of (w :: g) +++ tail)
    = removelast (w :: g) ++ words_from (Some (last (w :: g) "")) tail.
Proof.
  revert w. induction g as [| v g IH]; intros w Hall tail.
  - cbn [removelast last app]. apply words_from_start.
    exact (Forall_inv Hall).
  - change (line_of (w :: v :: g)) with (w +++ " " +++ line_of (v :: g)).
    rewrite !string_append_assoc.
    rewrite (words_from_start w _ (Forall_inv Hall)).
    change (" " +++ line_of (v :: g) +++ tail)
      with (String " "%char (line_of (v :: g) +++ tail)).
    cbn [words_from]. change (is_space " ") with true. cbv iota.
    rewrite (IH v (Forall_inv_tail Hall) tail). reflexivity.
Qed.

Lemma words_of_lines (groups : list (list string)) :
  Forall (fun g => g <> [] /\ Forall (fun w => is_word w = true) g) groups ->
  split_whitespace (join newline (map line_of groups)) = List.concat groups.
Proof.
  unfold split_whitespace.
  induction groups as [| g gs IH]; intros Hall; [reflexivity |].
  destruct (Forall_inv Hall) as (Hne & Hwords).
  destruct g as [| w g]; [contradiction |].
  specialize (IH (Forall_inv_tail Hall)).
  destruct gs as [| h gs].
  - change (join newline (map line_of [w :: g])) with (line_of (w :: g)).
    rewrite <- (string_append_nil_r (line_of (w :: g))).
    rewrite (words_from_line g w Hwords "").
    cbn [words_from List.concat]. rewrite app_nil_r.
    symmetry. apply app_removelast_last. discriminate.
  - change (join newline (map line_of ((w :: g) :: h :: gs)))
      with (line_of (w :: g) +++ newline +++ join newline (map line_of (h :: gs))).
    rewrite (words_from_line g w Hwords).
    change (newline +++ join newline (map line_of (h :: gs)))
      with (String (ascii_of_nat 10) (join newline (map line_of (h :: gs)))).
    cbn [words_from]. change (is_space (ascii_of_nat 10)) with true.
    cbv iota. rewrite IH.
    change (List.concat ((w :: g) :: h :: gs))
      with ((w :: g) ++ List.concat (h :: gs)).
    assert (HL : w :: g = removelast (w :: g) ++ [last (w :: g) ""])
      by (apply app_removelast_last; discriminate).
    transitivity ((removelast (w :: g) ++ [last (w :: g) ""])
                    ++ List.concat (h :: gs)).
    + rewrite <- app_assoc. reflexivity.
    + rewrite <- HL. reflexivity.
Qed.

(** X14.  Wrapping changes white space only: splitting the wrapped text
    into words again gives exactly the words of the original text, in
    the same order. *)
Theorem wrap_text_keeps_the_words (text : string) :
  split_whitespace (_wrap_text textwidth text max_width) = split_whitespace text /\
  Forall (fun w => is_word w = true) (split_whitespace text).
Proof.
  assert (Hwords : Forall (fun w => is_word w = true) (split_whitespace text))
    by (apply words_from_are_words; exact I).
  split; [| exact Hwords].
  pose proof (word_groups_concat text) as Hconcat.
  pose proof (word_groups_lines text) as Hne.
  unfold _wrap_text. rewrite wrapped_lines_groups, <- Hconcat.
  apply words_of_lines.
  apply Forall_forall. intros g Hg. rewrite Forall_forall in Hne.
  split; [exact (proj1 (Hne g Hg)) |].
  apply Forall_forall. intros w Hw. rewrite Forall_forall in Hwords.
  apply Hwords. rewrite <- Hconcat. apply in_concat. exists g. split; assumption.
Qed.

End Wrapping.

(** ** Further properties of the orchestrator *)

Section Runs.

Import Pipeline Notions.

Context {W : World}.

Local Abbreviation base_language brief :=
  (hd "" (split "-"%char (language (target_market brief)))).

Lemma font_of_language (language : string) :
  Localizer.get_font_for_language language
  = if String.eqb (lower language) "ja" then "Noto Sans JP" else "Arial".
Proof.
  unfold Localizer.get_font_for_language, Localizer._get_font_map.
  cbn [Localizer.dict_get].
  destruct (String.eqb_spec (lower language) "en") as [-> | _]; [reflexivity |].
  destruct (String.eqb_spec (lower language) "es") as [-> | _]; [reflexivity |].
  reflexivity.
Qed.

(** X15.  The localization step changes the campaign message and the
    brand font and nothing else.  A brief in "en" or "en-US" is left as
    it is.  Any other brief gets the message translated from English
    into the base code of its language, and its brand font, whatever
    it was, replaced by "Noto Sans JP" for Japanese and by "Arial" for
    every other language.  When the base code is "en" (as for "en-GB")
    the message stays the same without the translation service being
    asked. *)
Theorem localize_changes_message_and_font_only (brief : CampaignBrief) :
  let lang := language (target_market brief) in
  campaign_id (localize brief) = campaign_id brief /\
  products (localize brief) = products brief /\
  target_market (localize brief) = target_market brief /\
  target_audience (localize brief) = target_audience brief /\
  logo_of (localize brief) = logo_of brief /\
  brand_color_of (localize brief) = brand_color_of brief /\
  (lang = "en" \/ lang = "en-US" -> localize brief = brief) /\
  (lang <> "en" -> lang <> "en-US" ->
   campaign_message (localize brief)
     = Localizer.translate_text translator (campaign_message brief)
         (base_language brief) "en" /\
   brand_elements (localize brief)
     = match brand_elements brief with
       | Some be =>
           Some {| logo := logo be;
                   primary_color := primary_color be;
                   font := if String.eqb (lower (base_language brief)) "ja"
                           then "Noto Sans JP" else "Arial" |}
       | None => None
       end) /\
  (base_language brief = "en" ->
   campaign_message (localize brief) = campaign_message brief).
Proof.
  cbv zeta. unfold localize, logo_of, brand_color_of.
  destruct (String.eqb_spec (language (target_market brief)) "en-US") as [Hus | Hus];
    destruct (String.eqb_spec (language (target_market brief)) "en") as [Hen | Hen];
    cbn [negb andb].
  1-3: repeat split; try reflexivity; intros; congruence.
  cbn [campaign_id products target_market target_audience brand_elements
       campaign_message].
  split; [reflexivity |]. split; [reflexivity |]. split; [reflexivity |].
  split; [reflexivity |].
  split; [destruct (brand_elements brief); reflexivity |].
  split; [destruct (brand_elements brief); reflexivity |].
  split; [intros [H | H]; contradiction |].
  split.
  - intros _ _. split; [reflexivity |].
    rewrite font_of_language. reflexivity.
  - intros Hbase. rewrite Hbase. unfold Localizer.translate_text.
    reflexivity.
Qed.

Lemma localize_changes_message_and_font_fields (brief : CampaignBrief) :
  campaign_id (localize brief) = campaign_id brief /\
  target_market (localize brief) = target_market brief /\
  (not_english (language (target_market brief)) = true ->
   campaign_message (localize brief)
     = Localizer.translate_text translator (campaign_message brief)
         (base_language brief) "en").
Proof.
  unfold localize, not_english.
  destruct (String.eqb (language (target_market brief)) "en-US");
    destruct (String.eqb (language (target_market brief)) "en");
    cbn [negb andb orb];
    (split; [reflexivity | split; [reflexivity |]]);
    intros H; try discriminate H; reflexivity.
Qed.

(** X16.  The report of a completed run carries the campaign id of the
    brief and a localization block read off the brief: enabled exactly
    for a language other than "en" and "en-US", with the language as
    target, the message of the brief as original, and as localized
    message the translation, or nothing when localization is off.  If
    the translation service failed, the localized message is the
    original one. *)
Theorem report_localization_block (self : t) (brief_filename : string)
    (s s' : State) (report : Report) :
  run self brief_filename s = (inr report, s') ->
  exists brief,
    parse (fs s) (campaign_path self // brief_filename) = inr brief /\
    rep_campaign_id report = campaign_id brief /\
    rep_localization report
      = {| loc_enabled := not_english (language (target_market brief));
           loc_target_language := language (target_market brief);
           loc_original_message := campaign_message brief;
           loc_localized_message :=
             if not_english (language (target_market brief))
             then Some (Localizer.translate_text translator
                          (campaign_message brief) (base_language brief) "en")
             else None |} /\
    (forall e,
        not_english (language (target_market brief)) = true ->
        translator "en" (base_language brief) (campaign_message brief) = inl e ->
        loc_localized_message (rep_localization report)
          = Some (campaign_message brief)).
Proof.
  intros Hrun.
  destruct (run_completed _ _ _ _ _ Hrun) as (brief & s1 & Hparse & _ & _ & -> & _).
  exists brief. split; [exact Hparse |].
  destruct (localize_changes_message_and_font_fields brief)
    as (Hid & Hmarket & Hmessage).
  unfold _generate_report.
  cbn [rep_campaign_id rep_localization loc_localized_message].
  rewrite Hid, Hmarket.
  split; [reflexivity |].
  assert (Hblock : (if not_english (language (target_market brief))
                    then Some (campaign_message (localize brief)) else None)
                   = (if not_english (language (target_market brief))
                      then Some (Localizer.translate_text translator
                                   (campaign_message brief) (base_language brief) "en")
                      else None)).
  { destruct (not_english (language (target_market brief))); [| reflexivity].
    rewrite (Hmessage eq_refl). reflexivity. }
  rewrite Hblock. split; [reflexivity |].
  intros e Hon Hfail. rewrite Hon. f_equal.
  unfold Localizer.translate_text. rewrite Hfail.
  destruct (String.eqb (base_language brief) "en"); reflexivity.
Qed.

(** *** Counting *)

Local Abbreviation ratios_of self := (aspect_ratios (config self)).

Lemma length_blocks (self : t) (ratios : list AspectRatio)
    (pos : list (Product * (string * option string))) :
  List.length (flat_map (block_assets self ratios) pos)
  = List.length pos * List.length ratios.
Proof.
  induction pos as [| po pos IH]; [reflexivity |].
  cbn [flat_map List.length]. rewrite length_app, IH.
  unfold block_assets. rewrite length_map. lia.
Qed.

Lemma length_keys (ratios : list AspectRatio)
    (pos : list (Product * (string * option string))) :
  List.length (flat_map (block_keys ratios) pos)
  = List.length pos * List.length (filter is_square ratios).
Proof.
  induction pos as [| po pos IH]; [reflexivity |].
  cbn [flat_map List.length]. rewrite length_app, IH.
  unfold block_keys. rewrite length_map. lia.
Qed.

(** X17.  The statistics of the report of a completed run of a fresh
    pipeline object count what the configuration implies: at least two
    products, as many assets as products times configured ratios, as
    many compliance results as products times ratios named "square",
    never more passed checks than checks, and one report entry per
    product.  With the default configuration that is three assets and
    one compliance result per product. *)
Theorem report_statistics_follow_configuration (self : t)
    (brief_filename : string) (s0 s' : State) (report : Report) :
  fresh s0 ->
  run self brief_filename s0 = (inr report, s') ->
  let stats := rep_statistics report in
  2 <= total_products stats /\
  List.length (rep_products report) = total_products stats /\
  total_assets stats = total_products stats * List.length (ratios_of self) /\
  compliance_total stats
    = total_products stats * List.length (filter is_square (ratios_of self)) /\
  compliance_passed stats <= compliance_total stats /\
  (config self = _load_config ->
   total_assets stats = 3 * total_products stats /\
   compliance_total stats = total_products stats).
Proof.
  intros Hfresh Hrun. cbv zeta.
  destruct (run_completed _ _ _ _ _ Hrun) as (brief & s1 & _ & Hvalid & Hloop & -> & _).
  destruct (product_loop_effect _ _ _ _ _ Hloop) as (pos & Hfst & _ & Hg).
  destruct (grows_fresh _ _ _ _ _ Hfresh Hg) as (Ha & Hk & _).
  unfold _generate_report.
  cbn [rep_statistics rep_products total_products total_assets compliance_total
       compliance_passed].
  rewrite localize_products, length_map.
  assert (Hn : List.length pos = List.length (products brief))
    by (rewrite <- Hfst, length_map; reflexivity).
  assert (Hassets : List.length (generated_assets s1)
                    = List.length (products brief) * List.length (ratios_of self))
    by (rewrite Ha, length_blocks, Hn; reflexivity).
  assert (Hchecks : List.length (compliance_results s1)
                    = List.length (products brief)
                      * List.length (filter is_square (ratios_of self)))
    by (rewrite <- (length_map entry_key), Hk, length_keys, Hn; reflexivity).
  split.
  { rewrite validate_brief_is_valid in Hvalid. apply Nat.leb_le. exact Hvalid. }
  split; [reflexivity |]. split; [exact Hassets |]. split; [exact Hchecks |].
  split; [apply filter_length_le |].
  intros Hconfig. rewrite Hassets, Hchecks, Hconfig.
  cbn [aspect_ratios _load_config]. change (filter is_square [square; story; landscape])
    with [square]. cbn [List.length]. lia.
Qed.

Lemma invalid_brief_facts (self : t) (brief_filename : string) (s : State) :
  (forall e,
      parse (fs s) (campaign_path self // brief_filename) = inl e ->
      run self brief_filename s = (inl e, s)) /\
  (forall brief,
      parse (fs s) (campaign_path self // brief_filename) = inr brief ->
      List.length (products brief) < 2 ->
      run self brief_filename s
        = (inl (ValueError ("Invalid brief: "
                              +++ str_of_list (snd (BriefParser.validate_brief brief)))),
           s)).
Proof.
  split.
  - intros e Hparse. rewrite run_steps, Hparse. reflexivity.
  - intros brief Hparse Hfew. rewrite run_steps, Hparse.
    rewrite validate_brief_is_valid.
    destruct (Nat.leb_spec 2 (List.length (products brief))); [lia |].
    reflexivity.
Qed.

(** X18.  A brief that cannot be parsed, or that has fewer than two
    products, ends the run before anything else happens: the error is
    raised with the state untouched, so no request was sent and no
    file written.  For an invalid brief the error is a [ValueError]
    whose text lists the warnings, the product count first. *)
Theorem invalid_brief_stops_before_any_work (self : t)
    (brief_filename : string) (s : State) :
  (forall e,
      parse (fs s) (campaign_path self // brief_filename) = inl e ->
      run self brief_filename s = (inl e, s)) /\
  (forall brief,
      parse (fs s) (campaign_path self // brief_filename) = inr brief ->
      List.length (products brief) < 2 ->
      run self brief_filename s
        = (inl (ValueError ("Invalid brief: "
                              +++ str_of_list (snd (BriefParser.validate_brief brief)))),
           s) /\
      hd_error (snd (BriefParser.validate_brief brief))
        = Some (BriefParser.count_warning brief)).
Proof.
  split.
  - intros e Hparse. rewrite run_steps, Hparse. reflexivity.
  - intros brief Hparse Hfew. rewrite run_steps, Hparse.
    rewrite validate_brief_is_valid, validate_brief_warnings.
    destruct (Nat.leb_spec 2 (List.length (products brief))); [lia |].
    destruct (Nat.ltb_spec (List.length (products brief)) 2); [| lia].
    split; reflexivity.
Qed.

(** *** Requests to the generation service *)

Lemma retry_loop_success_requests (n d a : string) (c : option string)
    (k : nat) :
  forall last calls r m,
    ImageGenerator.retry_loop backend n d a c k last calls = (inr r, m) ->
    calls < m <= calls + k.
Proof.
  induction k as [| k IH]; intros last calls r m H;
    cbn [ImageGenerator.retry_loop] in H; [discriminate H |].
  destruct (backend calls (ImageGenerator.build_prompt n d a c)) as [e | image] eqn:E.
  - rewrite (generate_raises _ backend n d a c calls e E) in H.
    specialize (IH _ _ _ _ H). lia.
  - rewrite (generate_ok _ backend n d a c calls image E) in H.
    inversion H. lia.
Qed.

Lemma generate_with_retry_success_requests (n d a : string)
    (c : option string) (calls : nat) (r : Image * string) (m : nat) :
  ImageGenerator.generate_with_retry backend n d a c
    ImageGenerator.default_max_retries calls = (inr r, m) ->
  calls < m <= calls + 3.
Proof.
  unfold ImageGenerator.generate_with_retry. intros H.
  destruct (ImageGenerator.retry_loop backend n d a c
              (Z.to_nat ImageGenerator.default_max_retries) None calls)
    as [[last | r'] m'] eqn:E; [discriminate H |].
  inversion H; subst. exact (retry_loop_success_requests _ _ _ _ _ _ _ _ _ E).
Qed.

Lemma product_loop_requests (self : t) (brief : CampaignBrief)
    (products : list Product) :
  forall s s',
    for_each products (process_product self brief) s = (inr tt, s') ->
    exists pos,
      map fst pos = products /\
      Forall (outcome_ok brief) pos /\
      grows (flat_map (block_assets self (ratios_of self)) pos)
            (flat_map (block_keys (ratios_of self)) pos)
            (flat_map (block_paths self (ratios_of self)) pos) s s' /\
      requests s + generated_count pos <= requests s'
        <= requests s + 3 * generated_count pos.
Proof.
  induction products as [| p ps IH]; intros s s' Hrun.
  - cbn in Hrun. inversion Hrun; subst. exists [].
    split; [reflexivity |]. split; [constructor |].
    split; [apply grows_refl | cbn; lia].
  - destruct (AssetManager.find_asset path_exists (asset_manager self) (fs s)
                (hero_image p)) as [path |] eqn:Hfind.
    + destruct (AssetManager.load_image path_exists image_open (fs s) path)
        as [e | image] eqn:Hload.
      { rewrite (for_each_cons_raise _ _ _ _ _ _
                   (process_product_unreadable _ brief _ _ _ _ Hfind Hload))
          in Hrun. discriminate Hrun. }
      destruct (process_product self brief p s) as [[e | []] s1] eqn:H1.
      { rewrite (for_each_cons_raise _ _ _ _ _ _ H1) in Hrun. discriminate Hrun. }
      destruct (process_product_existing _ brief _ _ _ _ _ Hfind Hload H1)
        as (Hg1 & Hr1).
      rewrite (for_each_cons_ok _ _ _ _ _ H1) in Hrun.
      destruct (IH s1 s' Hrun) as (pos & Hfst & Hall & Hg2 & Hreq).
      exists ((p, reused) :: pos).
      split; [cbn [map fst]; rewrite Hfst; reflexivity |].
      split; [constructor; [left; reflexivity | exact Hall] |].
      split; [exact (grows_trans _ _ _ _ _ _ _ _ _ Hg1 Hg2) |].
      unfold generated_count in *. cbn [filter fst snd reused].
      change (String.eqb "existing" "generated") with false. cbv iota. lia.
    + destruct (ImageGenerator.generate_with_retry backend (name p)
                  (description p) (target_audience brief) (brand_color_of brief)
                  ImageGenerator.default_max_retries (requests s))
        as [[e | [image q]] n] eqn:Hgen.
      { rewrite (for_each_cons_raise _ _ _ _ _ _
                   (process_product_generation_fails _ _ _ _ _ _ Hfind Hgen))
          in Hrun. discriminate Hrun. }
      pose proof (generate_with_retry_success_requests _ _ _ _ _ _ _ Hgen) as Hn.
      destruct (process_product self brief p s) as [[e | []] s1] eqn:H1.
      { rewrite (for_each_cons_raise _ _ _ _ _ _ H1) in Hrun. discriminate Hrun. }
      destruct (process_product_generated _ _ _ _ _ _ _ _ Hfind Hgen H1)
        as (Hg1 & Hr1).
      rewrite (for_each_cons_ok _ _ _ _ _ H1) in Hrun.
      destruct (IH s1 s' Hrun) as (pos & Hfst & Hall & Hg2 & Hreq).
      exists ((p, generated_for brief p) :: pos).
      split; [cbn [map fst]; rewrite Hfst; reflexivity |].
      split; [constructor; [right; reflexivity | exact Hall] |].
      split; [exact (grows_trans _ _ _ _ _ _ _ _ _ Hg1 Hg2) |].
      unfold generated_count in *. cbn [filter fst snd generated_for].
      change (String.eqb "generated" "generated") with true. cbv iota.
      cbn [List.length]. lia.
Qed.

Lemma generated_blocks_count (self : t) (ratios : list AspectRatio)
    (brief : CampaignBrief)
    (pos : list (Product * (string * option string))) :
  Forall (outcome_ok brief) pos ->
  List.length (filter (fun a => String.eqb (source a) "generated")
                      (flat_map (block_assets self ratios) pos))
  = generated_count pos * List.length ratios.
Proof.
  assert (Hblock : forall p src pr (b : bool),
             String.eqb src "generated" = b ->
             List.length (filter (fun a => String.eqb (source a) "generated")
                                 (block_assets self ratios (p, (src, pr))))
             = if b then List.length ratios else 0).
  { intros p src pr b Hb. unfold block_assets. cbn [fst snd].
    induction ratios as [| r rs IHr]; [destruct b; reflexivity |].
    cbn [map filter asset_record source]. rewrite Hb.
    destruct b; cbn [List.length]; rewrite IHr; reflexivity. }
  intros Hall. induction Hall as [| po pos Hpo _ IH]; [reflexivity |].
  cbn [flat_map]. rewrite filter_app, length_app, IH.
  unfold generated_count. cbn [filter]. destruct po as [p [src pr]].
  destruct Hpo as [Hr | Hg]; cbn [fst snd] in *.
  - inversion Hr; subst. rewrite (Hblock p "existing" None false eq_refl).
    change (String.eqb "existing" "generated") with false. cbv iota. lia.
  - inversion Hg; subst.
    rewrite (Hblock p "generated" _ true eq_refl).
    change (String.eqb "generated" "generated") with true. cbv iota.
    cbn [List.length]. lia.
Qed.

(** X19.  In a completed run of a fresh pipeline object the generation
    service is asked at least once and at most three times for each
    generated product and never for a reused one: with [g] generated
    products, counted by the report as [g] times the number of ratios
    generated assets, the run sent between [g] and [3 g] requests. *)
Theorem requests_bounded_by_generated_products (self : t)
    (brief_filename : string) (s0 s' : State) (report : Report) :
  fresh s0 ->
  run self brief_filename s0 = (inr report, s') ->
  exists g,
    assets_generated (rep_statistics report) = g * List.length (ratios_of self) /\
    g <= total_products (rep_statistics report) /\
    requests s0 + g <= requests s' <= requests s0 + 3 * g.
Proof.
  intros Hfresh Hrun.
  destruct (run_completed _ _ _ _ _ Hrun) as (brief & s1 & _ & _ & Hloop & -> & ->).
  destruct (product_loop_requests _ _ _ _ _ Hloop) as (pos & Hfst & Hok & Hg & Hreq).
  destruct (grows_fresh _ _ _ _ _ Hfresh Hg) as (Ha & _ & _).
  exists (generated_count pos).
  unfold _generate_report.
  cbn [rep_statistics assets_generated total_products report_written requests].
  rewrite Ha, (generated_blocks_count self _ (localize brief) pos Hok).
  rewrite localize_products, <- Hfst, length_map.
  split; [reflexivity |]. split; [apply filter_length_le | exact Hreq].
Qed.

(** *** Output files *)












(** *** The command line *)

Lemma generate_with_retry_exhausted (n d a : string) (c : option string)
    (calls : nat) (last : string) :
  (forall i, i < 3 ->
     exists e, backend (calls + i) (ImageGenerator.build_prompt n d a c) = inl e) ->
  backend (calls + 2) (ImageGenerator.build_prompt n d a c) = inl last ->
  ImageGenerator.generate_with_retry backend n d a c
    ImageGenerator.default_max_retries calls
  = (inl (Exception ("Failed after 3 attempts: Failed to generate image for "
                       +++ n +++ ": " +++ last)),
     calls + 3).
Proof.
  intros Hfail Hlast. unfold ImageGenerator.generate_with_retry.
  destruct (retry_loop_all_fail _ backend n d a c 3 None calls Hfail)
    as (last' & Hrun & _ & Hlast').
  change (Z.to_nat ImageGenerator.default_max_retries) with 3.
  rewrite Hrun.
  replace (calls + 3 - 1) with (calls + 2) in Hlast' by lia.
  rewrite (Hlast' last ltac:(lia) Hlast). reflexivity.
Qed.

(** X21.  [main] exits with 0 exactly when the pipeline object could be
    built and its run returned a report, and with 1 otherwise, printing
    one error line whose prefix tells the class of the exception.  A
    missing API key is reported as a validation
    error before anything is read; an unreadable brief by the error of
    the parser; a brief with fewer than two products as a validation
    error listing the warnings; and a first product whose three
    generation requests all fail as a pipeline error naming the
    product. *)
Theorem main_exit_code_and_message (campaign_path : Path)
    (brief_filename : string) (api_key : option string) (fs0 : FS) :
  let result := Main.main campaign_path brief_filename api_key fs0 in
  let fs1 := mkdir fs0 (campaign_path // "output") in
  let brief_path := campaign_path // brief_filename in
  (fst result = 0%Z \/ fst result = 1%Z) /\
  (fst result = 0%Z <->
   exists self s0 report s',
     init campaign_path api_key fs0 = inr (self, s0) /\
     run self brief_filename s0 = (inr report, s')) /\
  (fst result = 0%Z <-> snd result = Main.Completed) /\
  (forall e,
      (init campaign_path api_key fs0 = inl e \/
       exists self s0 s',
         init campaign_path api_key fs0 = inr (self, s0) /\
         run self brief_filename s0 = (inl e, s')) ->
      result = Main.handle e) /\
  (truthy api_key = false ->
   result = (1%Z, Main.ErrorLine "Validation Error: OpenAI API key required. Set OPENAI_API_KEY in .env file.")) /\
  (truthy api_key = true ->
   (forall e, parse fs1 brief_path = inl e -> result = Main.handle e) /\
   (forall brief,
       parse fs1 brief_path = inr brief ->
       List.length (products brief) < 2 ->
       result = (1%Z, Main.ErrorLine
                        ("Validation Error: Invalid brief: "
                           +++ str_of_list (snd (BriefParser.validate_brief brief))))) /\
   (forall brief product rest last,
       parse fs1 brief_path = inr brief ->
       products brief = product :: rest ->
       rest <> [] ->
       hero_image product = None ->
       (forall i, i < 3 ->
          exists e,
            backend i (ImageGenerator.build_prompt (name product)
                         (description product) (target_audience brief)
                         (brand_color_of brief)) = inl e) ->
       backend 2 (ImageGenerator.build_prompt (name product)
                    (description product) (target_audience brief)
                    (brand_color_of brief)) = inl last ->
       result = (1%Z, Main.ErrorLine
                        ("Pipeline Error: Failed after 3 attempts: "
                           +++ "Failed to generate image for "
                           +++ name product +++ ": " +++ last)))).
Proof.
  cbv zeta. unfold Main.main, init, AssetManager.init, ImageGenerator.init.
  cbn [AssetManager.output_dir].
  destruct (truthy api_key) eqn:Hkey.
  2:{ cbn [Main.handle fst snd].
      split; [right; reflexivity |].
      split; [split; [discriminate | intros (? & ? & ? & ? & H & _); discriminate H] |].
      split; [split; discriminate |].
      split; [| split; [reflexivity | discriminate]].
      intros e [H | (? & ? & ? & H & _)]; [| discriminate H].
      inversion H. reflexivity. }
  set (self := {| campaign_path := campaign_path;
                  config := _load_config;
                  asset_manager := _;
                  content_moderator := ContentModerator.init None |}).
  set (s0 := {| generated_assets := []; compliance_results := [];
                fs := mkdir fs0 (campaign_path // "output");
                requests := 0; saved := [] |}).
  assert (Hcases : forall e, (fst (Main.handle e) = 0%Z \/ fst (Main.handle e) = 1%Z)
                             /\ (fst (Main.handle e) = 0%Z
                                 <-> snd (Main.handle e) = Main.Completed)).
  { intros [m | m | m]; cbn [Main.handle fst snd];
      (split; [right; reflexivity | split; discriminate]). }
  split; [| split; [| split; [| split; [| split; [discriminate |]]]]].
  - destruct (run self brief_filename s0) as [[e | report] s1];
      [exact (proj1 (Hcases e)) | left; reflexivity].
  - destruct (run self brief_filename s0) as [[e | report] s1] eqn:Hrun.
    + split.
      * intros H. destruct e; discriminate H.
      * intros (self' & s0' & report & s' & Hinit & Hrun').
        inversion Hinit; subst self' s0'. rewrite Hrun in Hrun'.
        discriminate Hrun'.
    + split; [| reflexivity].
      intros _. exists self, s0, report, s1. split; [reflexivity | exact Hrun].
  - destruct (run self brief_filename s0) as [[e | report] s1];
      [exact (proj2 (Hcases e)) | split; reflexivity].
  - intros e [H | (self' & s0' & s' & Hinit & Hrun')]; [discriminate H |].
    inversion Hinit; subst self' s0'. rewrite Hrun'. reflexivity.
  - intros _. split; [| split].
    + intros e Hparse.
      rewrite (proj1 (invalid_brief_facts self brief_filename s0) e Hparse).
      reflexivity.
    + intros brief Hparse Hfew.
      rewrite (proj2 (invalid_brief_facts self brief_filename s0) brief Hparse Hfew).
      reflexivity.
    + intros brief product rest last Hparse Hproducts Hrest Hnohero Hfail Hlast.
      rewrite run_steps.
      change (fs s0) with (mkdir fs0 (campaign_path // "output")).
      change (Pipeline.campaign_path self) with campaign_path.
      rewrite Hparse, validate_brief_is_valid, Hproducts.
      destruct rest as [| p2 rest]; [contradiction |].
      cbn [List.length Nat.leb negb].
      assert (Hfind : AssetManager.find_asset path_exists (asset_manager self)
                        (fs s0) (hero_image product) = None)
        by (rewrite Hnohero; reflexivity).
      assert (Hgen : ImageGenerator.generate_with_retry backend (name product)
                       (description product) (target_audience (localize brief))
                       (brand_color_of (localize brief))
                       ImageGenerator.default_max_retries (requests s0)
                     = (inl (Exception
                               ("Failed after 3 attempts: Failed to generate image for "
                                  +++ name product +++ ": " +++ last)),
                        requests s0 + 3)).
      { rewrite localize_target_audience, localize_brand_color.
        apply generate_with_retry_exhausted; assumption. }
      rewrite (for_each_cons_raise _ _ _ _ _ _
                 (process_product_generation_fails self (localize brief) product s0
                    _ _ Hfind Hgen)).
      reflexivity.
Qed.

(** *** Placing the text *)

(** X22.  [add_text_overlay] centres the text block horizontally: the
    margin on its right is the margin on its left or one pixel more,
    whatever the sizes.  Vertically the block starts [padding] below
    the top edge for "top", is centred in the same way for "center",
    and for any other position, "bottom" included, ends [padding]
    above the bottom edge. *)
Theorem text_block_is_centred (img_width img_height text_width text_height
    padding : Z) (position : string) :
  let x := fst (ImageProcessor.text_origin img_width img_height text_width
                  text_height padding position) in
  let y := snd (ImageProcessor.text_origin img_width img_height text_width
                  text_height padding position) in
  (0 <= (img_width - text_width - x) - x <= 1)%Z /\
  (position = "top" -> y = padding) /\
  (position = "center" -> (0 <= (img_height - text_height - y) - y <= 1)%Z) /\
  (position <> "top" -> position <> "center" ->
   (y + text_height + padding = img_height)%Z).
Proof.
  cbv zeta. unfold ImageProcessor.text_origin. cbn [fst snd].
  pose proof (Z.div_mod (img_width - text_width) 2 ltac:(lia)) as Hx.
  pose proof (Z.mod_pos_bound (img_width - text_width) 2 ltac:(lia)) as Hxb.
  pose proof (Z.div_mod (img_height - text_height) 2 ltac:(lia)) as Hy.
  pose proof (Z.mod_pos_bound (img_height - text_height) 2 ltac:(lia)) as Hyb.
  split; [lia |]. split; [| split].
  - intros ->. reflexivity.
  - intros ->. change (String.eqb "center" "top") with false.
    change (String.eqb "center" "center") with true. cbv iota. lia.
  - intros Htop Hcenter.
    destruct (String.eqb_spec position "top"); [contradiction |].
    destruct (String.eqb_spec position "center"); [contradiction |]. lia.
Qed.

End Runs.

(** ** The further properties on the demonstration campaign *)

Section FurtherDemonstration.

Import Pipeline Demo DemoEs DemoDisk Notions.

(** X2 on the shorthand colour #F00. *)
Lemma short_colour_witness :
  BrandCompliance.score
    (BrandCompliance.check_color_presence (fun c : colour => inr (grid_of c))
       (BrandCompliance.mkChecker (Some "#F00") None) red) = 0%Z.
Proof.
  assert (Hne : "#F00" <> "") by discriminate.
  assert (Hlen : String.length (lstrip "#"%char "#F00") <= 4)
    by (vm_compute; lia).
  exact (proj1 (proj2 (short_colour_scores_zero colour
                         (fun c => inr (grid_of c)) None red "#F00" Hne Hlen))).
Defined.

(** X3 on a red image checked against the brand colour #FF0000. *)
Lemma close_pixel_witness :
  BrandCompliance.passed
    (BrandCompliance.check_color_presence (fun c : colour => inr (grid_of c))
       (BrandCompliance.mkChecker (Some "#FF0000") None) red) = true.
Proof.
  assert (Hrgb : BrandCompliance._hex_to_rgb "#FF0000" = inr (255, 0, 0)%Z)
    by (vm_compute; reflexivity).
  assert (Htuples : forallb is_tuple (grid_of red) = true)
    by (vm_compute; reflexivity).
  destruct (colour_check_passes_iff_some_pixel_is_close colour
              (fun c => inr (grid_of c)) None red "#FF0000" (255, 0, 0)%Z
              (grid_of red) Hrgb eq_refl Htuples) as (Hpassed & _).
  rewrite Hpassed. vm_compute. reflexivity.
Defined.

(** X5: a flagged slogan, shouted inside a longer message. *)
Lemma recased_message_witness :
  In "miracle"
     (ContentModerator.check_prohibited_terms (ContentModerator.init None)
        ("Buy now: " +++ "MIRACLE CURE" +++ "!")).
Proof.
  assert (Hin : In "miracle"
                   (ContentModerator.check_prohibited_terms
                      (ContentModerator.init None) "miracle cure"))
    by (vm_compute; left; reflexivity).
  assert (Hcase : lower "MIRACLE CURE" = lower "miracle cure")
    by (vm_compute; reflexivity).
  exact (proj1 (found_terms_survive_recasing_and_context
                  (ContentModerator.init None) "miracle cure" "MIRACLE CURE"
                  "Buy now: " "!" "miracle" Hin Hcase)).
Defined.

(** X9: where the square variant of the soap is saved. *)
Lemma layout_witness :
  to_string
    (fst (AssetManager.save_output (fun fs p => p :: fs) (fun fs p _ => p :: fs)
            (fst (AssetManager.init (fun fs p => p :: fs) root disk)) disk red
            "soap" "square" AssetManager.default_filename))
  = "/campaigns/acme/output/soap/square/campaign_post.png".
Proof.
  destruct (save_output_follows_the_layout colour (list Path)
              (fun fs p => p :: fs) (fun fs p _ => p :: fs) root disk disk red
              "soap" "square" eq_refl eq_refl) as (_ & Hstring & _).
  cbv zeta in Hstring. rewrite Hstring. vm_compute. reflexivity.
Defined.

(** X10: a product id that is an absolute path. *)
Lemma absolute_id_witness :
  fst (AssetManager.save_output (fun fs p => p :: fs) (fun fs p _ => p :: fs)
         (asset_manager self) disk red "/tmp/x" "square"
         AssetManager.default_filename)
  = of_string "/tmp/x/square/campaign_post.png".
Proof.
  destruct (absolute_names_ignore_the_campaign_root colour (list Path) exists_in
              (fun fs p => p :: fs) (fun fs p _ => p :: fs) (asset_manager self)
              disk red "/tmp/x" "square" AssetManager.default_filename eq_refl)
    as (Hsave & _).
  rewrite Hsave. vm_compute. reflexivity.
Defined.

Lemma exists_in_head (fs : list Path) (p : Path) : exists_in (p :: fs) p = true.
Proof.
  unfold exists_in. cbn [existsb]. unfold Pathlib.eqb.
  rewrite String.eqb_refl.
  destruct (list_eq_dec string_dec (parts p) (parts p)); [reflexivity | contradiction].
Qed.

(** X11: the saved square variant of the soap is found again. *)
Lemma saved_then_found_witness :
  AssetManager.find_asset exists_in (asset_manager self)
    (snd (AssetManager.save_output (fun fs p => p :: fs) (fun fs p _ => p :: fs)
            (asset_manager self) disk red "soap" "square"
            AssetManager.default_filename))
    (Some "output/soap/square/campaign_post.png")
  = Some (root // "output" // "soap" // "square" // "campaign_post.png").
Proof.
  pose proof (saved_output_is_found_again colour (list Path) exists_in
                (fun fs p => p :: fs) (fun fs p _ => p :: fs) root disk disk red
                "soap" "square" (fun fs p _ => exists_in_head fs p)
                eq_refl eq_refl) as H.
  cbv zeta in H. exact H.
Defined.

Lemma spanish_run :
  @run world_es self "brief.yaml" state_es
  = (inr (@report_of world_es outcome_es), snd outcome_es).
Proof. vm_compute. reflexivity. Qed.

(** X16: the localization block of the Spanish campaign. *)
Lemma spanish_report_witness :
  rep_localization (@report_of world_es outcome_es)
  = {| loc_enabled := true;
       loc_target_language := "es-ES";
       loc_original_message := "Feel fresh every day";
       loc_localized_message := Some "[es] Feel fresh every day" |}.
Proof.
  destruct (@report_localization_block world_es self "brief.yaml" state_es
              (snd outcome_es) (@report_of world_es outcome_es) spanish_run)
    as (brief & Hparse & _ & Hblock & _).
  assert (Hbrief : brief = brief_es)
    by (vm_compute in Hparse; inversion Hparse; reflexivity).
  subst brief. rewrite Hblock. vm_compute. reflexivity.
Defined.

(** X17: the statistics of the demonstration run. *)
Lemma statistics_witness :
  total_assets (rep_statistics (@report_of world outcome))
    = 3 * total_products (rep_statistics (@report_of world outcome)) /\
  compliance_total (rep_statistics (@report_of world outcome))
    = total_products (rep_statistics (@report_of world outcome)).
Proof.
  destruct (@report_statistics_follow_configuration world self "brief.yaml"
              state0 (snd outcome) (@report_of world outcome) demo_state_fresh
              demo_run) as (_ & _ & _ & _ & _ & Hdefault).
  exact (Hdefault eq_refl).
Defined.

(** X19: the demonstration run generated one product, at its third
    request. *)
Lemma requests_witness :
  exists g,
    assets_generated (rep_statistics (@report_of world outcome)) = g * 3 /\
    g <= total_products (rep_statistics (@report_of world outcome)) /\
    requests state0 + g <= requests (snd outcome) <= requests state0 + 3 * g.
Proof.
  exact (@requests_bounded_by_generated_products world self "brief.yaml" state0
           (snd outcome) (@report_of world outcome) demo_state_fresh demo_run).
Defined.






(** The other properties on small inputs. *)

Example wrap_example :
  ImageProcessor._wrap_text ten_per_char
    "  Feel fresh   every day, extraordinarily " 120
  = "Feel fresh" +++ ImageProcessor.newline +++ "every day,"
      +++ ImageProcessor.newline +++ "extraordinarily".
Proof. vm_compute. reflexivity. Qed.

Example single_product_exit :
  @Main.main world_single root "brief.yaml" (Some "sk-test") disk
  = (1%Z, Main.ErrorLine "Validation Error: Invalid brief: ['Brief requires at least 2 products, found 1', 'No brand elements specified']").
Proof. vm_compute. reflexivity. Qed.

Example apostrophe_exit :
  @Main.main world_apostrophe root "brief.yaml" (Some "sk-test") disk
  = (1%Z,
     Main.ErrorLine
       ("Validation Error: Invalid brief: "
          +++ "['Brief requires at least 2 products, found 1', "
          +++ String double_quote
                "Products without hero images (will generate): Kiehl's"
          +++ String double_quote ", 'No brand elements specified']")).
Proof. vm_compute. reflexivity. Qed.

(** A product id outside the campaign: its first file is saved and
    recorded, then the line printed after the save raises. *)
Example outside_id_stops_the_run :
  fst outcome_outside
  = inl (ValueError
           "'/tmp/x/square/campaign_post.png' is not in the subpath of '/campaigns/acme'") /\
  map fst (saved (snd outcome_outside))
  = [ root // "output" // "soap" // "square" // "campaign_post.png";
      root // "output" // "soap" // "story" // "campaign_post.png";
      root // "output" // "soap" // "landscape" // "campaign_post.png";
      of_string "/tmp/x/square/campaign_post.png" ] /\
  List.length (generated_assets (snd outcome_outside)) = 4 /\
  @Main.main world_outside root "brief.yaml" (Some "sk-test") disk
  = (1%Z,
     Main.ErrorLine
       "Validation Error: '/tmp/x/square/campaign_post.png' is not in the subpath of '/campaigns/acme'").
Proof. vm_compute. repeat split. Qed.

Example completed_exit :
  @Main.main world root "brief.yaml" (Some "sk-test") disk = (0%Z, Main.Completed).
Proof. vm_compute. reflexivity. Qed.

Example spanish_font_replaced :
  option_map font (brand_elements (@localize world_es brief_es)) = Some "Arial".
Proof. vm_compute. reflexivity. Qed.

End FurtherDemonstration.
